(** * stix2nx: STIX bundles to NetworkX graphs

    A shallow embedding of the conversion engine of stix2nx
    ([utils.py], [converter.py], [parsers.py], [__init__.py]) together
    with a model of the part of Python and of NetworkX the engine runs on,
    and the properties of the design document checked against it. *)

From stdpp Require Import gmap strings list fin_maps.
From Stdlib Require Import ZArith DecimalString.

(** ** Python values

    A parsed JSON document, as [json.load] returns it.  Numbers are the
    integers (the engine never computes with a number, it only tests one
    for emptiness and uses it as a dictionary key); a [dict] is a finite
    map from strings, so two dicts are equal when they hold the same
    entries, as in Python. *)
#[warnings="-register-all"]
Inductive json : Type :=
  | JNull
  | JBool (b : bool)
  | JNum (n : Z)
  | JStr (s : string)
  | JList (l : list json)
  | JDict (d : gmap string json).

Abbreviation dict := (gmap string json).

(** Exceptions the modelled code can raise. *)
Inductive exn : Type :=
  | TypeError
  | ValueError
  | AttributeError
  | KeyError
  | FileNotFoundError.

Inductive outcome (A : Type) : Type :=
  | Return (a : A)
  | Raise (e : exn).
Arguments Return {A} a.
Arguments Raise {A} e.

Global Instance outcome_ret : MRet outcome := @Return.
Global Instance outcome_bind : MBind outcome := λ A B f m,
  match m with Return a => f a | Raise e => Raise e end.

(** [bool(v)]: [None], [False], [0], the empty string, list and dict are
    false, everything else is true. *)
Definition truthy (v : json) : bool :=
  match v with
  | JNull => false
  | JBool b => b
  | JNum n => negb (n =? 0)%Z
  | JStr s => negb (String.eqb s EmptyString)
  | JList l => match l with [] => false | _ :: _ => true end
  | JDict d => negb (Nat.eqb (size d) 0)
  end.

(** [d.get(k)] and [d.get(k, dflt)] on a dict. *)
Definition get (d : dict) (k : string) : json := default JNull (d !! k).
Definition get_or (d : dict) (k : string) (dflt : json) : json :=
  default dflt (d !! k).

(** [v.get(k, dflt)] on any value: only a dict has the method. *)
Definition py_get (v : json) (k : string) (dflt : json) : outcome json :=
  match v with
  | JDict d => Return (get_or d k dflt)
  | _ => Raise AttributeError
  end.

(** [d[k]]. *)
Definition getitem (d : dict) (k : string) : outcome json :=
  match d !! k with
  | Some v => Return v
  | None => Raise KeyError
  end.

(** [v == s] for a string literal [s]: no value other than that string
    compares equal to it. *)
Definition eq_str (v : json) (s : string) : bool :=
  match v with JStr t => String.eqb t s | _ => false end.

(** [v in S] for a frozenset of strings: lists and dicts are unhashable. *)
Definition in_frozenset (v : json) (S : gset string) : outcome bool :=
  match v with
  | JStr s => Return (bool_decide (s ∈ S))
  | JList _ | JDict _ => Raise TypeError
  | JNull | JBool _ | JNum _ => Return false
  end.

(** [v.startswith(p)]: a method of strings only. *)
Definition startswith (v : json) (p : string) : outcome bool :=
  match v with
  | JStr s => Return (String.prefix p s)
  | _ => Raise AttributeError
  end.

(** The characters of a string, each as a string of length one. *)
Fixpoint chars (s : string) : list json :=
  match s with
  | EmptyString => []
  | String c s' => JStr (String c EmptyString) :: chars s'
  end.

(** [for x in v]: a list yields its elements, a string its characters, a
    dict its keys; the other values are not iterable. *)
Definition iter (v : json) : outcome (list json) :=
  match v with
  | JList l => Return l
  | JStr s => Return (chars s)
  | JDict d => Return (JStr <$> (map_to_list d).*1)
  | JNull | JBool _ | JNum _ => Raise TypeError
  end.

(** [str(v)] as an f-string field formats it.  The text of a list or of a
    dict is left to [repr_container]. *)
Definition str (repr_container : json → string) (v : json) : string :=
  match v with
  | JNull => "None"
  | JBool true => "True"
  | JBool false => "False"
  | JNum n => NilZero.string_of_int (Z.to_int n)
  | JStr s => s
  | JList _ | JDict _ => repr_container v
  end.

(** Dictionary keys: what a hashable, non-[None] value hashes and compares
    as.  [True] and [1], [False] and [0] are the same key. *)
Inductive pykey : Type :=
  | KNum (n : Z)
  | KStr (s : string).

Global Instance pykey_eq_dec : EqDecision pykey.
Proof. solve_decision. Defined.

Global Instance pykey_countable : Countable pykey.
Proof.
  refine (inj_countable'
            (λ k, match k with KNum n => inl n | KStr s => inr s end)
            (λ x, match x with inl n => KNum n | inr s => KStr s end) _).
  by intros [].
Defined.

Definition key_of (v : json) : option pykey :=
  match v with
  | JBool b => Some (KNum (Z.b2z b))
  | JNum n => Some (KNum n)
  | JStr s => Some (KStr s)
  | JNull | JList _ | JDict _ => None
  end.

(** A computation over a state [S] that returns or raises; what it did
    to the state before raising stays done. *)
Definition M (S A : Type) : Type := S → S * outcome A.

Global Instance M_ret {S} : MRet (M S) := λ A a s, (s, Return a).
Global Instance M_bind {S} : MBind (M S) := λ A B f m s,
  match m s with
  | (s', Return a) => f a s'
  | (s', Raise e) => (s', Raise e)
  end.

Definition raise {S A} (e : exn) : M S A := λ s, (s, Raise e).

Definition lift {S A} (o : outcome A) : M S A := λ s, (s, o).

(** [for x in l: body(x)]. *)
Fixpoint for_ {S A} (l : list A) (body : A → M S unit) : M S unit :=
  match l with
  | [] => mret tt
  | x :: l' => body x;; for_ l' body
  end.

(** ** NetworkX

    [nx.MultiDiGraph] and [nx.DiGraph] as far as the engine uses them:
    the node table and the edge table with their attribute dicts.  An edge
    of a multigraph is addressed by source, target and edge key, an edge
    of a simple graph by source and target. *)
Module nx.

Inductive graph : Type :=
  | MultiDiGraph (node : gmap pykey dict)
                 (adj : gmap (pykey * pykey * pykey) dict)
  | DiGraph (node : gmap pykey dict)
            (adj : gmap (pykey * pykey) dict).

Definition nodes (g : graph) : gmap pykey dict :=
  match g with MultiDiGraph nd _ | DiGraph nd _ => nd end.

Definition set_nodes (nd : gmap pykey dict) (g : graph) : graph :=
  match g with
  | MultiDiGraph _ adj => MultiDiGraph nd adj
  | DiGraph _ adj => DiGraph nd adj
  end.

(** A keyword argument named like a parameter of the method is a
    [TypeError] of the call. *)
Definition clashes (params : list string) (attr : dict) : bool :=
  existsb (λ p, bool_decide (is_Some (attr !! p))) params.

(** A value used as a node: it must be hashable and not [None]. *)
Definition as_node (v : json) : outcome pykey :=
  match v with
  | JNull => Raise ValueError
  | _ => match key_of v with Some k => Return k | None => Raise TypeError end
  end.

(** An edge endpoint that is not yet a node becomes one, with no
    attributes. *)
Definition touch (k : pykey) (nd : gmap pykey dict) : gmap pykey dict :=
  match nd !! k with
  | Some _ => nd
  | None => <[k := ∅]> nd
  end.

(** [attr_dict.update(attr)] on the dict stored at [k], a new dict when
    there is none. *)
Definition update_at `{Countable K} (k : K) (attr : dict)
    (m : gmap K dict) : gmap K dict :=
  <[k := attr ∪ default ∅ (m !! k)]> m.

(** [G.add_node(node_for_adding, **attr)]. *)
Definition add_node (n : json) (attr : dict) : M graph unit := λ g,
  if clashes ["self"; "node_for_adding"] attr then (g, Raise TypeError)
  else match as_node n with
       | Raise e => (g, Raise e)
       | Return k => (set_nodes (update_at k attr (nodes g)) g, Return tt)
       end.

(** The edges between [u] and [v] of a multigraph. *)
Definition keydict (adj : gmap (pykey * pykey * pykey) dict)
    (u v : pykey) : gmap (pykey * pykey * pykey) dict :=
  filter (λ e, e.1.1.1 = u ∧ e.1.1.2 = v) adj.

(** [while key in keydict: key += 1], at most [fuel] rounds. *)
Fixpoint probe (adj : gmap (pykey * pykey * pykey) dict) (u v : pykey)
    (fuel : nat) (key : Z) : Z :=
  match fuel with
  | O => key
  | S fuel' =>
      if decide (is_Some (adj !! (u, v, KNum key)))
      then probe adj u v fuel' (key + 1)%Z
      else key
  end.

(** [G.new_edge_key(u, v)]: the number of edges between [u] and [v],
    or the next integer that is not a key between them. *)
Definition new_edge_key (adj : gmap (pykey * pykey * pykey) dict)
    (u v : pykey) : Z :=
  let n := size (keydict adj u v) in
  probe adj u v (S n) (Z.of_nat n).

(** [DiGraph.add_edge(u_of_edge, v_of_edge, **attr)] and
    [MultiDiGraph.add_edge(u_for_edge, v_for_edge, key=None, **attr)]. *)
Definition add_edge (u v : json) (attr : dict) : M graph unit := λ g,
  match g with
  | DiGraph nd adj =>
      if clashes ["self"; "u_of_edge"; "v_of_edge"] attr
      then (g, Raise TypeError)
      else match as_node u with
           | Raise e => (g, Raise e)
           | Return ku =>
               let nd1 := touch ku nd in
               match as_node v with
               | Raise e => (DiGraph nd1 adj, Raise e)
               | Return kv =>
                   (DiGraph (touch kv nd1) (update_at (ku, kv) attr adj),
                    Return tt)
               end
           end
  | MultiDiGraph nd adj =>
      if clashes ["self"; "u_for_edge"; "v_for_edge"] attr
      then (g, Raise TypeError)
      else
        let key := get attr "key" in
        let attr := delete "key" attr in
        match as_node u with
        | Raise e => (g, Raise e)
        | Return ku =>
            let nd1 := touch ku nd in
            match as_node v with
            | Raise e => (MultiDiGraph nd1 adj, Raise e)
            | Return kv =>
                let nd2 := touch kv nd1 in
                match key with
                | JNull =>
                    let k := KNum (new_edge_key adj ku kv) in
                    (MultiDiGraph nd2 (update_at (ku, kv, k) attr adj),
                     Return tt)
                | _ =>
                    match key_of key with
                    | Some k =>
                        (MultiDiGraph nd2 (update_at (ku, kv, k) attr adj),
                         Return tt)
                    | None => (MultiDiGraph nd2 adj, Raise TypeError)
                    end
                end
            end
        end
  end.

End nx.

(** ** Logging

    A log record is a level and what the message is about; the wording of
    the messages is not modelled. *)
Inductive level : Type := WARNING | DEBUG.

Inductive message : Type :=
  | ObjectsNotAList
  | NonDictObject
  | NoTypeField
  | NoIdField
  | MissingRef
  | UnknownObjectType
  | NoJsonFiles.

(** What a conversion runs on: the graph it is given and the log. *)
Record world : Type := World {
  graph : nx.graph;
  records : list (level * message)
}.

Definition logger (l : level) (m : message) : M world unit := λ w,
  (World (graph w) (records w ++ [(l, m)]), Return tt).

(** A graph method called on the graph of the world. *)
Definition on_graph {A} (c : M nx.graph A) : M world A := λ w,
  let '(g, r) := c (graph w) in (World g (records w), r).

(** ** utils.py *)

Definition SDO_TYPES : gset string :=
  list_to_set
    ["attack-pattern"; "campaign"; "course-of-action"; "grouping";
     "identity"; "incident"; "indicator"; "infrastructure";
     "intrusion-set"; "location"; "malware"; "malware-analysis"; "note";
     "observed-data"; "opinion"; "report"; "threat-actor"; "tool";
     "vulnerability"].

Definition SCO_TYPES : gset string :=
  list_to_set
    ["artifact"; "autonomous-system"; "directory"; "domain-name";
     "email-addr"; "email-message"; "file"; "ipv4-addr"; "ipv6-addr";
     "mac-addr"; "mutex"; "network-traffic"; "process"; "software"; "url";
     "user-account"; "windows-registry-key"; "x509-certificate"].

Definition SKIP_TYPES : gset string :=
  list_to_set ["marking-definition"; "language-content"].

Definition CUSTOM_SDO_PREFIXES : list string := ["x-mitre-"].

(** [for prefix in prefixes: if obj_type.startswith(prefix): return True]
    and [return False] after the loop. *)
Fixpoint startswith_any (obj_type : json) (prefixes : list string)
    : outcome bool :=
  match prefixes with
  | [] => Return false
  | prefix :: prefixes' =>
      b ← startswith obj_type prefix;
      if b : bool then Return true else startswith_any obj_type prefixes'
  end.

Definition is_sdo (obj : dict) : outcome bool :=
  let obj_type := get_or obj "type" (JStr EmptyString) in
  b ← in_frozenset obj_type SDO_TYPES;
  if b : bool then Return true
  else startswith_any obj_type CUSTOM_SDO_PREFIXES.

Definition is_sco (obj : dict) : outcome bool :=
  in_frozenset (get_or obj "type" (JStr EmptyString)) SCO_TYPES.

Definition is_relationship (obj : dict) : bool :=
  eq_str (get obj "type") "relationship".

Definition is_sighting (obj : dict) : bool :=
  eq_str (get obj "type") "sighting".

Definition is_skippable (obj : dict) : outcome bool :=
  in_frozenset (get_or obj "type" (JStr EmptyString)) SKIP_TYPES.

Section utils.

(** The text Python prints for a list or a dict. *)
Variable repr_container : json → string.

(** The body of the loop over [embedded.items()]: the standalone object of
    one entry, or nothing when the loop goes on to the next entry. *)
Definition embedded_sco (parent_id : json) (entry : string * json)
    : option dict :=
  let '(key, obj) := entry in
  match obj with
  | JDict obj =>
      let obj_type := get_or obj "type" (JStr EmptyString) in
      if negb (truthy obj_type) then None
      else
        let sco :=
          <["id" := JStr (str repr_container parent_id
                          +:+ "--embedded-" +:+ key)]> obj in
        if negb (bool_decide (is_Some (sco !! "type"))) then None
        else Some sco
  | _ => None
  end.

Definition extract_stix20_embedded_scos (observed_data : dict) : list dict :=
  match get_or observed_data "objects" (JDict ∅) with
  | JDict embedded =>
      let parent_id :=
        get_or observed_data "id" (JStr "observed-data--unknown") in
      omap (embedded_sco parent_id) (map_to_list embedded)
  | _ => []
  end.

End utils.

(** ** converter.py *)

Definition _obj_to_attrs (obj : dict) : dict :=
  (λ value,
     match value with
     | JList l => JList l
     | JDict d => JDict d
     | _ => value
     end) <$> obj.

Definition _add_node (obj : dict) : M world unit :=
  node_id ← lift (getitem obj "id");
  let attrs := _obj_to_attrs obj in
  on_graph (nx.add_node node_id attrs).

Definition _add_relationship (obj : dict) : M world unit :=
  let source_ref := get obj "source_ref" in
  let target_ref := get obj "target_ref" in
  if negb (truthy source_ref) || negb (truthy target_ref)
  then logger WARNING MissingRef
  else
    let attrs := _obj_to_attrs obj in
    let attrs := delete "source_ref" attrs in
    let attrs := delete "target_ref" attrs in
    let attrs := delete "type" attrs in
    on_graph (nx.add_edge source_ref target_ref attrs).

Definition edge_tag (relationship_type : string) : dict :=
  {["relationship_type" := JStr relationship_type]}.

Definition _add_sighting (obj : dict) : M world unit :=
  node_id ← lift (getitem obj "id");
  let attrs := _obj_to_attrs obj in
  on_graph (nx.add_node node_id attrs);;
  let sighting_of := get obj "sighting_of_ref" in
  (if truthy sighting_of
   then on_graph (nx.add_edge node_id sighting_of (edge_tag "sighting_of"))
   else mret tt);;
  where_sighted ← lift (iter (get_or obj "where_sighted_refs" (JList [])));
  for_ where_sighted (λ ref,
    on_graph (nx.add_edge node_id ref (edge_tag "seen_by")));;
  observed ← lift (iter (get_or obj "observed_data_refs" (JList [])));
  for_ observed (λ ref,
    on_graph (nx.add_edge node_id ref (edge_tag "observed"))).

Section converter.

Variable repr_container : json → string.

(** The body of [for obj in objects]; [continue] is the end of the body. *)
Definition convert_object (include_scos : bool) (obj : json) : M world unit :=
  match obj with
  | JDict obj =>
      let obj_type := get obj "type" in
      let obj_id := get obj "id" in
      if negb (truthy obj_type) then logger WARNING NoTypeField
      else if negb (truthy obj_id) then
        skippable ← lift (is_skippable obj);
        if negb skippable then logger WARNING NoIdField else mret tt
      else
        skippable ← lift (is_skippable obj);
        if skippable : bool then mret tt
        else if is_relationship obj then _add_relationship obj
        else if is_sighting obj then _add_sighting obj
        else
          sdo ← lift (is_sdo obj);
          if sdo : bool then
            _add_node obj;;
            if eq_str obj_type "observed-data" && include_scos then
              let embedded_scos :=
                extract_stix20_embedded_scos repr_container obj in
              for_ embedded_scos _add_node
            else mret tt
          else
            sco ← lift (is_sco obj);
            if sco : bool then
              if include_scos then _add_node obj else mret tt
            else
              logger DEBUG UnknownObjectType;;
              _add_node obj
  | _ => logger WARNING NonDictObject
  end.

Definition convert_bundle (bundle : json) (include_scos : bool)
    : M world unit :=
  objects ← lift (py_get bundle "objects" (JList []));
  match objects with
  | JList objects => for_ objects (convert_object include_scos)
  | _ => logger WARNING ObjectsNotAList
  end.

(** The loop of [stix_to_graph] over the bundles. *)
Definition convert_bundles (include_scos : bool) (bundles : list json)
    : M world unit :=
  for_ bundles (λ bundle, convert_bundle bundle include_scos).

End converter.

(** ** parsers.py *)

(** [s.endswith(suffix)]. *)
Definition endswith (s suffix : string) : bool :=
  let n := String.length s in
  let m := String.length suffix in
  (m <=? n)%nat && String.eqb (String.substring (n - m) m s) suffix.

(** [[f(x) for x in l]], stopping at the first exception. *)
Fixpoint for_each {S A B} (l : list A) (f : A → M S B) : M S (list B) :=
  match l with
  | [] => mret []
  | x :: l' => y ← f x; ys ← for_each l' f; mret (y :: ys)
  end.

Section environment.

(** The JSON library and the file system: [json.loads] of a text
    ([None] for a [JSONDecodeError]), [json.load] of the file at a path,
    [os.path.isdir], [os.path.isfile], and the sorted [glob] of the
    [.json] files of a directory. *)
Variable loads : string → option json.
Variable load : string → option json.
Variables isdir isfile : string → bool.
Variable glob_json : string → list string.

Definition _parse_file (file_path : string) : M world json :=
  if negb (isfile file_path) then raise FileNotFoundError
  else match load file_path with
       | None => raise ValueError
       | Some (JDict bundle) => mret (JDict bundle)
       | Some _ => raise ValueError
       end.

Definition _parse_directory (dir_path : string) : M world (list json) :=
  let files := glob_json dir_path in
  match files with
  | [] => logger WARNING NoJsonFiles;; mret []
  | _ => for_each files _parse_file
  end.

Definition _parse_string_source (source : string) : M world (list json) :=
  if isdir source then _parse_directory source
  else if endswith source ".json" || isfile source then
    bundle ← _parse_file source; mret [bundle]
  else raise ValueError.

(** The body of the loop over the JSON strings of a list source. *)
Definition parse_element (s : json) : M world json :=
  match s with
  | JStr s =>
      match loads s with
      | None => raise ValueError
      | Some (JDict bundle) => mret (JDict bundle)
      | Some _ => raise ValueError
      end
  | _ => raise ValueError
  end.

Definition _parse_list_source (source : list json) : M world (list json) :=
  match source with
  | [] => mret []
  | first :: _ =>
      match first with
      | JDict _ => mret source
      | JStr _ => for_each source parse_element
      | _ => raise ValueError
      end
  end.

Definition parse_source (source : json) : M world (list json) :=
  match source with
  | JStr source => _parse_string_source source
  | JList source => _parse_list_source source
  | _ => raise ValueError
  end.

(** ** __init__.py *)

Variable repr_container : json → string.

(** The graph is made, the source parsed and every bundle converted into
    the graph; the caller gets the graph unless something raised. *)
Definition stix_to_graph (source : json) (graph_type : string)
    (include_scos : bool) : M (list (level * message)) nx.graph := λ log,
  let new_graph :=
    if String.eqb graph_type "multidigraph"
    then Return (nx.MultiDiGraph ∅ ∅)
    else if String.eqb graph_type "digraph"
    then Return (nx.DiGraph ∅ ∅)
    else Raise ValueError in
  match new_graph with
  | Raise e => (log, Raise e)
  | Return g =>
      let '(w, r) :=
        (bundles ← parse_source source;
         convert_bundles repr_container include_scos bundles)
          (World g log) in
      (records w,
       match r with Return _ => Return (graph w) | Raise e => Raise e end)
  end.

End environment.

(** ** Notions the properties are stated with *)

(** A computation keeps a relation between the graph it starts from and
    the graph it leaves, whether it returns or raises. *)
Definition preserves (Rg : relation nx.graph) {A} (m : M world A) : Prop :=
  ∀ w, Rg (graph w) (graph (m w).1).

Definition preserves_g (Rg : relation nx.graph) {A} (c : M nx.graph A)
    : Prop :=
  ∀ g, Rg g (c g).1.

(** [grows g g']: [g'] is a graph of the same kind as [g] with every node
    and every edge of [g]. *)
Definition grows (g g' : nx.graph) : Prop :=
  match g, g' with
  | nx.MultiDiGraph nd adj, nx.MultiDiGraph nd' adj' =>
      dom nd ⊆ dom nd' ∧ dom adj ⊆ dom adj'
  | nx.DiGraph nd adj, nx.DiGraph nd' adj' =>
      dom nd ⊆ dom nd' ∧ dom adj ⊆ dom adj'
  | _, _ => False
  end.

(** Every node with an [id] attribute is keyed by it. *)
Definition coherent (g : nx.graph) : Prop :=
  ∀ k attrs v,
    nx.nodes g !! k = Some attrs → attrs !! "id" = Some v → key_of v = Some k.

Definition keeps_coherent (g g' : nx.graph) : Prop := coherent g → coherent g'.

(** [inserted adj new adj']: the edge table [adj'] of a multigraph is
    [adj] and the edges [new], each under a key of its own that [adj] did
    not have. *)
Definition inserted (adj : gmap (pykey * pykey * pykey) dict)
    (new : list (pykey * pykey * pykey * dict))
    (adj' : gmap (pykey * pykey * pykey) dict) : Prop :=
  adj' = list_to_map new ∪ adj ∧ NoDup new.*1 ∧
  ∀ e, e ∈ new.*1 → adj !! e = None.

(** Source, target and attributes of an edge of a multigraph. *)
Definition endpoints (e : pykey * pykey * pykey * dict)
    : pykey * pykey * dict :=
  (e.1.1.1, e.1.1.2, e.2).

(** The classification of the design document: the six classes, tried in
    this order on the declared type. *)
Inductive classification : Type :=
  | skippable
  | relationship
  | sighting
  | domain_object
  | observable_object
  | unknown.

Definition classify (obj_type : string) : classification :=
  if bool_decide (obj_type ∈ SKIP_TYPES) then skippable
  else if String.eqb obj_type "relationship" then relationship
  else if String.eqb obj_type "sighting" then sighting
  else if bool_decide (obj_type ∈ SDO_TYPES)
          || String.prefix "x-mitre-" obj_type then domain_object
  else if bool_decide (obj_type ∈ SCO_TYPES) then observable_object
  else unknown.

(** What the design document has the materializer do with an object of
    each class (rules 4 to 9). *)
Definition materialize (repr_container : json → string)
    (include_scos : bool) (c : classification) (obj : dict) : M world unit :=
  match c with
  | skippable => mret tt
  | relationship => _add_relationship obj
  | sighting => _add_sighting obj
  | domain_object =>
      _add_node obj;;
      if eq_str (get obj "type") "observed-data" && include_scos
      then for_ (extract_stix20_embedded_scos repr_container obj) _add_node
      else mret tt
  | observable_object => if include_scos then _add_node obj else mret tt
  | unknown => logger DEBUG UnknownObjectType;; _add_node obj
  end.

(** The attributes [_add_relationship] gives the edge of a relationship:
    its fields but the two references and the type. *)
Definition edge_attrs (obj : dict) : dict :=
  delete "type" (delete "target_ref" (delete "source_ref" obj)).

(** A reference field that is missing or the empty string. *)
Definition missing_or_empty (obj : dict) (field : string) : Prop :=
  obj !! field = None ∨ obj !! field = Some (JStr EmptyString).

(** A relationship from [s] to [t]. *)
Definition between (s t : string) (obj : dict) : Prop :=
  obj !! "source_ref" = Some (JStr s) ∧ obj !! "target_ref" = Some (JStr t).

(** The identifiers an object can write node attributes under: its own
    and those of the observables embedded in it. *)
Definition written_ids (repr_container : json → string) (o : json)
    : list json :=
  match o with
  | JDict obj =>
      get obj "id"
      :: ((λ sco : dict, get sco "id")
            <$> extract_stix20_embedded_scos repr_container obj)
  | _ => []
  end.

(** The node [X] has the same attributes in [g'] as in [g] (none when it
    is not a node). *)
Definition same_attrs (X : pykey) (g g' : nx.graph) : Prop :=
  default ∅ (nx.nodes g' !! X) = default ∅ (nx.nodes g !! X).

(** The classes whose objects are added as nodes. *)
Definition becomes_node (include_scos : bool) (c : classification) : bool :=
  match c with
  | sighting | domain_object | unknown => true
  | observable_object => include_scos
  | skippable | relationship => false
  end.

(** What [_add_sighting] does after it has added the node. *)
Definition sighting_edges (node_id : json) (obj : dict) : M world unit :=
  let sighting_of := get obj "sighting_of_ref" in
  (if truthy sighting_of
   then on_graph (nx.add_edge node_id sighting_of (edge_tag "sighting_of"))
   else mret tt);;
  where_sighted ← lift (iter (get_or obj "where_sighted_refs" (JList [])));
  for_ where_sighted (λ ref,
    on_graph (nx.add_edge node_id ref (edge_tag "seen_by")));;
  observed ← lift (iter (get_or obj "observed_data_refs" (JList [])));
  for_ observed (λ ref,
    on_graph (nx.add_edge node_id ref (edge_tag "observed"))).

(** A reference field that is missing or a list of the strings [rs]. *)
Definition refs (obj : dict) (field : string) (rs : list string) : Prop :=
  get_or obj field (JList []) = JList (JStr <$> rs).

(** The edges [_add_sighting] asks for, in order, each as its target and
    its relationship type: one to the sighted object when
    [sighting_of_ref] is a non-empty string, one to each of [ws], one to
    each of [os]. *)
Definition sighting_calls (obj : dict) (ws os : list string)
    : list (string * string) :=
  match get obj "sighting_of_ref" with
  | JStr t => if String.eqb t EmptyString then [] else [(t, "sighting_of")]
  | _ => []
  end
  ++ ((λ r, (r, "seen_by")) <$> ws) ++ ((λ r, (r, "observed")) <$> os).

(** One call of [add_edge] from the node [n]. *)
Definition edge_call (n : json) (c : string * string) : M world unit :=
  on_graph (nx.add_edge n (JStr c.1) (edge_tag c.2)).

(** Reading a graph: the attributes of the edge of a pair in a simple
    graph, of a keyed edge in a multigraph, one attribute of a dict that
    may not be there, and the number of edges. *)
Definition simple_edge (g : nx.graph) (u v : pykey) : option dict :=
  match g with
  | nx.DiGraph _ adj => adj !! (u, v)
  | nx.MultiDiGraph _ _ => None
  end.

Definition keyed_edge (g : nx.graph) (u v key : pykey) : option dict :=
  match g with
  | nx.MultiDiGraph _ adj => adj !! (u, v, key)
  | nx.DiGraph _ _ => None
  end.

Definition attribute (attrs : option dict) (field : string) : option json :=
  attrs ≫= λ d, d !! field.

Definition number_of_edges (g : nx.graph) : nat :=
  match g with
  | nx.MultiDiGraph _ adj => size adj
  | nx.DiGraph _ adj => size adj
  end.

(** A computation appends at most [n] records to the log and leaves the
    records that were there as they were. *)
Definition appends (n : nat) {A} (m : M world A) : Prop :=
  ∀ w, ∃ l, records (m w).1 = records w ++ l ∧ length l ≤ n.

(** A computation that returns from every state. *)
Definition returns {A} (m : M world A) : Prop :=
  ∀ w, ∃ a, (m w).2 = Return a.

(** A declared type that is there, is not a string and is not false:
    a number other than zero, [True], a list or a dict that is not empty. *)
Definition odd_type (v : json) : Prop :=
  truthy v = true ∧ ∀ s, v ≠ JStr s.

(** The names an object must not use for a field if it is to reach the
    graph: the parameters of [add_node] and of the two [add_edge]. *)
Definition reserved : list string :=
  ["self"; "node_for_adding"; "u_of_edge"; "v_of_edge"; "u_for_edge";
   "v_for_edge"; "key"].

Definition plain (obj : dict) : Prop :=
  Forall (λ p, obj !! p = None) reserved.

Definition str_or_missing (obj : dict) (field : string) : Prop :=
  obj !! field = None ∨ ∃ s, obj !! field = Some (JStr s).

(** An object as STIX types it, as far as the converter looks: a dict
    whose [type], [id] and single references are strings where they are
    there, whose reference lists are lists of strings, with no field named
    like a parameter of the graph methods, in it or in an observable
    embedded in it.  What is not a dict is skipped and counts as well
    typed. *)
Definition well_typed (o : json) : Prop :=
  match o with
  | JDict obj =>
      plain obj ∧
      str_or_missing obj "type" ∧ str_or_missing obj "id" ∧
      str_or_missing obj "source_ref" ∧ str_or_missing obj "target_ref" ∧
      str_or_missing obj "sighting_of_ref" ∧
      (∃ ws, refs obj "where_sighted_refs" ws) ∧
      (∃ os, refs obj "observed_data_refs" os) ∧
      (∀ (emb : dict) K (V : dict),
         obj !! "objects" = Some (JDict emb) → emb !! K = Some (JDict V) →
         V !! "self" = None ∧ V !! "node_for_adding" = None)
  | _ => True
  end.


(** A value [for] cannot iterate over: [None], a boolean or a number. *)
Definition not_iterable (v : json) : Prop :=
  match v with
  | JNull | JBool _ | JNum _ => True
  | JStr _ | JList _ | JDict _ => False
  end.

(** Two graphs of the same kind with the same edges: the same sources,
    targets and keys with the same attributes. *)
Definition same_edges (g g' : nx.graph) : Prop :=
  match g, g' with
  | nx.MultiDiGraph _ adj, nx.MultiDiGraph _ adj' => adj = adj'
  | nx.DiGraph _ adj, nx.DiGraph _ adj' => adj = adj'
  | _, _ => False
  end.

(** A dict that is neither a relationship nor a sighting, or a value that
    is no dict. *)
Definition links_nothing (o : json) : Prop :=
  match o with
  | JDict obj => is_relationship obj = false ∧ is_sighting obj = false
  | _ => True
  end.

(** What a [for] loop over a value runs through, nothing when the value
    cannot be iterated. *)
Definition iterated (v : json) : list json :=
  match iter v with Return l => l | Raise _ => [] end.

(** The values an object names something by: its identifier, its
    references, and the identifiers made for what is embedded in it. *)
Definition mentions (repr_container : json → string) (o : json)
    : list json :=
  match o with
  | JDict obj =>
      [get obj "id"; get obj "source_ref"; get obj "target_ref";
       get obj "sighting_of_ref"]
      ++ iterated (get_or obj "where_sighted_refs" (JList []))
      ++ iterated (get_or obj "observed_data_refs" (JList []))
      ++ ((λ sco : dict, get sco "id")
            <$> extract_stix20_embedded_scos repr_container obj)
  | _ => []
  end.

(** The node keys of the values [vs]. *)
Definition keys_of (vs : list json) : gset pykey :=
  list_to_set (omap key_of vs).

(** [within K g g']: every node of [g'] is a node of [g] or has its key
    in [K]. *)
Definition within (K : gset pykey) (g g' : nx.graph) : Prop :=
  dom (nx.nodes g') ⊆ dom (nx.nodes g) ∪ K.

(** The objects of a bundle, as [convert_bundle] reads them. *)
Definition objects_of (bundle : json) : list json :=
  match bundle with
  | JDict b =>
      match get_or b "objects" (JList []) with
      | JList objects => objects
      | _ => []
      end
  | _ => []
  end.

(** [adds_nodes_only g g']: [g'] is a graph of the kind of [g] with the
    same edges and at least the nodes of [g]. *)
Definition adds_nodes_only (g g' : nx.graph) : Prop :=
  match g, g' with
  | nx.MultiDiGraph nd adj, nx.MultiDiGraph nd' adj' =>
      dom nd ⊆ dom nd' ∧ adj = adj'
  | nx.DiGraph nd adj, nx.DiGraph nd' adj' => dom nd ⊆ dom nd' ∧ adj = adj'
  | _, _ => False
  end.

(** Two states of two runs that are compared: the same log, and graphs
    that differ by nodes the second has and the first has not. *)
Definition alike (w w' : world) : Prop :=
  adds_nodes_only (graph w) (graph w') ∧ records w = records w'.

(** [follows m m']: from states that are alike, whenever [m'] returns, [m]
    returns the same value and leaves states that are alike again. *)
Definition follows {A} (m m' : M world A) : Prop :=
  ∀ w w', alike w w' → ∀ w1' a, m' w' = (w1', Return a) →
    ∃ w1, m w = (w1, Return a) ∧ alike w1 w1'.

Definition follows_g {A} (c c' : M nx.graph A) : Prop :=
  ∀ g g', adds_nodes_only g g' → ∀ g1' a, c' g' = (g1', Return a) →
    ∃ g1, c g = (g1, Return a) ∧ adds_nodes_only g1 g1'.

(** A bundle as it should be: a dict whose [objects] field, when it is
    there, is a list. *)
Definition has_object_list (bundle : json) : Prop :=
  match bundle with
  | JDict b =>
      match b !! "objects" with
      | None | Some (JList _) => True
      | Some _ => False
      end
  | _ => False
  end.

(** [laid_over N m]: the table [m] after, for each key of [N], the dict
    [N] has for it has been laid over the dict [m] has for it (over the
    empty dict when [m] has none). *)
Definition laid_over `{Countable K} (N m : gmap K dict) : gmap K dict :=
  merge (λ a x, match a with
                | Some A => Some (A ∪ default ∅ x)
                | None => x
                end) N m.

(** A computation that does to every simple graph the same thing, which is
    to lay dicts over its two tables, that logs the same records and that
    ends the same way, whatever the graph and the log are. *)
Definition uniform {A} (m : M world A) : Prop :=
  ∃ (N : gmap pykey dict) (E : gmap (pykey * pykey) dict)
    (l : list (level * message)) (r : outcome A),
    ∀ nd adj log,
      m (World (nx.DiGraph nd adj) log) =
        (World (nx.DiGraph (laid_over N nd) (laid_over E adj)) (log ++ l), r).

(** [fields_kept_in m m']: every key of the table [m] is a key of [m'],
    and the dict [m'] has for it has every field the dict of [m] has. *)
Definition fields_kept_in `{Countable K} (m m' : gmap K dict) : Prop :=
  ∀ k a, m !! k = Some a → ∃ a', m' !! k = Some a' ∧ dom a ⊆ dom a'.

(** [fields_kept g g']: [g'] is of the kind of [g], and every node and
    every edge of [g] is in [g'] with at least the attributes it has in
    [g], whatever their values. *)
Definition fields_kept (g g' : nx.graph) : Prop :=
  match g, g' with
  | nx.MultiDiGraph nd adj, nx.MultiDiGraph nd' adj' =>
      fields_kept_in nd nd' ∧ fields_kept_in adj adj'
  | nx.DiGraph nd adj, nx.DiGraph nd' adj' =>
      fields_kept_in nd nd' ∧ fields_kept_in adj adj'
  | _, _ => False
  end.

(** [edges_kept g g']: when [g] is a multigraph, so is [g'], and its
    edge table is that of [g] and new edges, each under a key of its own
    that [g] did not have: every edge of [g] is in [g'] under its key
    with exactly the attributes it has in [g]. *)
Definition edges_kept (g g' : nx.graph) : Prop :=
  match g, g' with
  | nx.MultiDiGraph _ adj, nx.MultiDiGraph _ adj' =>
      ∃ new, inserted adj new adj'
  | nx.DiGraph _ _, nx.DiGraph _ _ => True
  | _, _ => False
  end.


(** * Properties *)

Lemma _obj_to_attrs_id obj : _obj_to_attrs obj = obj.
Proof.
  unfold _obj_to_attrs. rewrite <- (map_fmap_id obj) at 2.
  apply map_fmap_ext. by intros ? [] ?.
Qed.

(** ** Relations every step of a conversion keeps *)
Section preserves.

Context (Rg : relation nx.graph) `{!PreOrder Rg}.

Local Abbreviation preserves := (preserves Rg).
Local Abbreviation preserves_g := (preserves_g Rg).

Lemma preserves_ret {A} (a : A) : preserves (mret a).
Proof. intros w. reflexivity. Qed.

Lemma preserves_raise {A} e : preserves (@raise world A e).
Proof. intros w. reflexivity. Qed.

Lemma preserves_lift {A} (o : outcome A) : preserves (lift o).
Proof. intros w. reflexivity. Qed.

Lemma preserves_logger l m : preserves (logger l m).
Proof. intros w. reflexivity. Qed.

Lemma preserves_bind {A B} (m : M world A) (f : A → M world B) :
  preserves m → (∀ a, preserves (f a)) → preserves (m ≫= f).
Proof.
  intros Hm Hf w. unfold mbind, M_bind. specialize (Hm w).
  destruct (m w) as [w' [a|e]]; simpl in *; [|done].
  etrans; [exact Hm|apply Hf].
Qed.

Lemma preserves_lift_bind {A B} (o : outcome A) (f : A → M world B) :
  (∀ a, o = Return a → preserves (f a)) → preserves (lift o ≫= f).
Proof.
  intros Hf w. unfold mbind, M_bind, lift. destruct o; simpl; [|done].
  by apply Hf.
Qed.

Lemma preserves_on_graph {A} (c : M nx.graph A) :
  preserves_g c → preserves (on_graph c).
Proof.
  intros Hc w. unfold on_graph. specialize (Hc (graph w)).
  by destruct (c (graph w)).
Qed.

Lemma preserves_for {A} (l : list A) (body : A → M world unit) :
  Forall (λ x, preserves (body x)) l → preserves (for_ l body).
Proof.
  induction 1 as [|x l Hx _ IH]; simpl.
  - apply preserves_ret.
  - by apply preserves_bind.
Qed.

Lemma preserves_if {A} (b : bool) (m1 m2 : M world A) :
  preserves m1 → preserves m2 → preserves (if b then m1 else m2).
Proof. by destruct b. Qed.

Lemma _add_node_preserves obj :
  (∀ n, obj !! "id" = Some n → preserves_g (nx.add_node n obj)) →
  preserves (_add_node obj).
Proof.
  intros H. unfold _add_node. rewrite _obj_to_attrs_id.
  apply preserves_lift_bind. intros n Hn. apply preserves_on_graph, H.
  unfold getitem in Hn. by destruct (obj !! "id"); simplify_eq.
Qed.

Lemma _add_relationship_preserves obj :
  (∀ u v attr, preserves_g (nx.add_edge u v attr)) →
  preserves (_add_relationship obj).
Proof.
  intros H. unfold _add_relationship.
  apply preserves_if; [apply preserves_logger|].
  apply preserves_on_graph, H.
Qed.

Lemma _add_sighting_preserves obj :
  (∀ n, obj !! "id" = Some n → preserves_g (nx.add_node n obj)) →
  (∀ u v attr, preserves_g (nx.add_edge u v attr)) →
  preserves (_add_sighting obj).
Proof.
  intros Hn He. unfold _add_sighting. rewrite _obj_to_attrs_id.
  apply preserves_lift_bind. intros n Hid.
  apply preserves_bind.
  { apply preserves_on_graph, Hn.
    unfold getitem in Hid. by destruct (obj !! "id"); simplify_eq. }
  intros _.
  apply preserves_bind.
  { apply preserves_if; [apply preserves_on_graph, He|apply preserves_ret]. }
  intros _. apply preserves_bind; [apply preserves_lift|intros ws].
  apply preserves_bind.
  { apply preserves_for, Forall_forall. intros; apply preserves_on_graph, He. }
  intros _. apply preserves_bind; [apply preserves_lift|intros os].
  apply preserves_for, Forall_forall. intros; apply preserves_on_graph, He.
Qed.

Lemma convert_object_preserves rc inc (o : json) :
  (∀ obj, o = JDict obj →
     preserves (_add_node obj) ∧ preserves (_add_relationship obj) ∧
     preserves (_add_sighting obj) ∧
     Forall (λ sco, preserves (_add_node sco))
       (extract_stix20_embedded_scos rc obj)) →
  preserves (convert_object rc inc o).
Proof.
  intros H. destruct o as [| | | | |obj]; try apply preserves_logger.
  destruct (H obj eq_refl) as (Hn & Hr & Hs & Hx). unfold convert_object.
  apply preserves_if; [apply preserves_logger|].
  apply preserves_if.
  { apply preserves_bind; [apply preserves_lift|intros sk].
    apply preserves_if; [apply preserves_logger|apply preserves_ret]. }
  apply preserves_bind; [apply preserves_lift|intros sk].
  apply preserves_if; [apply preserves_ret|].
  apply preserves_if; [done|]. apply preserves_if; [done|].
  apply preserves_bind; [apply preserves_lift|intros sdo].
  apply preserves_if.
  { apply preserves_bind; [done|intros _].
    apply preserves_if; [by apply preserves_for|apply preserves_ret]. }
  apply preserves_bind; [apply preserves_lift|intros sco].
  apply preserves_if.
  { apply preserves_if; [done|apply preserves_ret]. }
  apply preserves_bind; [apply preserves_logger|done].
Qed.

Lemma convert_bundle_preserves rc inc (bundle : json) :
  (∀ o, preserves (convert_object rc inc o)) →
  preserves (convert_bundle rc bundle inc).
Proof.
  intros H. unfold convert_bundle.
  apply preserves_bind; [apply preserves_lift|intros objects].
  destruct objects; try apply preserves_logger.
  apply preserves_for, Forall_forall. intros; apply H.
Qed.

End preserves.

(** ** What the graph methods do to the two tables *)

Lemma nodes_set_nodes nd g : nx.nodes (nx.set_nodes nd g) = nd.
Proof. by destruct g. Qed.

Lemma add_node_shape n attr g :
  (nx.add_node n attr g).1 = g ∨
  ∃ k, nx.as_node n = Return k ∧
    (nx.add_node n attr g).1 =
      nx.set_nodes (nx.update_at k attr (nx.nodes g)) g.
Proof.
  unfold nx.add_node. destruct (nx.clashes _ _); [by left|].
  destruct (nx.as_node n) as [k|e]; [|by left].
  right. by exists k.
Qed.

Lemma add_edge_shape u v attr g :
  ∃ ks : list pykey,
    match g with
    | nx.MultiDiGraph nd adj =>
        (nx.add_edge u v attr g).1 = nx.MultiDiGraph (foldr nx.touch nd ks) adj ∨
        ∃ e a, (nx.add_edge u v attr g).1 =
               nx.MultiDiGraph (foldr nx.touch nd ks) (nx.update_at e a adj)
    | nx.DiGraph nd adj =>
        (nx.add_edge u v attr g).1 = nx.DiGraph (foldr nx.touch nd ks) adj ∨
        ∃ e a, (nx.add_edge u v attr g).1 =
               nx.DiGraph (foldr nx.touch nd ks) (nx.update_at e a adj)
    end.
Proof.
  destruct g as [nd adj|nd adj]; unfold nx.add_edge.
  - destruct (nx.clashes _ _); [exists []; by left|].
    destruct (nx.as_node u) as [ku|]; [|exists []; by left].
    destruct (nx.as_node v) as [kv|]; [|exists [ku]; by left].
    exists [kv; ku].
    destruct (get attr "key"); simpl; eauto;
      destruct (key_of _); simpl; eauto.
  - destruct (nx.clashes _ _); [exists []; by left|].
    destruct (nx.as_node u) as [ku|]; [|exists []; by left].
    destruct (nx.as_node v) as [kv|]; [|exists [ku]; by left].
    exists [kv; ku]. eauto.
Qed.

Lemma dom_touch k (nd : gmap pykey dict) : dom nd ⊆ dom (nx.touch k nd).
Proof. unfold nx.touch. destruct (nd !! k); set_solver. Qed.

Lemma dom_touches ks (nd : gmap pykey dict) : dom nd ⊆ dom (foldr nx.touch nd ks).
Proof.
  induction ks as [|k ks IH]; simpl; [done|].
  etrans; [exact IH|apply dom_touch].
Qed.

Lemma dom_update_at `{Countable K} (k : K) attr (m : gmap K dict) :
  dom m ⊆ dom (nx.update_at k attr m).
Proof. unfold nx.update_at. set_solver. Qed.

(** ** Nothing is deleted *)

Global Instance grows_preorder : PreOrder grows.
Proof.
  split.
  - by intros [].
  - intros [] [] []; simpl; try done; intros [] []; split; by etrans.
Qed.

Lemma add_node_grows n attr : preserves_g grows (nx.add_node n attr).
Proof.
  intros g. destruct (add_node_shape n attr g) as [->|(k & _ & Hk)]; [done|].
  rewrite Hk. destruct g; split; try done; apply dom_update_at.
Qed.

Lemma add_edge_grows u v attr : preserves_g grows (nx.add_edge u v attr).
Proof.
  intros g. destruct (add_edge_shape u v attr g) as [ks Hk].
  destruct g; destruct Hk as [->|(e & a & ->)]; split;
    auto using dom_touches, dom_update_at.
Qed.

Lemma convert_object_grows rc inc o :
  preserves grows (convert_object rc inc o).
Proof.
  apply convert_object_preserves; [apply _|]. intros obj _.
  repeat split.
  - apply _add_node_preserves; [apply _|]. intros; apply add_node_grows.
  - apply _add_relationship_preserves; [apply _|]. intros; apply add_edge_grows.
  - apply _add_sighting_preserves; [apply _| |]; intros;
      [apply add_node_grows|apply add_edge_grows].
  - apply Forall_forall. intros sco _.
    apply _add_node_preserves; [apply _|]. intros; apply add_node_grows.
Qed.

Lemma convert_bundle_grows rc bundle inc :
  preserves grows (convert_bundle rc bundle inc).
Proof.
  apply convert_bundle_preserves; [apply _|]. intros; apply convert_object_grows.
Qed.

(** ** Node keys and identifiers *)

Global Instance keeps_coherent_preorder : PreOrder keeps_coherent.
Proof. split; unfold keeps_coherent; [by intros ?|intros ???; auto]. Qed.

Lemma as_node_key_of n k : nx.as_node n = Return k → key_of n = Some k.
Proof. destruct n; simpl; intros; by simplify_eq. Qed.

Lemma add_edge_nodes u v attr g :
  ∃ ks, nx.nodes (nx.add_edge u v attr g).1 = foldr nx.touch (nx.nodes g) ks.
Proof.
  destruct (add_edge_shape u v attr g) as [ks Hk]. exists ks.
  destruct g; destruct Hk as [->|(e & a & ->)]; done.
Qed.

Lemma lookup_touch k k' (nd : gmap pykey dict) attrs :
  nx.touch k nd !! k' = Some attrs → nd !! k' = Some attrs ∨ attrs = ∅.
Proof.
  unfold nx.touch. destruct (nd !! k) eqn:Hk; [by left|].
  destruct (decide (k = k')) as [->|].
  - rewrite lookup_insert_eq. intros [= <-]. by right.
  - rewrite lookup_insert_ne by done. by left.
Qed.

Lemma lookup_touches ks k' (nd : gmap pykey dict) attrs :
  foldr nx.touch nd ks !! k' = Some attrs → nd !! k' = Some attrs ∨ attrs = ∅.
Proof.
  induction ks as [|k ks IH]; simpl; [by left|].
  intros [H| ->]%lookup_touch; [by apply IH|by right].
Qed.

Lemma add_edge_coherent u v attr :
  preserves_g keeps_coherent (nx.add_edge u v attr).
Proof.
  intros g Hg k attrs x. destruct (add_edge_nodes u v attr g) as [ks ->].
  intros [H| ->]%lookup_touches; [by apply Hg|done].
Qed.

Lemma add_node_coherent n (obj : dict) :
  obj !! "id" = Some n → preserves_g keeps_coherent (nx.add_node n obj).
Proof.
  intros Hid g Hg k attrs x.
  destruct (add_node_shape n obj g) as [->|(k' & Hk' & Hs)]; [by apply Hg|].
  rewrite Hs, nodes_set_nodes.
  unfold nx.update_at. destruct (decide (k' = k)) as [->|].
  - rewrite lookup_insert_eq. intros [= <-].
    rewrite (lookup_union_Some_l _ _ _ _ Hid). intros [= <-].
    by apply as_node_key_of.
  - rewrite lookup_insert_ne by done. apply Hg.
Qed.

Lemma convert_object_coherent rc inc o :
  preserves keeps_coherent (convert_object rc inc o).
Proof.
  apply convert_object_preserves; [apply _|]. intros obj _.
  repeat split.
  - apply _add_node_preserves; [apply _|]. intros; by apply add_node_coherent.
  - apply _add_relationship_preserves; [apply _|].
    intros; apply add_edge_coherent.
  - apply _add_sighting_preserves; [apply _| |]; intros;
      [by apply add_node_coherent|apply add_edge_coherent].
  - apply Forall_forall. intros sco _.
    apply _add_node_preserves; [apply _|]. intros; by apply add_node_coherent.
Qed.

Lemma convert_bundle_coherent rc bundle inc :
  preserves keeps_coherent (convert_bundle rc bundle inc).
Proof.
  apply convert_bundle_preserves; [apply _|].
  intros; apply convert_object_coherent.
Qed.

(** ** A new edge key is a key no edge between the two nodes has *)

Lemma probe_cases adj u v fuel key :
  (∀ i : nat, i < fuel →
     is_Some (adj !! (u, v, KNum (key + Z.of_nat i)))) ∨
  adj !! (u, v, KNum (nx.probe adj u v fuel key)) = None.
Proof.
  revert key. induction fuel as [|fuel IH]; intros key; simpl.
  - left. lia.
  - destruct (decide (is_Some (adj !! (u, v, KNum key)))) as [Hk|Hk].
    + destruct (IH (key + 1)%Z) as [H|H]; [left|by right].
      intros [|i] Hi.
      * by rewrite Z.add_0_r.
      * replace (key + Z.of_nat (S i))%Z with (key + 1 + Z.of_nat i)%Z by lia.
        apply H. lia.
    + right. by apply eq_None_not_Some.
Qed.

Lemma keydict_full adj u v (key : Z) (n : nat) :
  (∀ i : nat, i < n → is_Some (adj !! (u, v, KNum (key + Z.of_nat i)))) →
  n ≤ size (nx.keydict adj u v).
Proof.
  intros H.
  set (l := (λ i : nat, (u, v, KNum (key + Z.of_nat i))) <$> seq 0 n).
  assert (NoDup l) as Hnd.
  { apply NoDup_fmap_2; [|apply NoDup_seq]. intros i j [=]. lia. }
  assert (l ⊆+ (map_to_list (nx.keydict adj u v)).*1) as Hsub.
  { apply NoDup_submseteq; [done|]. intros e [i [-> Hi]]%list_elem_of_fmap.
    apply elem_of_seq in Hi. destruct (H i) as [a Ha]; [lia|].
    apply list_elem_of_fmap. exists ((u, v, KNum (key + Z.of_nat i)), a).
    split; [done|]. apply elem_of_map_to_list.
    unfold nx.keydict. by apply map_lookup_filter_Some. }
  apply submseteq_length in Hsub. unfold l in Hsub.
  rewrite !length_fmap, length_seq, length_map_to_list in Hsub. done.
Qed.

Lemma new_edge_key_fresh adj u v :
  adj !! (u, v, KNum (nx.new_edge_key adj u v)) = None.
Proof.
  unfold nx.new_edge_key.
  destruct (probe_cases adj u v (S (size (nx.keydict adj u v)))
              (Z.of_nat (size (nx.keydict adj u v)))) as [H|H]; [|done].
  apply keydict_full in H. lia.
Qed.

(** ** The graph methods on arguments they accept *)

Lemma update_at_fresh `{Countable K} (k : K) attr (m : gmap K dict) :
  m !! k = None → nx.update_at k attr m = <[k := attr]> m.
Proof.
  intros Hk. unfold nx.update_at. rewrite Hk. simpl.
  by rewrite (right_id_L ∅ (∪)).
Qed.

Lemma add_node_ok n k attr g :
  nx.clashes ["self"; "node_for_adding"] attr = false →
  nx.as_node n = Return k →
  nx.add_node n attr g =
    (nx.set_nodes (nx.update_at k attr (nx.nodes g)) g, Return tt).
Proof. intros Hc Hk. unfold nx.add_node. by rewrite Hc, Hk. Qed.

Lemma add_edge_multi u v ku kv attr nd adj :
  nx.clashes ["self"; "u_for_edge"; "v_for_edge"] attr = false →
  attr !! "key" = None →
  nx.as_node u = Return ku → nx.as_node v = Return kv →
  nx.add_edge u v attr (nx.MultiDiGraph nd adj) =
    (nx.MultiDiGraph (nx.touch kv (nx.touch ku nd))
       (<[(ku, kv, KNum (nx.new_edge_key adj ku kv)) := attr]> adj),
     Return tt).
Proof.
  intros Hc Hkey Hu Hv. unfold nx.add_edge, get. rewrite Hc, Hkey, Hu, Hv.
  simpl. rewrite update_at_fresh by apply new_edge_key_fresh.
  by rewrite delete_id.
Qed.

Lemma add_edge_simple u v ku kv attr nd adj :
  nx.clashes ["self"; "u_of_edge"; "v_of_edge"] attr = false →
  nx.as_node u = Return ku → nx.as_node v = Return kv →
  nx.add_edge u v attr (nx.DiGraph nd adj) =
    (nx.DiGraph (nx.touch kv (nx.touch ku nd))
       (nx.update_at (ku, kv) attr adj),
     Return tt).
Proof. intros Hc Hu Hv. unfold nx.add_edge. by rewrite Hc, Hu, Hv. Qed.

(** ** Edges added to a multigraph *)

Lemma inserted_nil adj : inserted adj [] adj.
Proof.
  split; [|split].
  - simpl. by rewrite (left_id_L ∅ (∪)).
  - constructor.
  - by intros e ?%elem_of_nil.
Qed.

Lemma inserted_one adj e a : adj !! e = None → inserted adj [(e, a)] (<[e := a]> adj).
Proof.
  intros He. split; [|split].
  - simpl. by rewrite insert_union_singleton_l, insert_empty.
  - simpl. apply NoDup_singleton.
  - simpl. by intros e' ->%list_elem_of_singleton.
Qed.

Lemma inserted_app adj new1 adj1 new2 adj2 :
  inserted adj new1 adj1 → inserted adj1 new2 adj2 →
  inserted adj (new1 ++ new2) adj2.
Proof.
  intros (-> & Hnd1 & Hf1) (-> & Hnd2 & Hf2).
  assert (∀ e, e ∈ new2.*1 → e ∉ new1.*1) as Hdisj.
  { intros e He2 He1. specialize (Hf2 e He2).
    apply lookup_union_None in Hf2 as [Hf2 _].
    by apply not_elem_of_list_to_map in Hf2. }
  split; [|split].
  - rewrite list_to_map_app, (assoc_L (∪)). f_equal.
    apply map_union_comm, map_disjoint_spec. intros e a1 a2 H2 H1.
    apply (Hdisj e).
    + apply list_elem_of_fmap. exists (e, a1). split; [done|].
      by apply elem_of_list_to_map_2.
    + apply list_elem_of_fmap. exists (e, a2). split; [done|].
      by apply elem_of_list_to_map_2.
  - rewrite fmap_app. apply NoDup_app. split; [done|]. split; [|done].
    intros e He1 He2. by apply (Hdisj e).
  - rewrite fmap_app. intros e [He|He]%elem_of_app; [by apply Hf1|].
    specialize (Hf2 e He). by apply lookup_union_None in Hf2 as [_ ?].
Qed.

Lemma inserted_size adj new adj' :
  inserted adj new adj' → size adj' = length new + size adj.
Proof.
  intros (-> & Hnd & Hf). rewrite map_size_disj_union.
  - f_equal. rewrite <- length_map_to_list.
    by rewrite (map_to_list_to_map new Hnd).
  - apply map_disjoint_spec. intros e a1 a2 H1 H2.
    rewrite Hf in H2; [done|]. apply list_elem_of_fmap. exists (e, a1).
    split; [done|]. by apply elem_of_list_to_map_2.
Qed.

Lemma inserted_subseteq adj new adj' : inserted adj new adj' → adj ⊆ adj'.
Proof.
  intros (-> & Hnd & Hf). apply map_union_subseteq_r, map_disjoint_spec.
  intros e a1 a2 H1 H2.
  rewrite Hf in H2; [done|]. apply list_elem_of_fmap. exists (e, a1).
  split; [done|]. by apply elem_of_list_to_map_2.
Qed.

(** ** The type classifier *)




Lemma is_skippable_str (obj : dict) s :
  obj !! "type" = Some (JStr s) →
  is_skippable obj = Return (bool_decide (s ∈ SKIP_TYPES)).
Proof. intros H. unfold is_skippable, get_or. by rewrite H. Qed.

Lemma is_sdo_str (obj : dict) s :
  obj !! "type" = Some (JStr s) →
  is_sdo obj =
    Return (bool_decide (s ∈ SDO_TYPES) || String.prefix "x-mitre-" s).
Proof.
  intros H. unfold is_sdo, get_or. rewrite H. simpl.
  unfold mbind, outcome_bind. case_bool_decide; [done|]. simpl.
  by destruct (String.prefix _ _).
Qed.

Lemma is_sco_str (obj : dict) s :
  obj !! "type" = Some (JStr s) →
  is_sco obj = Return (bool_decide (s ∈ SCO_TYPES)).
Proof. intros H. unfold is_sco, get_or. by rewrite H. Qed.

Lemma convert_object_classified rc inc (obj : dict) s :
  obj !! "type" = Some (JStr s) → s ≠ EmptyString → truthy (get obj "id") = true →
  convert_object rc inc (JDict obj) = materialize rc inc (classify s) obj.
Proof.
  intros Hty Hs Hid. unfold convert_object. rewrite Hid.
  assert (get obj "type" = JStr s) as Hget by (unfold get; by rewrite Hty).
  rewrite Hget. simpl.
  assert (String.eqb s EmptyString = false) as -> by by apply String.eqb_neq.
  simpl. rewrite (is_skippable_str _ _ Hty), (is_sdo_str _ _ Hty),
    (is_sco_str _ _ Hty).
  unfold is_relationship, is_sighting, classify. rewrite Hget. simpl.
  unfold mbind at 1, M_bind at 1, lift at 1.
  destruct (bool_decide (s ∈ SKIP_TYPES)); [done|].
  destruct (String.eqb s "relationship"); [done|].
  destruct (String.eqb s "sighting"); [done|].
  unfold mbind at 1, M_bind at 1, lift at 1.
  destruct (bool_decide (s ∈ SDO_TYPES) || String.prefix "x-mitre-" s).
  { simpl. by rewrite Hget. }
  unfold mbind at 1, M_bind at 1, lift at 1.
  by destruct (bool_decide (s ∈ SCO_TYPES)).
Qed.

Global Instance classification_eq_dec : EqDecision classification.
Proof. solve_decision. Defined.

Lemma _add_node_run (obj : dict) n k w :
  obj !! "id" = Some n → nx.as_node n = Return k →
  nx.clashes ["self"; "node_for_adding"] obj = false →
  _add_node obj w =
    (World (nx.set_nodes (nx.update_at k obj (nx.nodes (graph w))) (graph w))
       (records w), Return tt).
Proof.
  intros Hid Hk Hc. unfold _add_node, getitem. rewrite Hid, _obj_to_attrs_id.
  unfold mbind, M_bind, lift, on_graph. by rewrite (add_node_ok _ _ _ _ Hc Hk).
Qed.




(** ** Source lists *)

Section parse.

Variable loads : string → option json.
Variable load : string → option json.
Variables isdir isfile : string → bool.
Variable glob_json : string → list string.

Lemma for_each_parse_element_raises (l : list json) w :
  (∃ x, x ∈ l ∧ ∀ s, x ≠ JStr s) →
  ∃ w', for_each l (parse_element loads) w = (w', Raise ValueError).
Proof.
  induction l as [|y l IH]; intros (x & Hx & Hns).
  - by apply elem_of_nil in Hx.
  - cbn. unfold mbind, M_bind.
    destruct y as [| | |s| |]; try (eexists; reflexivity).
    cbn. destruct (loads s) as [[]|]; try (eexists; reflexivity).
    cbn. apply elem_of_cons in Hx as [->|Hx]; [by destruct (Hns s)|].
    destruct IH as [w' ->]; [eauto|]. eauto.
Qed.

(** C10: a list source whose first element is a dict is returned whole,
    element for element, whatever the other elements are, and nothing is
    raised; the check for mixed types is run only when the first element
    is a string, and then an element that is not a string raises
    [ValueError]. *)
Theorem parse_source_dict_first_unchecked :
  (∀ (d : dict) (rest : list json) w,
     parse_source loads load isdir isfile glob_json (JList (JDict d :: rest)) w
     = (w, Return (JDict d :: rest))) ∧
  (∀ (s : string) (rest : list json) w,
     (∃ x, x ∈ rest ∧ ∀ t, x ≠ JStr t) →
     ∃ w', parse_source loads load isdir isfile glob_json
             (JList (JStr s :: rest)) w = (w', Raise ValueError)).
Proof.
  split; [done|]. intros s rest w (x & Hx & Hns).
  unfold parse_source, _parse_list_source.
  apply for_each_parse_element_raises. exists x. split; [|done].
  by apply elem_of_cons; right.
Qed.

End parse.

Lemma parse_source_dict_first_unchecked_witness :
  ∃ w', parse_source (λ _, Some (JDict ∅)) (λ _, None) (λ _, false)
          (λ _, false) (λ _, []) (JList [JStr "{}"; JNum 5])
          (World (nx.MultiDiGraph ∅ ∅) []) = (w', Raise ValueError).
Proof.
  apply (parse_source_dict_first_unchecked (λ _, Some (JDict ∅)) (λ _, None)
           (λ _, false) (λ _, false) (λ _, [])).
  exists (JNum 5). split; [|done]. apply list_elem_of_singleton. reflexivity.
Defined.

(** ** Bundles without a list of objects *)

Lemma convert_bundle_absent rc (bundle : dict) inc w :
  bundle !! "objects" = None →
  convert_bundle rc (JDict bundle) inc w = (w, Return tt).
Proof.
  intros H. unfold convert_bundle, py_get, get_or. rewrite H. simpl.
  unfold mbind, M_bind, lift. simpl. reflexivity.
Qed.

Lemma convert_bundle_not_a_list rc (bundle : dict) v inc w :
  bundle !! "objects" = Some v → (∀ l, v ≠ JList l) →
  convert_bundle rc (JDict bundle) inc w =
    (World (graph w) (records w ++ [(WARNING, ObjectsNotAList)]), Return tt).
Proof.
  intros H Hv. unfold convert_bundle, py_get, get_or. rewrite H. simpl.
  unfold mbind, M_bind, lift. destruct v; try done. by destruct (Hv l).
Qed.

(** C6 as the code has it: a bundle whose [objects] field is there and is
    not a list is skipped with one warning: nothing is added to the graph
    and nothing is raised; a bundle without an [objects] field is taken
    as a bundle with no objects: nothing is added, nothing is raised, and
    no warning is logged; in both cases the caller's loop goes on with the
    bundles after it. *)
Theorem convert_bundle_without_object_list rc (bundle : dict) inc w rest :
  (bundle !! "objects" = None →
   convert_bundle rc (JDict bundle) inc w = (w, Return tt) ∧
   convert_bundles rc inc (JDict bundle :: rest) w =
     convert_bundles rc inc rest w) ∧
  (∀ v, bundle !! "objects" = Some v → (∀ l, v ≠ JList l) →
   convert_bundle rc (JDict bundle) inc w =
     (World (graph w) (records w ++ [(WARNING, ObjectsNotAList)]),
      Return tt) ∧
   convert_bundles rc inc (JDict bundle :: rest) w =
     convert_bundles rc inc rest
       (World (graph w) (records w ++ [(WARNING, ObjectsNotAList)]))).
Proof.
  split.
  - intros H. split; [by apply convert_bundle_absent|].
    unfold convert_bundles. simpl. unfold mbind at 1, M_bind at 1.
    by rewrite (convert_bundle_absent _ _ _ _ H).
  - intros v H Hv. split; [by apply (convert_bundle_not_a_list _ _ v)|].
    unfold convert_bundles. simpl. unfold mbind at 1, M_bind at 1.
    by rewrite (convert_bundle_not_a_list _ _ _ _ _ H Hv).
Qed.

Lemma convert_bundle_without_object_list_witness :
  convert_bundle (λ _, EmptyString) (JDict {["objects" := JStr "none"]}) true
    (World (nx.DiGraph ∅ ∅) []) =
  (World (nx.DiGraph ∅ ∅) [(WARNING, ObjectsNotAList)], Return tt).
Proof.
  refine (proj1 (proj2 (convert_bundle_without_object_list (λ _, EmptyString)
           {["objects" := JStr "none"]} true (World (nx.DiGraph ∅ ∅) []) [])
           (JStr "none") _ _)); [by vm_compute|done].
Defined.

(** The counterexample to C6 as it is worded: a bundle with no [objects]
    field is converted without any warning. *)
Lemma convert_bundle_absent_objects_no_warning :
  let w := World (nx.MultiDiGraph ∅ ∅) [] in
  let bundle : dict := {["type" := JStr "bundle"]} in
  bundle !! "objects" = None ∧
  ¬ ∃ m, (WARNING, m) ∈ records (convert_bundle (λ _, EmptyString) (JDict bundle) true w).1.
Proof.
  split; [by vm_compute|]. intros [m Hm].
  vm_compute in Hm. by apply elem_of_nil in Hm.
Qed.

(** ** The observables embedded in a STIX 2.0 observation *)

Lemma embedded_sco_Some rc parent_id K v (sco : dict) :
  embedded_sco rc parent_id (K, v) = Some sco ↔
  ∃ V, v = JDict V ∧ truthy (get_or V "type" (JStr EmptyString)) = true ∧
    sco = <["id" := JStr (str rc parent_id +:+ "--embedded-" +:+ K)]> V.
Proof.
  unfold embedded_sco. split.
  - destruct v as [| | | | |V]; try done.
    destruct (truthy (get_or V "type" (JStr EmptyString))) eqn:Ht; simpl; [|done].
    case_bool_decide; simpl; [|done]. intros [= <-]. by exists V.
  - intros (V & -> & Ht & ->). rewrite Ht. simpl.
    rewrite bool_decide_eq_true_2; [done|].
    rewrite lookup_insert_ne by done.
    unfold get_or in Ht. by destruct (V !! "type").
Qed.

Lemma extract_elem_of rc (observed_data embedded : dict) (sco : dict) :
  observed_data !! "objects" = Some (JDict embedded) →
  sco ∈ extract_stix20_embedded_scos rc observed_data ↔
  ∃ K V, embedded !! K = Some (JDict V) ∧
    truthy (get_or V "type" (JStr EmptyString)) = true ∧
    sco = <["id" := JStr (str rc (get_or observed_data "id"
                                    (JStr "observed-data--unknown"))
                          +:+ "--embedded-" +:+ K)]> V.
Proof.
  intros He. unfold extract_stix20_embedded_scos.
  replace (get_or observed_data "objects" (JDict ∅)) with (JDict embedded)
    by (unfold get_or; by rewrite He).
  rewrite list_elem_of_omap. split.
  - intros ([K v] & Hin & Hs). apply elem_of_map_to_list in Hin.
    apply embedded_sco_Some in Hs as (V & -> & Ht & ->). by exists K, V.
  - intros (K & V & Hin & Ht & ->). exists (K, JDict V). split.
    + by apply elem_of_map_to_list.
    + apply embedded_sco_Some. by exists V.
Qed.

(** C7: for an observation with identifier [P] whose [objects] field is a
    dict, the extractor returns exactly the copies of the entries whose
    value is a dict with a non-empty [type], each with its [id] set to
    [P--embedded-K] for its key [K]; an entry without a [type] gives no
    object; without an [objects] field, or with one that is not a dict,
    the result is empty; and the result is a function of the identifier and
    of the [objects] field alone, so extracting again gives the same
    identifiers. *)
Theorem embedded_scos_extracted rc (observed_data : dict) (P : string) :
  observed_data !! "id" = Some (JStr P) →
  (∀ embedded, observed_data !! "objects" = Some (JDict embedded) →
     (∀ sco, sco ∈ extract_stix20_embedded_scos rc observed_data ↔
        ∃ K V, embedded !! K = Some (JDict V) ∧
          truthy (get_or V "type" (JStr EmptyString)) = true ∧
          sco = <["id" := JStr (P +:+ "--embedded-" +:+ K)]> V) ∧
     (∀ K V, embedded !! K = Some (JDict V) → V !! "type" = None →
        ∀ sco, sco ∈ extract_stix20_embedded_scos rc observed_data →
          sco !! "id" ≠ Some (JStr (P +:+ "--embedded-" +:+ K)))) ∧
  (observed_data !! "objects" = None →
     extract_stix20_embedded_scos rc observed_data = []) ∧
  (∀ v, observed_data !! "objects" = Some v → (∀ d, v ≠ JDict d) →
     extract_stix20_embedded_scos rc observed_data = []) ∧
  (∀ other : dict, other !! "id" = Some (JStr P) →
     other !! "objects" = observed_data !! "objects" →
     extract_stix20_embedded_scos rc other =
     extract_stix20_embedded_scos rc observed_data).
Proof.
  intros Hid.
  assert (get_or observed_data "id" (JStr "observed-data--unknown") = JStr P)
    as Hget by (unfold get_or; by rewrite Hid).
  split; [|split; [|split]].
  - intros embedded He.
    assert (∀ sco, sco ∈ extract_stix20_embedded_scos rc observed_data ↔
        ∃ K V, embedded !! K = Some (JDict V) ∧
          truthy (get_or V "type" (JStr EmptyString)) = true ∧
          sco = <["id" := JStr (P +:+ "--embedded-" +:+ K)]> V) as Hiff.
    { intros sco. rewrite (extract_elem_of rc _ _ sco He), Hget. done. }
    split; [done|]. intros K V HK Hty sco Hin Hsid.
    apply Hiff in Hin as (K' & V' & HK' & Ht & ->).
    rewrite lookup_insert_eq in Hsid. injection Hsid as Hsid.
    apply (inj (String.app P)), (inj (String.app "--embedded-")) in Hsid.
    subst K'. rewrite HK in HK'. injection HK' as <-.
    unfold get_or in Ht. by rewrite Hty in Ht.
  - intros Hn. unfold extract_stix20_embedded_scos, get_or. rewrite Hn. simpl.
    by rewrite map_to_list_empty.
  - intros v Hv Hnd. unfold extract_stix20_embedded_scos, get_or. rewrite Hv.
    simpl. destruct v; try done. by destruct (Hnd d).
  - intros other Hoid Hobj. unfold extract_stix20_embedded_scos, get_or.
    by rewrite Hoid, Hid, Hobj.
Qed.

Lemma embedded_scos_extracted_witness :
  let ip : dict := {["type" := JStr "ipv4-addr"; "value" := JStr "1.2.3.4"]} in
  let observed_data : dict :=
    {["type" := JStr "observed-data"; "id" := JStr "observed-data--X";
      "objects" := JDict {["0" := JDict ip; "1" := JDict ∅]}]} in
  <["id" := JStr "observed-data--X--embedded-0"]> ip
    ∈ extract_stix20_embedded_scos (λ _, EmptyString) observed_data.
Proof.
  intros ip observed_data.
  destruct (embedded_scos_extracted (λ _, EmptyString) observed_data
              "observed-data--X") as [H _]; [vm_compute; reflexivity|].
  destruct (H {["0" := JDict ip; "1" := JDict ∅]}) as [Hiff _];
    [vm_compute; reflexivity|].
  apply Hiff. exists "0", ip.
  split; [vm_compute; reflexivity|]. split; [vm_compute; reflexivity|].
  reflexivity.
Defined.

(** ** Whole sessions *)

Lemma convert_bundles_preserves Rg `{!PreOrder Rg} rc inc bundles :
  (∀ bundle, preserves Rg (convert_bundle rc bundle inc)) →
  preserves Rg (convert_bundles rc inc bundles).
Proof.
  intros H. apply preserves_for; [done|]. apply Forall_forall. intros; apply H.
Qed.

(** C9: converting a bundle deletes nothing: the graph after the call is of
    the kind it was and has every node and every edge it had, whether the
    call returns or raises; so has the graph after any number of bundles. *)
Theorem convert_bundle_never_deletes rc inc :
  (∀ bundle w, grows (graph w) (graph (convert_bundle rc bundle inc w).1)) ∧
  (∀ bundles w, grows (graph w) (graph (convert_bundles rc inc bundles w).1)).
Proof.
  split.
  - intros bundle w. apply convert_bundle_grows.
  - intros bundles w. apply convert_bundles_preserves; [apply _|].
    intros; apply convert_bundle_grows.
Qed.

Section session.

Variable loads : string → option json.
Variable load : string → option json.
Variables isdir isfile : string → bool.
Variable glob_json : string → list string.

Lemma preserves_for_each Rg `{!PreOrder Rg} {A B} (l : list A)
    (f : A → M world B) :
  (∀ x, preserves Rg (f x)) → preserves Rg (for_each l f).
Proof.
  intros Hf. induction l as [|x l IH]; simpl.
  - apply preserves_ret; apply _.
  - apply preserves_bind; [apply _|done|]. intros y.
    apply preserves_bind; [apply _|done|]. intros ys.
    apply preserves_ret; apply _.
Qed.

Local Ltac same_graph :=
  first [apply preserves_raise | apply preserves_ret | apply preserves_logger];
  apply _.

Lemma _parse_file_graph p : preserves eq (_parse_file load isfile p).
Proof.
  unfold _parse_file. destruct (negb (isfile p)); [same_graph|].
  destruct (load p) as [[]|]; simpl; same_graph.
Qed.

Lemma parse_element_graph x : preserves eq (parse_element loads x).
Proof.
  unfold parse_element. destruct x; try same_graph.
  destruct (loads s) as [[]|]; simpl; same_graph.
Qed.

Lemma parse_source_graph source :
  preserves eq (parse_source loads load isdir isfile glob_json source).
Proof.
  destruct source as [| | |s|l|]; try (simpl; same_graph).
  - unfold parse_source, _parse_string_source, _parse_directory.
    destruct (isdir s).
    + destruct (glob_json s) eqn:Hg.
      * apply preserves_bind; [apply _|same_graph|]. intros; same_graph.
      * apply preserves_for_each; [apply _|]. apply _parse_file_graph.
    + destruct (_ || _); [|same_graph].
      apply preserves_bind; [apply _|apply _parse_file_graph|].
      intros; same_graph.
  - unfold parse_source, _parse_list_source.
    destruct l as [|[] l]; try same_graph.
    apply preserves_for_each; [apply _|]. apply parse_element_graph.
Qed.

Lemma coherent_empty_multi : coherent (nx.MultiDiGraph ∅ ∅).
Proof. intros k attrs v H. simpl in H. by rewrite lookup_empty in H. Qed.

Lemma coherent_empty_simple : coherent (nx.DiGraph ∅ ∅).
Proof. intros k attrs v H. simpl in H. by rewrite lookup_empty in H. Qed.

(** C8: a conversion keeps the nodes keyed by their identifiers: if every
    node with an [id] attribute is keyed by it before a sequence of bundles
    is converted, so it is after, whether the sequence ends or raises; and
    the graph [stix_to_graph] returns, built from the empty graph, has
    every node with an [id] attribute keyed by it. *)
Theorem node_keyed_by_id rc inc :
  (∀ bundles w,
     coherent (graph w) →
     coherent (graph (convert_bundles rc inc bundles w).1)) ∧
  (∀ source graph_type log log' g,
     stix_to_graph loads load isdir isfile glob_json rc source graph_type
       inc log = (log', Return g) →
     coherent g).
Proof.
  assert (∀ bundles w, coherent (graph w) →
            coherent (graph (convert_bundles rc inc bundles w).1)) as Hseq.
  { intros bundles w.
    apply (convert_bundles_preserves keeps_coherent rc inc bundles).
    intros; apply convert_bundle_coherent. }
  split; [done|].
  intros source graph_type log log' g. unfold stix_to_graph.
  assert (∀ g0, coherent g0 →
    (let '(w, r) :=
       (parse_source loads load isdir isfile glob_json source
          ≫= λ bundles, convert_bundles rc inc bundles)
         (World g0 log) in
     (records w, match r with Return _ => Return (graph w) | Raise e => Raise e end))
    = (log', Return g) → coherent g) as Hrun.
  { intros g0 Hg0. unfold mbind, M_bind.
    pose proof (parse_source_graph source (World g0 log)) as Hp.
    destruct (parse_source _ _ _ _ _ _ _) as [w1 [bundles|e]]; simpl in Hp;
      [|done].
    pose proof (Hseq bundles w1) as Hc.
    destruct (convert_bundles rc inc bundles w1) as [w2 [[]|e]]; [|done].
    intros [= _ <-]. apply Hc. by rewrite <- Hp. }
  destruct (String.eqb graph_type "multidigraph").
  { apply Hrun, coherent_empty_multi. }
  destruct (String.eqb graph_type "digraph"); [|done].
  apply Hrun, coherent_empty_simple.
Qed.

End session.

Lemma node_keyed_by_id_witness :
  coherent (graph (convert_bundles (λ _, EmptyString) true
    [JDict {["objects" := JList [JDict {["type" := JStr "malware";
                                          "id" := JStr "malware--1"]}]]}]
    (World (nx.MultiDiGraph ∅ ∅) [])).1).
Proof.
  apply (proj1 (node_keyed_by_id (λ _, None) (λ _, None) (λ _, false)
                  (λ _, false) (λ _, []) (λ _, EmptyString) true)).
  intros k attrs v H. by vm_compute in H.
Defined.

(** ** Relationships *)

Lemma truthy_str s : s ≠ EmptyString → truthy (JStr s) = true.
Proof. intros H. simpl. apply negb_true_iff. by apply String.eqb_neq. Qed.

Lemma _add_relationship_attrs (obj : dict) :
  delete "type" (delete "target_ref" (delete "source_ref" (_obj_to_attrs obj)))
  = edge_attrs obj.
Proof. by rewrite _obj_to_attrs_id. Qed.

Lemma edge_attrs_key (obj : dict) : edge_attrs obj !! "key" = obj !! "key".
Proof. unfold edge_attrs. by rewrite !lookup_delete_ne. Qed.

Lemma _add_relationship_run (obj : dict) (s t : string) w :
  obj !! "source_ref" = Some (JStr s) → s ≠ EmptyString →
  obj !! "target_ref" = Some (JStr t) → t ≠ EmptyString →
  _add_relationship obj w =
    on_graph (nx.add_edge (JStr s) (JStr t) (edge_attrs obj)) w.
Proof.
  intros Hs Hs' Ht Ht'.
  assert (get obj "source_ref" = JStr s) as Hgs by (unfold get; by rewrite Hs).
  assert (get obj "target_ref" = JStr t) as Hgt by (unfold get; by rewrite Ht).
  unfold _add_relationship.
  rewrite Hgs, Hgt, (truthy_str s Hs'), (truthy_str t Ht').
  by rewrite _add_relationship_attrs.
Qed.

Lemma _add_relationship_multi (obj : dict) (s t : string) nd adj log :
  obj !! "source_ref" = Some (JStr s) → s ≠ EmptyString →
  obj !! "target_ref" = Some (JStr t) → t ≠ EmptyString →
  nx.clashes ["self"; "u_for_edge"; "v_for_edge"] (edge_attrs obj) = false →
  obj !! "key" = None →
  _add_relationship obj (World (nx.MultiDiGraph nd adj) log) =
    (World (nx.MultiDiGraph (nx.touch (KStr t) (nx.touch (KStr s) nd))
              (<[(KStr s, KStr t, KNum (nx.new_edge_key adj (KStr s) (KStr t)))
                 := edge_attrs obj]> adj)) log,
     Return tt).
Proof.
  intros Hs Hs' Ht Ht' Hc Hk. rewrite (_add_relationship_run obj s t) by done.
  unfold on_graph. simpl graph.
  rewrite (add_edge_multi (JStr s) (JStr t) (KStr s) (KStr t)); try done.
  by rewrite edge_attrs_key.
Qed.

Lemma _add_relationship_simple (obj : dict) (s t : string) nd adj log :
  obj !! "source_ref" = Some (JStr s) → s ≠ EmptyString →
  obj !! "target_ref" = Some (JStr t) → t ≠ EmptyString →
  nx.clashes ["self"; "u_of_edge"; "v_of_edge"] (edge_attrs obj) = false →
  _add_relationship obj (World (nx.DiGraph nd adj) log) =
    (World (nx.DiGraph (nx.touch (KStr t) (nx.touch (KStr s) nd))
              (nx.update_at (KStr s, KStr t) (edge_attrs obj) adj)) log,
     Return tt).
Proof.
  intros Hs Hs' Ht Ht' Hc. rewrite (_add_relationship_run obj s t) by done.
  unfold on_graph. simpl graph.
  by rewrite (add_edge_simple (JStr s) (JStr t) (KStr s) (KStr t)).
Qed.

Lemma _add_relationship_dropped (obj : dict) w :
  missing_or_empty obj "source_ref" ∨ missing_or_empty obj "target_ref" →
  _add_relationship obj w =
    (World (graph w) (records w ++ [(WARNING, MissingRef)]), Return tt).
Proof.
  intros H. unfold _add_relationship, get.
  assert (negb (truthy (default JNull (obj !! "source_ref")))
          || negb (truthy (default JNull (obj !! "target_ref"))) = true) as ->;
    [|done].
  apply orb_true_iff.
  destruct H as [[-> | ->]|[-> | ->]]; simpl; auto.
Qed.




(** The same on a multigraph, with a field named like the [key] parameter
    of [add_edge]: the field names the edge and is not among its
    attributes. *)
Example relationship_key_field_names_edge :
  let r : dict :=
    {["type" := JStr "relationship"; "id" := JStr "relationship--1";
      "key" := JStr "k"; "source_ref" := JStr "a"; "target_ref" := JStr "b"]} in
  let run := _add_relationship r (World (nx.MultiDiGraph ∅ ∅) []) in
  let edge := keyed_edge (graph run.1) (KStr "a") (KStr "b") (KStr "k") in
  run.2 = Return tt ∧
  attribute edge "id" = Some (JStr "relationship--1") ∧
  attribute edge "key" = None ∧
  edge_attrs r !! "key" = Some (JStr "k").
Proof. intros r run edge. repeat split; vm_compute; reflexivity. Qed.

(** ** Several relationships between one pair *)

Lemma relationships_simple (s t : string) (r1 r2 : dict) nd adj log :
  s ≠ EmptyString → t ≠ EmptyString → between s t r1 → between s t r2 →
  nx.clashes ["self"; "u_of_edge"; "v_of_edge"] (edge_attrs r1) = false →
  nx.clashes ["self"; "u_of_edge"; "v_of_edge"] (edge_attrs r2) = false →
  ∃ nd',
    for_ [r1; r2] _add_relationship (World (nx.DiGraph nd adj) log) =
      (World (nx.DiGraph nd'
                (<[(KStr s, KStr t) :=
                     edge_attrs r2 ∪
                       (edge_attrs r1 ∪ default ∅ (adj !! (KStr s, KStr t)))]>
                   adj)) log,
       Return tt).
Proof.
  intros Hs Ht [Hs1 Ht1] [Hs2 Ht2] Hc1 Hc2. simpl.
  unfold mbind at 1, M_bind at 1.
  rewrite (_add_relationship_simple r1 s t) by done.
  unfold mbind at 1, M_bind at 1.
  rewrite (_add_relationship_simple r2 s t) by done.
  eexists. unfold mret, M_ret. do 3 f_equal. unfold nx.update_at.
  by rewrite lookup_insert_eq, insert_insert_eq.
Qed.

Lemma relationships_multi (s t : string) (rs : list dict) :
  s ≠ EmptyString → t ≠ EmptyString →
  Forall (λ r, between s t r ∧ r !! "key" = None ∧
               nx.clashes ["self"; "u_for_edge"; "v_for_edge"] (edge_attrs r)
               = false) rs →
  ∀ nd adj log,
  ∃ nd' adj' new,
    for_ rs _add_relationship (World (nx.MultiDiGraph nd adj) log) =
      (World (nx.MultiDiGraph nd' adj') log, Return tt) ∧
    inserted adj new adj' ∧
    endpoints <$> new = (λ r, (KStr s, KStr t, edge_attrs r)) <$> rs.
Proof.
  intros Hs Ht. induction 1 as [|r rs ([Hsr Htr] & Hk & Hc) _ IH];
    intros nd adj log.
  - exists nd, adj, []. split; [done|]. split; [apply inserted_nil|done].
  - simpl. unfold mbind at 1, M_bind at 1.
    rewrite (_add_relationship_multi r s t) by done.
    destruct (IH (nx.touch (KStr t) (nx.touch (KStr s) nd))
                (<[(KStr s, KStr t, KNum (nx.new_edge_key adj (KStr s) (KStr t)))
                   := edge_attrs r]> adj) log)
      as (nd' & adj' & new & -> & Hins & Hend).
    exists nd', adj',
      (((KStr s, KStr t, KNum (nx.new_edge_key adj (KStr s) (KStr t))),
        edge_attrs r) :: new).
    split; [done|]. split.
    + exact (inserted_app _ _ _ _ _
               (inserted_one adj _ (edge_attrs r)
                  (new_edge_key_fresh adj (KStr s) (KStr t))) Hins).
    + by rewrite !fmap_cons, Hend.
Qed.

Lemma inserted_lookup_new adj new adj' e a :
  inserted adj new adj' → (e, a) ∈ new → adj' !! e = Some a.
Proof.
  intros (-> & Hnd & _) Hin. apply lookup_union_Some_l.
  by apply elem_of_list_to_map_1.
Qed.

(** C5 as the code has it.  In a simple graph a pair has one edge (the
    edge table is keyed by the pair), and after two relationships from [s]
    to [t] the attributes of that edge are the fields of the second laid
    over those of the first (and over what the edge had before): every
    field of the second has the second's value, and a field only the first
    had is still there.  In a multigraph [N] relationships from [s] to [t]
    give [N] new edges from [s] to [t], each under a key of its own and
    each with the fields of its relationship, and the edges that were
    there are unchanged. *)
Theorem relationships_between_one_pair (s t : string) :
  s ≠ EmptyString → t ≠ EmptyString →
  (∀ (r1 r2 : dict) nd adj log,
     between s t r1 → between s t r2 →
     nx.clashes ["self"; "u_of_edge"; "v_of_edge"] (edge_attrs r1) = false →
     nx.clashes ["self"; "u_of_edge"; "v_of_edge"] (edge_attrs r2) = false →
     ∃ nd',
       for_ [r1; r2] _add_relationship (World (nx.DiGraph nd adj) log) =
         (World (nx.DiGraph nd'
                   (<[(KStr s, KStr t) :=
                        edge_attrs r2 ∪
                          (edge_attrs r1
                             ∪ default ∅ (adj !! (KStr s, KStr t)))]> adj))
            log,
          Return tt)) ∧
  (∀ (rs : list dict) nd adj log,
     Forall (λ r, between s t r ∧ r !! "key" = None ∧
                  nx.clashes ["self"; "u_for_edge"; "v_for_edge"]
                    (edge_attrs r) = false) rs →
     ∃ nd' adj' new,
       for_ rs _add_relationship (World (nx.MultiDiGraph nd adj) log) =
         (World (nx.MultiDiGraph nd' adj') log, Return tt) ∧
       inserted adj new adj' ∧ adj ⊆ adj' ∧
       endpoints <$> new = (λ r, (KStr s, KStr t, edge_attrs r)) <$> rs ∧
       length new = length rs ∧
       (∀ e a, (e, a) ∈ new → adj' !! e = Some a) ∧
       size adj' = length rs + size adj).
Proof.
  intros Hs Ht. split.
  - intros. by apply relationships_simple.
  - intros rs nd adj log Hrs.
    destruct (relationships_multi s t rs Hs Ht Hrs nd adj log)
      as (nd' & adj' & new & Hrun & Hins & Hend).
    assert (length new = length rs) as Hlen.
    { apply (f_equal length) in Hend. by rewrite !length_fmap in Hend. }
    exists nd', adj', new. do 2 (split; [done|]).
    split; [by apply (inserted_subseteq _ new)|].
    do 2 (split; [done|]). split.
    + intros e a. by apply (inserted_lookup_new adj).
    + rewrite <- Hlen. by apply inserted_size.
Qed.

Lemma relationships_between_one_pair_witness :
  let r1 : dict :=
    {["type" := JStr "relationship"; "id" := JStr "relationship--multi1";
      "relationship_type" := JStr "uses";
      "source_ref" := JStr "threat-actor--multi";
      "target_ref" := JStr "malware--multi"]} in
  let r2 : dict :=
    {["type" := JStr "relationship"; "id" := JStr "relationship--multi2";
      "relationship_type" := JStr "attributed-to";
      "source_ref" := JStr "threat-actor--multi";
      "target_ref" := JStr "malware--multi"]} in
  ∃ nd' adj' new,
    for_ [r1; r2] _add_relationship (World (nx.MultiDiGraph ∅ ∅) []) =
      (World (nx.MultiDiGraph nd' adj') [], Return tt) ∧
    inserted ∅ new adj' ∧ ∅ ⊆ adj' ∧
    endpoints <$> new =
      (λ r, (KStr "threat-actor--multi", KStr "malware--multi", edge_attrs r))
        <$> [r1; r2] ∧
    length new = 2 ∧
    (∀ e a, (e, a) ∈ new → adj' !! e = Some a) ∧
    size adj' = 2 + size (∅ : gmap (pykey * pykey * pykey) dict).
Proof.
  intros r1 r2.
  apply (proj2 (relationships_between_one_pair "threat-actor--multi"
                  "malware--multi" ltac:(done) ltac:(done)) [r1; r2] ∅ ∅ []).
  repeat constructor; by vm_compute.
Defined.

(** The counterexample to C5 as it is worded: in a simple graph, after two
    relationships between the same pair, the edge has the
    [relationship_type] of the second and still has the [confidence] only
    the first one had, so its attributes are not those of the second. *)
Lemma simple_edge_not_overwritten :
  let r1 : dict :=
    {["type" := JStr "relationship"; "id" := JStr "relationship--a";
      "relationship_type" := JStr "uses"; "confidence" := JNum 80;
      "source_ref" := JStr "intrusion-set--1";
      "target_ref" := JStr "tool--1"]} in
  let r2 : dict :=
    {["type" := JStr "relationship"; "id" := JStr "relationship--b";
      "relationship_type" := JStr "attributed-to";
      "source_ref" := JStr "intrusion-set--1";
      "target_ref" := JStr "tool--1"]} in
  let run := for_ [r1; r2] _add_relationship (World (nx.DiGraph ∅ ∅) []) in
  let edge :=
    simple_edge (graph run.1) (KStr "intrusion-set--1") (KStr "tool--1") in
  run.2 = Return tt ∧
  number_of_edges (graph run.1) = 1 ∧
  attribute edge "relationship_type" = Some (JStr "attributed-to") ∧
  attribute edge "confidence" = Some (JNum 80) ∧
  edge_attrs r2 !! "confidence" = None ∧
  edge ≠ Some (edge_attrs r2).
Proof.
  intros r1 r2 run edge.
  assert (attribute edge "confidence" = Some (JNum 80)) as Hd
    by (vm_compute; reflexivity).
  split; [vm_compute; reflexivity|]. split; [vm_compute; reflexivity|].
  split; [vm_compute; reflexivity|]. split; [exact Hd|].
  split; [vm_compute; reflexivity|].
  intros H. rewrite H in Hd. vm_compute in Hd. discriminate.
Qed.

(** ** The same identifier in two bundles *)

Global Instance same_attrs_preorder X : PreOrder (same_attrs X).
Proof.
  split; unfold same_attrs.
  - by intros g.
  - intros g1 g2 g3 H12 H23. by rewrite H23.
Qed.

Lemma for_app {S A} (l1 l2 : list A) (f : A → M S unit) w :
  for_ (l1 ++ l2) f w =
    match for_ l1 f w with
    | (w1, Return _) => for_ l2 f w1
    | (w1, Raise e) => (w1, Raise e)
    end.
Proof.
  revert w. induction l1 as [|x l1 IH]; intros w; simpl; [done|].
  unfold mbind, M_bind. destruct (f x w) as [w' [[]|e]]; [apply IH|done].
Qed.

Lemma for_cons {S A} (x : A) (l : list A) (f : A → M S unit) w :
  for_ (x :: l) f w =
    match f x w with
    | (w1, Return _) => for_ l f w1
    | (w1, Raise e) => (w1, Raise e)
    end.
Proof. reflexivity. Qed.

Lemma _add_sighting_split (obj : dict) :
  _add_sighting obj =
    node_id ← lift (getitem obj "id");
    on_graph (nx.add_node node_id (_obj_to_attrs obj));;
    sighting_edges node_id obj.
Proof. reflexivity. Qed.

Lemma touch_same k X (nd : gmap pykey dict) :
  default ∅ (nx.touch k nd !! X) = default ∅ (nd !! X).
Proof.
  unfold nx.touch. destruct (nd !! k) eqn:Hk; [done|].
  destruct (decide (k = X)) as [->|].
  - by rewrite lookup_insert_eq, Hk.
  - by rewrite lookup_insert_ne.
Qed.

Lemma touches_same ks X (nd : gmap pykey dict) :
  default ∅ (foldr nx.touch nd ks !! X) = default ∅ (nd !! X).
Proof.
  induction ks as [|k ks IH]; simpl; [done|]. by rewrite touch_same.
Qed.

Lemma add_edge_same_attrs X u v attr :
  preserves_g (same_attrs X) (nx.add_edge u v attr).
Proof.
  intros g. unfold same_attrs.
  destruct (add_edge_nodes u v attr g) as [ks ->]. apply touches_same.
Qed.

Lemma add_node_same_attrs (s : string) n attr :
  n ≠ JStr s → preserves_g (same_attrs (KStr s)) (nx.add_node n attr).
Proof.
  intros Hn g. unfold same_attrs.
  destruct (add_node_shape n attr g) as [->|(k & Hk & ->)]; [done|].
  rewrite nodes_set_nodes. unfold nx.update_at.
  rewrite lookup_insert_ne; [done|]. intros ->.
  destruct n; simpl in Hk; by simplify_eq.
Qed.

Lemma sighting_edges_preserves Rg `{!PreOrder Rg} node_id (obj : dict) :
  (∀ u v attr, preserves_g Rg (nx.add_edge u v attr)) →
  preserves Rg (sighting_edges node_id obj).
Proof.
  intros He. unfold sighting_edges.
  apply preserves_bind; [done| |].
  { apply preserves_if; [apply preserves_on_graph, He|by apply preserves_ret]. }
  intros _. apply preserves_bind; [done|by apply preserves_lift|intros ws].
  apply preserves_bind; [done| |].
  { apply preserves_for, Forall_forall; [done|].
    intros; apply preserves_on_graph, He. }
  intros _. apply preserves_bind; [done|by apply preserves_lift|intros os].
  apply preserves_for, Forall_forall; [done|].
  intros; apply preserves_on_graph, He.
Qed.

Lemma convert_object_same_attrs rc inc (s : string) o :
  JStr s ∉ written_ids rc o →
  preserves (same_attrs (KStr s)) (convert_object rc inc o).
Proof.
  intros Hw. apply convert_object_preserves; [apply _|]. intros obj ->.
  simpl in Hw. apply not_elem_of_cons in Hw as [Hid Hemb].
  assert (∀ n, obj !! "id" = Some n → n ≠ JStr s) as Hn.
  { intros n Hn ->. apply Hid. unfold get. by rewrite Hn. }
  repeat split.
  - apply _add_node_preserves; [apply _|].
    intros n ?. apply add_node_same_attrs; auto.
  - apply _add_relationship_preserves; [apply _|].
    intros; apply add_edge_same_attrs.
  - apply _add_sighting_preserves; [apply _| |].
    + intros n ?. apply add_node_same_attrs; auto.
    + intros; apply add_edge_same_attrs.
  - apply Forall_forall. intros sco Hsco.
    apply _add_node_preserves; [apply _|].
    intros n Hscoid. apply add_node_same_attrs. intros ->.
    apply Hemb, list_elem_of_fmap. exists sco. split; [|done].
    unfold get. by rewrite Hscoid.
Qed.

Lemma kept_lookup X g g' a :
  nx.nodes g !! X = Some a → same_attrs X g g' → grows g g' →
  nx.nodes g' !! X = Some a.
Proof.
  intros Ha Hs Hg. unfold same_attrs in Hs. rewrite Ha in Hs. simpl in Hs.
  assert (X ∈ dom (nx.nodes g')) as [a' Ha']%elem_of_dom.
  { assert (X ∈ dom (nx.nodes g)) as HX by (apply elem_of_dom; eauto).
    clear Hs Ha. destruct g, g'; simpl in *; try done; destruct Hg as [Hg _];
      by apply Hg. }
  rewrite Ha' in Hs. simpl in Hs. by subst.
Qed.

Lemma app_empty_r (s : string) : s +:+ EmptyString = s.
Proof.
  induction s as [|a s IH]; [done|].
  change (String a (s +:+ EmptyString) = String a s). by rewrite IH.
Qed.

Lemma app_not_self (s t : string) : t ≠ EmptyString → s +:+ t ≠ s.
Proof.
  intros Ht H. apply Ht. apply (inj (String.app s)). by rewrite app_empty_r.
Qed.

Lemma embedded_ids_differ rc (obj : dict) (X : string) :
  obj !! "id" = Some (JStr X) →
  Forall (λ sco : dict, ∀ n, sco !! "id" = Some n → n ≠ JStr X)
    (extract_stix20_embedded_scos rc obj).
Proof.
  intros Hid. apply Forall_forall. intros sco Hsco n Hn ->.
  unfold extract_stix20_embedded_scos in Hsco.
  destruct (get_or obj "objects" (JDict ∅)) as [| | | | |embedded];
    try by apply elem_of_nil in Hsco.
  apply list_elem_of_omap in Hsco as ([K v] & _ & Hs).
  apply embedded_sco_Some in Hs as (V & -> & _ & ->).
  rewrite lookup_insert_eq in Hn. injection Hn as Hn.
  unfold get_or in Hn. rewrite Hid in Hn. simpl in Hn.
  by apply app_not_self in Hn.
Qed.

Lemma then_kept X a (m rest : M world unit) w w' :
  m w = (w', Return tt) → nx.nodes (graph w') !! X = Some a →
  preserves (same_attrs X) rest → preserves grows rest →
  nx.nodes (graph ((m;; rest) w).1) !! X = Some a.
Proof.
  intros Hm Ha Hs Hg. unfold mbind, M_bind. rewrite Hm.
  by apply (kept_lookup X (graph w')).
Qed.

Lemma _add_node_lookup (obj : dict) (X : string) w :
  obj !! "id" = Some (JStr X) →
  nx.clashes ["self"; "node_for_adding"] obj = false →
  ∃ w', _add_node obj w = (w', Return tt) ∧
    nx.nodes (graph w') !! KStr X =
      Some (obj ∪ default ∅ (nx.nodes (graph w) !! KStr X)).
Proof.
  intros Hid Hc. eexists. split.
  - by apply (_add_node_run obj (JStr X) (KStr X)).
  - simpl. rewrite nodes_set_nodes. unfold nx.update_at.
    by rewrite lookup_insert_eq.
Qed.

Lemma embedded_nodes_same_attrs rc (obj : dict) (X : string) :
  obj !! "id" = Some (JStr X) →
  preserves (same_attrs (KStr X))
    (for_ (extract_stix20_embedded_scos rc obj) _add_node).
Proof.
  intros Hid. apply preserves_for; [apply _|].
  eapply Forall_impl; [by apply embedded_ids_differ|]. intros sco Hsco.
  apply _add_node_preserves; [apply _|].
  intros n Hn. by apply add_node_same_attrs, Hsco.
Qed.

Lemma embedded_nodes_grow rc (obj : dict) :
  preserves grows (for_ (extract_stix20_embedded_scos rc obj) _add_node).
Proof.
  apply preserves_for; [apply _|]. apply Forall_forall. intros sco _.
  apply _add_node_preserves; [apply _|]. intros; apply add_node_grows.
Qed.

Lemma object_written rc inc (o : dict) (s X : string) w :
  o !! "type" = Some (JStr s) → s ≠ EmptyString →
  becomes_node inc (classify s) = true →
  o !! "id" = Some (JStr X) → X ≠ EmptyString →
  nx.clashes ["self"; "node_for_adding"] o = false →
  nx.nodes (graph (convert_object rc inc (JDict o) w).1) !! KStr X =
    Some (o ∪ default ∅ (nx.nodes (graph w) !! KStr X)).
Proof.
  intros Hty Hs Hb Hid HX Hc.
  assert (truthy (get o "id") = true) as Htr.
  { unfold get. rewrite Hid. by apply truthy_str. }
  rewrite (convert_object_classified rc inc o s Hty Hs Htr).
  destruct (_add_node_lookup o X w Hid Hc) as (w' & Hrun & Hlook).
  destruct (classify s); simpl in Hb; try done; simpl.
  - (* sighting *)
    rewrite _add_sighting_split. unfold getitem. rewrite Hid.
    unfold mbind at 1, M_bind at 1, lift at 1.
    unfold _add_node, getitem in Hrun. rewrite Hid in Hrun.
    unfold mbind at 1, M_bind at 1, lift at 1 in Hrun.
    apply (then_kept _ _ _ _ w w' Hrun Hlook).
    + apply sighting_edges_preserves; [apply _|].
      intros; apply add_edge_same_attrs.
    + apply sighting_edges_preserves; [apply _|].
      intros; apply add_edge_grows.
  - (* domain object *)
    apply (then_kept _ _ _ _ w w' Hrun Hlook).
    + apply preserves_if; [by apply embedded_nodes_same_attrs|].
      apply preserves_ret; apply _.
    + apply preserves_if; [by apply embedded_nodes_grow|].
      apply preserves_ret; apply _.
  - (* observable object *)
    subst inc. by rewrite Hrun.
  - (* unknown *)
    unfold mbind, M_bind, logger.
    destruct (_add_node_lookup o X
                (World (graph w) (records w ++ [(DEBUG, UnknownObjectType)]))
                Hid Hc) as (w'' & -> & Hlook'').
    done.
Qed.

(** C1 as the code has it: when bundle B has an object [o] with identifier
    [X] that is added as a node, and no other object of B writes under
    [X], then after A and then B are converted the attributes of node [X]
    are the fields of [o] laid over the attributes the node had after A:
    every field of [o] has the value [o] gives it, and every field [o]
    does not have keeps the value it had after A. *)
Theorem later_object_updates_node rc inc (A : json) (B : dict)
    (pre : list json) (o : dict) (post : list json) (s X : string) w wB :
  B !! "objects" = Some (JList (pre ++ JDict o :: post)) →
  o !! "type" = Some (JStr s) → s ≠ EmptyString →
  becomes_node inc (classify s) = true →
  o !! "id" = Some (JStr X) → X ≠ EmptyString →
  nx.clashes ["self"; "node_for_adding"] o = false →
  Forall (λ o', JStr X ∉ written_ids rc o') (pre ++ post) →
  convert_bundle rc (JDict B) inc (convert_bundle rc A inc w).1
    = (wB, Return tt) →
  ∃ attrs,
    nx.nodes (graph wB) !! KStr X = Some attrs ∧
    attrs = o ∪ default ∅ (nx.nodes (graph (convert_bundle rc A inc w).1)
                             !! KStr X) ∧
    (∀ f v, o !! f = Some v → attrs !! f = Some v) ∧
    (∀ f, o !! f = None →
       attrs !! f =
         default ∅ (nx.nodes (graph (convert_bundle rc A inc w).1)
                      !! KStr X) !! f).
Proof.
  intros HB Hty Hs Hb Hid HX Hc Hothers Hrun.
  set (wA := (convert_bundle rc A inc w).1) in *.
  eexists. split; [|split; [reflexivity|split]].
  - apply Forall_app in Hothers as [Hpre Hpost].
    unfold convert_bundle, py_get, get_or in Hrun. rewrite HB in Hrun.
    simpl in Hrun. unfold mbind at 1, M_bind at 1, lift at 1 in Hrun.
    rewrite for_app in Hrun.
    pose proof (preserves_for (same_attrs (KStr X)) pre
                  (convert_object rc inc)) as Hsame_pre.
    specialize (Hsame_pre ltac:(eapply Forall_impl; [exact Hpre|];
      intros; by apply convert_object_same_attrs) wA).
    destruct (for_ pre (convert_object rc inc) wA) as [w1 [[]|e]]; [|done].
    simpl in Hsame_pre. rewrite for_cons in Hrun.
    pose proof (object_written rc inc o s X w1 Hty Hs Hb Hid HX Hc) as Hw.
    destruct (convert_object rc inc (JDict o) w1) as [w2 [[]|e]]; [|done].
    simpl in Hw.
    assert (wB = (for_ post (convert_object rc inc) w2).1) as ->
      by by rewrite Hrun.
    unfold same_attrs in Hsame_pre. rewrite <- Hsame_pre.
    apply (kept_lookup _ (graph w2)); [done| |].
    + apply (preserves_for (same_attrs (KStr X))).
      eapply Forall_impl; [exact Hpost|].
      intros; by apply convert_object_same_attrs.
    + apply (preserves_for grows), Forall_forall.
      intros; apply convert_object_grows.
  - intros f v Hf. by apply lookup_union_Some_l.
  - intros f Hf. by apply lookup_union_r.
Qed.

Lemma later_object_updates_node_witness :
  let actor : dict :=
    {["type" := JStr "threat-actor"; "id" := JStr "threat-actor--merge-b";
      "name" := JStr "Actor B"]} in
  let v1 : dict :=
    {["type" := JStr "malware"; "id" := JStr "malware--shared";
      "name" := JStr "Shared Malware v1"; "is_family" := JBool true]} in
  let v2 : dict :=
    {["type" := JStr "malware"; "id" := JStr "malware--shared";
      "name" := JStr "Shared Malware v2"; "is_family" := JBool false]} in
  let rel : dict :=
    {["type" := JStr "relationship"; "id" := JStr "relationship--merge-b";
      "relationship_type" := JStr "uses";
      "source_ref" := JStr "threat-actor--merge-b";
      "target_ref" := JStr "malware--shared"]} in
  let A := JDict {["objects" := JList [JDict v1]]} in
  let B : dict := {["objects" := JList [JDict actor; JDict v2; JDict rel]]} in
  let w := World (nx.MultiDiGraph ∅ ∅) [] in
  let wA := (convert_bundle (λ _, EmptyString) A true w).1 in
  let wB := (convert_bundle (λ _, EmptyString) (JDict B) true wA).1 in
  ∃ attrs,
    nx.nodes (graph wB) !! KStr "malware--shared" = Some attrs ∧
    attrs = v2 ∪ default ∅ (nx.nodes (graph wA) !! KStr "malware--shared") ∧
    (∀ f v, v2 !! f = Some v → attrs !! f = Some v) ∧
    (∀ f, v2 !! f = None →
       attrs !! f =
         default ∅ (nx.nodes (graph wA) !! KStr "malware--shared") !! f).
Proof.
  intros actor v1 v2 rel A B w wA wB. subst wA wB.
  apply (later_object_updates_node (λ _, EmptyString) true A B [JDict actor] v2
           [JDict rel] "malware" "malware--shared" w
           (convert_bundle (λ _, EmptyString) (JDict B) true
              (convert_bundle (λ _, EmptyString) A true w).1).1).
  - vm_compute; reflexivity.
  - vm_compute; reflexivity.
  - discriminate.
  - vm_compute; reflexivity.
  - vm_compute; reflexivity.
  - discriminate.
  - vm_compute; reflexivity.
  - repeat constructor; intros H%list_elem_of_In; vm_compute in H;
      intuition discriminate.
  - vm_compute; reflexivity.
Defined.

(** The counterexample to C1 as it is worded: after bundle A and then
    bundle B, which both have [malware--shared], the node has B's [name]
    and still has the [description] only A's object had, so its attributes
    are not B's fields. *)
Lemma merged_node_keeps_earlier_field :
  let v1 : dict :=
    {["type" := JStr "malware"; "id" := JStr "malware--shared";
      "name" := JStr "Shared Malware v1";
      "description" := JStr "only in A"]} in
  let v2 : dict :=
    {["type" := JStr "malware"; "id" := JStr "malware--shared";
      "name" := JStr "Shared Malware v2"]} in
  let A := JDict {["objects" := JList [JDict v1]]} in
  let B := JDict {["objects" := JList [JDict v2]]} in
  let runA := convert_bundle (λ _, EmptyString) A true (World (nx.MultiDiGraph ∅ ∅) []) in
  let runB := convert_bundle (λ _, EmptyString) B true runA.1 in
  let node := nx.nodes (graph runB.1) !! KStr "malware--shared" in
  runA.2 = Return tt ∧ runB.2 = Return tt ∧
  attribute node "name" = Some (JStr "Shared Malware v2") ∧
  attribute node "description" = Some (JStr "only in A") ∧
  v2 !! "description" = None ∧
  node ≠ Some v2.
Proof.
  intros v1 v2 A B runA runB node.
  assert (attribute node "description" = Some (JStr "only in A")) as Hd
    by (vm_compute; reflexivity).
  split; [vm_compute; reflexivity|]. split; [vm_compute; reflexivity|].
  split; [vm_compute; reflexivity|]. split; [exact Hd|].
  split; [vm_compute; reflexivity|].
  clearbody node. clear runA runB A B v1. intros H. rewrite H in Hd.
  vm_compute in Hd. discriminate.
Qed.

(** ** Sightings *)

Lemma for_fmap {S A B} (g : A → B) (l : list A) (f : B → M S unit) w :
  for_ (g <$> l) f w = for_ l (λ x, f (g x)) w.
Proof.
  revert w. induction l as [|x l IH]; intros w; [done|].
  rewrite fmap_cons, !for_cons. by destruct (f (g x) w) as [w' [[]|e]].
Qed.

Lemma edge_tag_no_clash tag params :
  "relationship_type" ∉ params → nx.clashes params (edge_tag tag) = false.
Proof.
  intros H. unfold nx.clashes. apply not_true_iff_false.
  intros (p & Hp & Hs)%existsb_exists. apply bool_decide_eq_true in Hs.
  apply list_elem_of_In in Hp. unfold edge_tag in Hs.
  destruct (decide (p = "relationship_type")) as [->|]; [done|].
  rewrite lookup_singleton_ne in Hs by done. by destruct Hs.
Qed.

Lemma params_not_tag (u v : string) :
  u ≠ "relationship_type" → v ≠ "relationship_type" →
  "relationship_type" ∉ ["self"; u; v].
Proof.
  intros Hu Hv H. repeat (apply elem_of_cons in H as [H|H]; [by subst|]).
  by apply elem_of_nil in H.
Qed.

Lemma touch_lookup_Some k k' (nd : gmap pykey dict) a :
  nd !! k' = Some a → nx.touch k nd !! k' = Some a.
Proof.
  intros Ha. unfold nx.touch. destruct (nd !! k) eqn:Hk; [done|].
  rewrite lookup_insert_ne; [done|]. intros ->. congruence.
Qed.

Lemma edge_calls_multi (X : string) (cs : list (string * string)) :
  ∀ nd adj log,
  ∃ nd' adj' new,
    for_ cs (edge_call (JStr X)) (World (nx.MultiDiGraph nd adj) log) =
      (World (nx.MultiDiGraph nd' adj') log, Return tt) ∧
    inserted adj new adj' ∧
    endpoints <$> new = (λ c, (KStr X, KStr c.1, edge_tag c.2)) <$> cs ∧
    (∀ k a, nd !! k = Some a → nd' !! k = Some a).
Proof.
  induction cs as [|[r tag] cs IH]; intros nd adj log.
  - exists nd, adj, []. split; [done|]. split; [apply inserted_nil|done].
  - rewrite for_cons. unfold edge_call at 1, on_graph. simpl graph.
    rewrite (add_edge_multi (JStr X) (JStr r) (KStr X) (KStr r));
      [|by apply edge_tag_no_clash, params_not_tag|done..].
    simpl.
    destruct (IH (nx.touch (KStr r) (nx.touch (KStr X) nd))
                (<[(KStr X, KStr r, KNum (nx.new_edge_key adj (KStr X) (KStr r)))
                   := edge_tag tag]> adj) log)
      as (nd' & adj' & new & -> & Hins & Hend & Hnd).
    exists nd', adj',
      (((KStr X, KStr r, KNum (nx.new_edge_key adj (KStr X) (KStr r))),
        edge_tag tag) :: new).
    split; [done|]. split; [|split].
    + exact (inserted_app _ _ _ _ _
               (inserted_one adj _ (edge_tag tag)
                  (new_edge_key_fresh adj (KStr X) (KStr r))) Hins).
    + by rewrite !fmap_cons, Hend.
    + intros k a Ha. by apply Hnd, touch_lookup_Some, touch_lookup_Some.
Qed.

Lemma edge_calls_simple (X : string) (cs : list (string * string)) :
  ∀ nd adj log,
  ∃ nd',
    for_ cs (edge_call (JStr X)) (World (nx.DiGraph nd adj) log) =
      (World (nx.DiGraph nd'
                (foldl (λ m c, nx.update_at (KStr X, KStr c.1) (edge_tag c.2) m)
                   adj cs)) log,
       Return tt) ∧
    (∀ k a, nd !! k = Some a → nd' !! k = Some a).
Proof.
  induction cs as [|[r tag] cs IH]; intros nd adj log.
  - by exists nd.
  - rewrite for_cons. unfold edge_call at 1, on_graph. simpl graph.
    rewrite (add_edge_simple (JStr X) (JStr r) (KStr X) (KStr r));
      [|by apply edge_tag_no_clash, params_not_tag|done..].
    simpl.
    destruct (IH (nx.touch (KStr r) (nx.touch (KStr X) nd))
                (nx.update_at (KStr X, KStr r) (edge_tag tag) adj) log)
      as (nd' & -> & Hnd).
    exists nd'. split; [done|].
    intros k a Ha. by apply Hnd, touch_lookup_Some, touch_lookup_Some.
Qed.

Lemma sighting_edges_calls (obj : dict) (X : string) (ws os : list string) w :
  obj !! "sighting_of_ref" = None ∨
    (∃ t, obj !! "sighting_of_ref" = Some (JStr t)) →
  refs obj "where_sighted_refs" ws → refs obj "observed_data_refs" os →
  sighting_edges (JStr X) obj w =
    for_ (sighting_calls obj ws os) (edge_call (JStr X)) w.
Proof.
  intros Hso Hws Hos. unfold sighting_edges, sighting_calls.
  unfold refs in Hws, Hos. rewrite Hws, Hos. simpl iter.
  assert (∀ w', (lift (Return (JStr <$> ws)) ≫= λ where_sighted,
            for_ where_sighted (λ ref,
              on_graph (nx.add_edge (JStr X) ref (edge_tag "seen_by")));;
            lift (Return (JStr <$> os)) ≫= λ observed,
            for_ observed (λ ref,
              on_graph (nx.add_edge (JStr X) ref (edge_tag "observed")))) w'
          = for_ (((λ r, (r, "seen_by")) <$> ws)
                  ++ ((λ r, (r, "observed")) <$> os)) (edge_call (JStr X)) w')
    as Hrest.
  { intros w'. rewrite for_app.
    unfold mbind at 1, M_bind at 1, lift at 1.
    unfold mbind at 1, M_bind at 1. rewrite !for_fmap.
    destruct (for_ ws _ w') as [w1 [[]|e]]; [|done].
    unfold mbind at 1, M_bind at 1, lift at 1. by rewrite !for_fmap. }
  assert (get obj "sighting_of_ref" = JNull ∨
          ∃ t, get obj "sighting_of_ref" = JStr t) as [Hg|[t Hg]].
  { unfold get. destruct Hso as [H|[t H]]; rewrite H; simpl; eauto. }
  - rewrite Hg. apply Hrest.
  - rewrite Hg. unfold truthy. destruct (String.eqb t EmptyString); cbn [negb app].
    + apply Hrest.
    + rewrite for_cons. unfold mbind at 1, M_bind at 1.
      unfold edge_call at 1. cbn [fst snd].
      destruct (on_graph _ w) as [w1 [[]|e]]; [apply Hrest|done].
Qed.

Lemma _add_sighting_run (obj : dict) (X : string) (ws os : list string) w :
  obj !! "id" = Some (JStr X) →
  nx.clashes ["self"; "node_for_adding"] obj = false →
  obj !! "sighting_of_ref" = None ∨
    (∃ t, obj !! "sighting_of_ref" = Some (JStr t)) →
  refs obj "where_sighted_refs" ws → refs obj "observed_data_refs" os →
  _add_sighting obj w =
    for_ (sighting_calls obj ws os) (edge_call (JStr X))
      (World (nx.set_nodes (nx.update_at (KStr X) obj (nx.nodes (graph w)))
                (graph w)) (records w)).
Proof.
  intros Hid Hc Hso Hws Hos. rewrite _add_sighting_split.
  unfold getitem. rewrite Hid, _obj_to_attrs_id.
  unfold mbind at 1, M_bind at 1, lift at 1.
  unfold mbind at 1, M_bind at 1, on_graph at 1.
  rewrite (add_node_ok (JStr X) (KStr X)) by done.
  by apply sighting_edges_calls.
Qed.

Lemma sighting_calls_length (obj : dict) (ws os : list string) :
  obj !! "sighting_of_ref" = None ∨
    (∃ t, obj !! "sighting_of_ref" = Some (JStr t)) →
  length (sighting_calls obj ws os) =
    (if truthy (get obj "sighting_of_ref") then 1 else 0)
    + length ws + length os.
Proof.
  intros Hso. unfold sighting_calls, get.
  rewrite !length_app, !length_fmap.
  destruct Hso as [H|[t H]]; rewrite H; simpl; [lia|].
  destruct (String.eqb t EmptyString); simpl; lia.
Qed.

(** C3 as the code has it: for a sighting with identifier [X], whose
    [sighting_of_ref] is missing or a string and whose [where_sighted_refs]
    and [observed_data_refs] are missing or lists of strings, the node [X]
    gets the fields of the sighting (laid over the attributes it had), and
    [add_edge] is called from [X] once for [sighting_of_ref] when that is
    there and not empty, with [relationship_type] [sighting_of], once for
    each entry of [where_sighted_refs], with [seen_by], and once for each
    entry of [observed_data_refs], with [observed], in this order; nothing
    is raised, whichever of the fields are missing.  In a multigraph each
    call is a new edge with that one attribute, so that many edges leave
    [X] more than before; in a simple graph each call updates the edge to
    its target, so calls to one target share an edge. *)
Theorem sighting_node_and_edges (obj : dict) (X : string)
    (ws os : list string) :
  obj !! "id" = Some (JStr X) →
  nx.clashes ["self"; "node_for_adding"] obj = false →
  obj !! "sighting_of_ref" = None ∨
    (∃ t, obj !! "sighting_of_ref" = Some (JStr t)) →
  refs obj "where_sighted_refs" ws → refs obj "observed_data_refs" os →
  length (sighting_calls obj ws os) =
    (if truthy (get obj "sighting_of_ref") then 1 else 0)
    + length ws + length os ∧
  (∀ nd adj log,
   ∃ nd' adj' new,
     _add_sighting obj (World (nx.MultiDiGraph nd adj) log) =
       (World (nx.MultiDiGraph nd' adj') log, Return tt) ∧
     nd' !! KStr X = Some (obj ∪ default ∅ (nd !! KStr X)) ∧
     inserted adj new adj' ∧
     endpoints <$> new =
       (λ c, (KStr X, KStr c.1, edge_tag c.2)) <$> sighting_calls obj ws os ∧
     size adj' = length (sighting_calls obj ws os) + size adj) ∧
  (∀ nd adj log,
   ∃ nd',
     _add_sighting obj (World (nx.DiGraph nd adj) log) =
       (World (nx.DiGraph nd'
                 (foldl (λ m c,
                           nx.update_at (KStr X, KStr c.1) (edge_tag c.2) m)
                    adj (sighting_calls obj ws os))) log,
        Return tt) ∧
     nd' !! KStr X = Some (obj ∪ default ∅ (nd !! KStr X))).
Proof.
  intros Hid Hc Hso Hws Hos.
  split; [by apply sighting_calls_length|]. split.
  - intros nd adj log.
    rewrite (_add_sighting_run obj X ws os) by done. simpl.
    destruct (edge_calls_multi X (sighting_calls obj ws os)
                (nx.update_at (KStr X) obj nd) adj log)
      as (nd' & adj' & new & -> & Hins & Hend & Hnd).
    exists nd', adj', new. split; [done|]. split; [|split; [done|split]].
    + apply Hnd. unfold nx.update_at. by rewrite lookup_insert_eq.
    + done.
    + rewrite (inserted_size _ _ _ Hins). f_equal.
      apply (f_equal length) in Hend. by rewrite !length_fmap in Hend.
  - intros nd adj log.
    rewrite (_add_sighting_run obj X ws os) by done. simpl.
    destruct (edge_calls_simple X (sighting_calls obj ws os)
                (nx.update_at (KStr X) obj nd) adj log)
      as (nd' & -> & Hnd).
    exists nd'. split; [done|].
    apply Hnd. unfold nx.update_at. by rewrite lookup_insert_eq.
Qed.

Lemma sighting_node_and_edges_witness :
  let obj : dict :=
    {["type" := JStr "sighting"; "id" := JStr "sighting--full";
      "count" := JNum 3; "sighting_of_ref" := JStr "indicator--sighted";
      "where_sighted_refs" := JList [JStr "identity--org1"];
      "observed_data_refs" := JList [JStr "observed-data--1"]]} in
  length (sighting_calls obj ["identity--org1"] ["observed-data--1"]) =
    (if truthy (get obj "sighting_of_ref") then 1 else 0)
    + length ["identity--org1"] + length ["observed-data--1"].
Proof.
  intros obj.
  apply (sighting_node_and_edges obj "sighting--full" ["identity--org1"]
           ["observed-data--1"]); try by vm_compute.
  right. exists "indicator--sighted". by vm_compute.
Defined.

(** The counterexample to C3 as it is worded: a sighting whose
    [sighting_of_ref] is there and is the empty string gets its node and
    no edge, where the count of the design document is one. *)
Lemma empty_sighting_of_ref_no_edge :
  let obj : dict :=
    {["type" := JStr "sighting"; "id" := JStr "sighting--1";
      "sighting_of_ref" := JStr EmptyString]} in
  let bundle := JDict {["objects" := JList [JDict obj]]} in
  let run :=
    convert_bundle (λ _, EmptyString) bundle true (World (nx.MultiDiGraph ∅ ∅) []) in
  is_Some (obj !! "sighting_of_ref") ∧
  obj !! "where_sighted_refs" = None ∧ obj !! "observed_data_refs" = None ∧
  run.2 = Return tt ∧
  nx.nodes (graph run.1) !! KStr "sighting--1" = Some obj ∧
  number_of_edges (graph run.1) = 0 ∧
  number_of_edges (graph run.1) ≠ 1 + 0 + 0.
Proof.
  intros obj bundle run. split; [by eexists|].
  repeat split; try (vm_compute; reflexivity).
  vm_compute. discriminate.
Qed.

(** In a simple graph two references to one target are one edge. *)
Example repeated_reference_one_edge :
  let obj : dict :=
    {["type" := JStr "sighting"; "id" := JStr "sighting--1";
      "where_sighted_refs" :=
        JList [JStr "identity--1"; JStr "identity--1"]]} in
  let run := _add_sighting obj (World (nx.DiGraph ∅ ∅) []) in
  run.2 = Return tt ∧ number_of_edges (graph run.1) = 1.
Proof. intros obj run. split; vm_compute; reflexivity. Qed.

(** ** Objects that are dropped *)

Lemma get_type_str (obj : dict) s :
  obj !! "type" = Some (JStr s) → get obj "type" = JStr s.
Proof. intros H. unfold get. by rewrite H. Qed.

Lemma convert_object_no_id rc inc (obj : dict) s w :
  obj !! "type" = Some (JStr s) → s ≠ EmptyString →
  truthy (get obj "id") = false →
  convert_object rc inc (JDict obj) w =
    if bool_decide (s ∈ SKIP_TYPES) then (w, Return tt)
    else (World (graph w) (records w ++ [(WARNING, NoIdField)]), Return tt).
Proof.
  intros Hty Hs Hid. unfold convert_object.
  rewrite (get_type_str _ _ Hty), (truthy_str s Hs), Hid. simpl.
  rewrite (is_skippable_str _ _ Hty).
  unfold mbind, M_bind, lift. by destruct (bool_decide (s ∈ SKIP_TYPES)).
Qed.

(** X1: an object that is not a dict, has no type, has no identifier, is of
    a skipped type, or is an observable while observables are left out,
    leaves the graph as it was and raises nothing; the first three log one
    warning (none for a skipped type without identifier), the last two
    log nothing. *)
Theorem dropped_object_leaves_graph rc inc w :
  (∀ o, (∀ d, o ≠ JDict d) →
     convert_object rc inc o w =
       (World (graph w) (records w ++ [(WARNING, NonDictObject)]),
        Return tt)) ∧
  (∀ obj : dict, truthy (get obj "type") = false →
     convert_object rc inc (JDict obj) w =
       (World (graph w) (records w ++ [(WARNING, NoTypeField)]),
        Return tt)) ∧
  (∀ (obj : dict) s,
     obj !! "type" = Some (JStr s) → s ≠ EmptyString →
     truthy (get obj "id") = false →
     convert_object rc inc (JDict obj) w =
       if bool_decide (s ∈ SKIP_TYPES) then (w, Return tt)
       else (World (graph w) (records w ++ [(WARNING, NoIdField)]),
             Return tt)) ∧
  (∀ (obj : dict) s,
     obj !! "type" = Some (JStr s) → truthy (get obj "id") = true →
     s ∈ SKIP_TYPES ∨ (s ∈ SCO_TYPES ∧ inc = false) →
     convert_object rc inc (JDict obj) w = (w, Return tt)).
Proof.
  split; [|split; [|split]].
  - intros o Ho. destruct o; try done. by destruct (Ho d).
  - intros obj Ht. unfold convert_object. by rewrite Ht.
  - intros obj s Hty Hs Hid. by apply convert_object_no_id.
  - intros obj s Hty Hid Hs.
    assert (s ≠ EmptyString) as Hne.
    { intros ->. destruct Hs as [Hs|[Hs _]]; by vm_compute in Hs. }
    rewrite (convert_object_classified rc inc obj s Hty Hne Hid).
    unfold classify. destruct Hs as [Hs|[Hs ->]].
    + by rewrite bool_decide_eq_true_2.
    + assert (classify s = observable_object) as Hc.
      { unfold classify.
        destruct (bool_decide (s ∈ SKIP_TYPES)) eqn:Hsk.
        { apply bool_decide_eq_true in Hsk. exfalso. revert Hs Hsk.
          unfold SCO_TYPES, SKIP_TYPES. rewrite !elem_of_list_to_set.
          intros Hs Hsk.
          repeat (apply elem_of_cons in Hsk as [->|Hsk]);
            try (by apply elem_of_nil in Hsk);
            repeat (apply elem_of_cons in Hs as [Hs|Hs]; [done|]);
            by apply elem_of_nil in Hs. }
        revert Hs. unfold SCO_TYPES at 1. rewrite elem_of_list_to_set.
        intros Hs.
        repeat (apply elem_of_cons in Hs as [->|Hs]);
          try (by apply elem_of_nil in Hs); by vm_compute. }
      fold (classify s). by rewrite Hc.
Qed.

Lemma dropped_object_leaves_graph_witness :
  convert_object (λ _, EmptyString) false
    (JDict {["type" := JStr "ipv4-addr"; "id" := JStr "ipv4-addr--1"]})
    (World (nx.DiGraph ∅ ∅) []) =
  (World (nx.DiGraph ∅ ∅) [], Return tt).
Proof.
  apply (proj2 (proj2 (proj2 (dropped_object_leaves_graph (λ _, EmptyString) false
           (World (nx.DiGraph ∅ ∅) []))))
           {["type" := JStr "ipv4-addr"; "id" := JStr "ipv4-addr--1"]}
           "ipv4-addr").
  - vm_compute; reflexivity.
  - vm_compute; reflexivity.
  - right. split; [by vm_compute|reflexivity].
Defined.

(** ** The log *)

Lemma appends_weaken {A} n n' (m : M world A) :
  n ≤ n' → appends n m → appends n' m.
Proof. intros Hn Hm w. destruct (Hm w) as (l & -> & Hl). exists l. split; [done|lia]. Qed.

Lemma appends_ret {A} (a : A) : appends 0 (mret a).
Proof. intros w. exists []. by rewrite app_nil_r. Qed.

Lemma appends_raise {A} e : appends 0 (@raise world A e).
Proof. intros w. exists []. by rewrite app_nil_r. Qed.

Lemma appends_lift {A} (o : outcome A) : appends 0 (lift o).
Proof. intros w. exists []. by rewrite app_nil_r. Qed.

Lemma appends_logger l m : appends 1 (logger l m).
Proof. intros w. by exists [(l, m)]. Qed.

Lemma appends_on_graph {A} (c : M nx.graph A) : appends 0 (on_graph c).
Proof.
  intros w. exists []. unfold on_graph. destruct (c (graph w)).
  by rewrite app_nil_r.
Qed.

Lemma appends_bind {A B} n1 n2 (m : M world A) (f : A → M world B) :
  appends n1 m → (∀ a, appends n2 (f a)) → appends (n1 + n2) (m ≫= f).
Proof.
  intros Hm Hf w. unfold mbind, M_bind. destruct (Hm w) as (l1 & H1 & Hl1).
  destruct (m w) as [w' [a|e]]; simpl in *.
  - destruct (Hf a w') as (l2 & H2 & Hl2). exists (l1 ++ l2).
    rewrite H2, H1, length_app, (assoc_L (++)). split; [done|lia].
  - exists l1. split; [done|lia].
Qed.

Lemma appends_if {A} n (b : bool) (m1 m2 : M world A) :
  appends n m1 → appends n m2 → appends n (if b then m1 else m2).
Proof. by destruct b. Qed.

Lemma appends_for {A} n (l : list A) (body : A → M world unit) :
  (∀ x, appends n (body x)) → appends (length l * n) (for_ l body).
Proof.
  intros Hb. induction l as [|x l IH]; simpl.
  - apply appends_ret.
  - apply (appends_bind n (length l * n)); [apply Hb|done].
Qed.

Lemma _add_node_appends obj : appends 0 (_add_node obj).
Proof.
  unfold _add_node. apply (appends_bind 0 0); [apply appends_lift|].
  intros; apply appends_on_graph.
Qed.

Lemma _add_relationship_appends obj : appends 1 (_add_relationship obj).
Proof.
  unfold _add_relationship. apply appends_if; [apply appends_logger|].
  apply (appends_weaken 0); [lia|apply appends_on_graph].
Qed.

Lemma _add_sighting_appends obj : appends 0 (_add_sighting obj).
Proof.
  unfold _add_sighting. apply (appends_bind 0 0); [apply appends_lift|].
  intros n. apply (appends_bind 0 0); [apply appends_on_graph|]. intros _.
  apply (appends_bind 0 0).
  { apply appends_if; [apply appends_on_graph|apply appends_ret]. }
  intros _. apply (appends_bind 0 0); [apply appends_lift|]. intros ws.
  apply (appends_bind 0 0).
  { apply (appends_weaken (length ws * 0)); [lia|].
    apply appends_for. intros; apply appends_on_graph. }
  intros _. apply (appends_bind 0 0); [apply appends_lift|]. intros os.
  apply (appends_weaken (length os * 0)); [lia|].
  apply appends_for. intros; apply appends_on_graph.
Qed.

Lemma convert_object_appends rc inc o : appends 1 (convert_object rc inc o).
Proof.
  destruct o as [| | | | |obj]; try apply appends_logger.
  unfold convert_object.
  apply appends_if; [apply appends_logger|].
  apply appends_if.
  { apply (appends_bind 0 1); [apply appends_lift|]. intros sk.
    apply appends_if; [apply appends_logger|].
    apply (appends_weaken 0); [lia|apply appends_ret]. }
  apply (appends_bind 0 1); [apply appends_lift|]. intros sk.
  apply appends_if; [apply (appends_weaken 0); [lia|apply appends_ret]|].
  apply appends_if; [apply _add_relationship_appends|].
  apply appends_if.
  { apply (appends_weaken 0); [lia|apply _add_sighting_appends]. }
  apply (appends_bind 0 1); [apply appends_lift|]. intros sdo.
  apply appends_if.
  { apply (appends_weaken 0); [lia|].
    apply (appends_bind 0 0); [apply _add_node_appends|]. intros _.
    apply appends_if; [|apply appends_ret].
    apply (appends_weaken (length (extract_stix20_embedded_scos rc obj) * 0));
      [lia|].
    apply appends_for. intros; apply _add_node_appends. }
  apply (appends_bind 0 1); [apply appends_lift|]. intros sco.
  apply appends_if.
  { apply (appends_weaken 0); [lia|].
    apply appends_if; [apply _add_node_appends|apply appends_ret]. }
  apply (appends_bind 1 0); [apply appends_logger|].
  intros _. apply _add_node_appends.
Qed.

(** X2: converting a bundle only appends to the log: the records that
    were there stay, in order, and an object adds at most one record, so a
    bundle with a list of [n] objects adds at most [n] records, and any
    other bundle at most one. *)
Theorem convert_bundle_log_bound rc inc (bundle : json) w :
  ∃ l,
    records (convert_bundle rc bundle inc w).1 = records w ++ l ∧
    length l ≤
      match bundle with
      | JDict b =>
          match get_or b "objects" (JList []) with
          | JList objects => length objects
          | _ => 1
          end
      | _ => 0
      end.
Proof.
  unfold convert_bundle. destruct bundle as [| | | | |b];
    try (exists []; simpl; by rewrite app_nil_r).
  simpl py_get. unfold mbind, M_bind, lift.
  destruct (get_or b "objects" (JList [])) as [| | | |objects|];
    try (exists [(WARNING, ObjectsNotAList)]; by simpl).
  destruct (appends_for 1 objects (convert_object rc inc)
              (convert_object_appends rc inc) w) as (l & Hl & Hlen).
  exists l. split; [done|lia].
Qed.

(** ** Input that is typed as STIX types it never raises *)

Lemma returns_ret {A} (a : A) : returns (mret a).
Proof. intros w. by exists a. Qed.

Lemma returns_logger l m : returns (logger l m).
Proof. intros w. by exists tt. Qed.

Lemma returns_bind {A B} (m : M world A) (f : A → M world B) :
  returns m → (∀ a, returns (f a)) → returns (m ≫= f).
Proof.
  intros Hm Hf w. unfold mbind, M_bind. destruct (Hm w) as [a Ha].
  destruct (m w) as [w' [a'|e]]; simpl in *; [apply Hf|done].
Qed.

Lemma returns_for {A} (l : list A) (body : A → M world unit) :
  Forall (λ x, returns (body x)) l → returns (for_ l body).
Proof.
  induction 1 as [|x l Hx _ IH]; simpl; [apply returns_ret|].
  by apply returns_bind.
Qed.

Lemma returns_if {A} (b : bool) (m1 m2 : M world A) :
  returns m1 → returns m2 → returns (if b then m1 else m2).
Proof. by destruct b. Qed.

Lemma plain_lookup (obj : dict) p : plain obj → p ∈ reserved → obj !! p = None.
Proof. intros H Hp. by apply (proj1 (Forall_forall _ _) H). Qed.

Lemma plain_no_clash (obj : dict) params :
  plain obj → params ⊆ reserved → nx.clashes params obj = false.
Proof.
  intros Hp Hsub. unfold nx.clashes. apply not_true_iff_false.
  intros (p & Hin & Hs)%existsb_exists. apply bool_decide_eq_true in Hs.
  apply list_elem_of_In in Hin. rewrite (plain_lookup obj p) in Hs; [|done|auto].
  by destruct Hs.
Qed.

Lemma plain_edge_attrs (obj : dict) : plain obj → plain (edge_attrs obj).
Proof.
  intros H. apply Forall_forall. intros p Hp. unfold edge_attrs.
  apply lookup_delete_None. right. apply lookup_delete_None. right.
  apply lookup_delete_None. right. by apply plain_lookup.
Qed.

Lemma reserved_nodes : ["self"; "node_for_adding"] ⊆ reserved.
Proof.
  intros p Hp%list_elem_of_In. apply list_elem_of_In. simpl in *. tauto.
Qed.

Lemma reserved_simple : ["self"; "u_of_edge"; "v_of_edge"] ⊆ reserved.
Proof.
  intros p Hp%list_elem_of_In. apply list_elem_of_In. simpl in *. tauto.
Qed.

Lemma reserved_multi : ["self"; "u_for_edge"; "v_for_edge"] ⊆ reserved.
Proof.
  intros p Hp%list_elem_of_In. apply list_elem_of_In. simpl in *. tauto.
Qed.

Lemma _add_node_returns (obj : dict) (X : string) :
  obj !! "id" = Some (JStr X) →
  nx.clashes ["self"; "node_for_adding"] obj = false →
  returns (_add_node obj).
Proof.
  intros Hid Hc w. exists tt.
  by rewrite (_add_node_run obj (JStr X) (KStr X)).
Qed.

Lemma _add_relationship_returns (obj : dict) :
  plain obj → str_or_missing obj "source_ref" →
  str_or_missing obj "target_ref" → returns (_add_relationship obj).
Proof.
  intros Hp Hs Ht w. exists tt.
  destruct Hs as [Hs|[s Hs]].
  { rewrite _add_relationship_dropped; [done|]. left. by left. }
  destruct Ht as [Ht|[t Ht]].
  { rewrite _add_relationship_dropped; [done|]. right. by left. }
  destruct (decide (s = EmptyString)) as [->|Hs'].
  { rewrite _add_relationship_dropped; [done|]. left. by right. }
  destruct (decide (t = EmptyString)) as [->|Ht'].
  { rewrite _add_relationship_dropped; [done|]. right. by right. }
  destruct w as [[nd adj|nd adj] log].
  - rewrite (_add_relationship_multi obj s t); try done.
    + apply plain_no_clash; [by apply plain_edge_attrs|apply reserved_multi].
    + apply plain_lookup; [done|]. apply list_elem_of_In. simpl. tauto.
  - rewrite (_add_relationship_simple obj s t); try done.
    apply plain_no_clash; [by apply plain_edge_attrs|apply reserved_simple].
Qed.

Lemma _add_sighting_returns (obj : dict) (X : string) :
  obj !! "id" = Some (JStr X) → plain obj →
  str_or_missing obj "sighting_of_ref" →
  (∃ ws, refs obj "where_sighted_refs" ws) →
  (∃ os, refs obj "observed_data_refs" os) →
  returns (_add_sighting obj).
Proof.
  intros Hid Hp Hso [ws Hws] [os Hos] w. exists tt.
  rewrite (_add_sighting_run obj X ws os); try done;
    [|apply plain_no_clash; [done|apply reserved_nodes]].
  destruct w as [[nd adj|nd adj] log]; simpl.
  - destruct (edge_calls_multi X (sighting_calls obj ws os)
                (nx.update_at (KStr X) obj nd) adj log)
      as (nd' & adj' & new & -> & _). done.
  - destruct (edge_calls_simple X (sighting_calls obj ws os)
                (nx.update_at (KStr X) obj nd) adj log)
      as (nd' & -> & _). done.
Qed.

Lemma embedded_returns rc (obj : dict) :
  (∀ (emb : dict) K (V : dict),
     obj !! "objects" = Some (JDict emb) → emb !! K = Some (JDict V) →
     V !! "self" = None ∧ V !! "node_for_adding" = None) →
  returns (for_ (extract_stix20_embedded_scos rc obj) _add_node).
Proof.
  intros Hemb. apply returns_for, Forall_forall. intros sco Hsco.
  unfold extract_stix20_embedded_scos in Hsco.
  destruct (get_or obj "objects" (JDict ∅)) as [| | | | |emb] eqn:Hobj;
    try by apply elem_of_nil in Hsco.
  apply list_elem_of_omap in Hsco as ([K v] & Hin & Hs).
  apply elem_of_map_to_list in Hin.
  apply embedded_sco_Some in Hs as (V & -> & _ & ->).
  eapply _add_node_returns; [apply lookup_insert_eq|].
  unfold get_or in Hobj. destruct (obj !! "objects") as [o|] eqn:Ho.
  - simpl in Hobj. subst o. destruct (Hemb emb K V eq_refl Hin) as [H1 H2].
    unfold nx.clashes. simpl.
    rewrite !lookup_insert_ne by done. rewrite H1, H2. done.
  - simpl in Hobj. injection Hobj as <-. by rewrite lookup_empty in Hin.
Qed.

Lemma convert_object_returns rc inc o :
  well_typed o → returns (convert_object rc inc o).
Proof.
  destruct o as [| | | | |obj]; try (intros _; apply returns_logger).
  intros (Hp & Hty & Hid & Hs & Ht & Hso & Hws & Hos & Hemb).
  destruct Hty as [Hty|[s Hty]].
  { intros w. exists tt. unfold convert_object, get. by rewrite Hty. }
  destruct (decide (s = EmptyString)) as [->|Hs'].
  { intros w. exists tt. unfold convert_object, get. by rewrite Hty. }
  assert (obj !! "id" = None ∨ obj !! "id" = Some (JStr EmptyString)
          ∨ ∃ X, X ≠ EmptyString ∧ obj !! "id" = Some (JStr X)) as Hcases.
  { destruct Hid as [Hid|[X Hid]]; [by left|].
    destruct (decide (X = EmptyString)) as [->|]; eauto. }
  assert (nx.clashes ["self"; "node_for_adding"] obj = false) as Hcn
    by (apply plain_no_clash; [done|apply reserved_nodes]).
  destruct Hcases as [Hn|[Hn|(X & HX & Hn)]].
  1,2: intros w; exists tt;
    rewrite (convert_object_no_id rc inc obj s w Hty Hs')
      by (unfold get; by rewrite Hn);
    by destruct (bool_decide (s ∈ SKIP_TYPES)).
  assert (truthy (get obj "id") = true) as Htr.
  { unfold get. rewrite Hn. by apply truthy_str. }
  rewrite (convert_object_classified rc inc obj s Hty Hs' Htr).
  destruct (classify s); simpl.
  - apply returns_ret.
  - by apply _add_relationship_returns.
  - by apply (_add_sighting_returns obj X).
  - apply returns_bind; [by apply (_add_node_returns obj X)|]. intros _.
    apply returns_if; [by apply embedded_returns|apply returns_ret].
  - apply returns_if; [by apply (_add_node_returns obj X)|apply returns_ret].
  - apply returns_bind; [apply returns_logger|]. intros _.
    by apply (_add_node_returns obj X).
Qed.

(** X3: a bundle that is a dict never makes [convert_bundle] raise when
    the objects in its list are well typed: whatever is missing, empty,
    unknown or not a dict among them is skipped or added, and the call
    returns. *)
Theorem well_typed_bundle_returns rc inc (bundle : dict) w :
  (∀ objects, bundle !! "objects" = Some (JList objects) →
     Forall well_typed objects) →
  (convert_bundle rc (JDict bundle) inc w).2 = Return tt.
Proof.
  intros Hwt. unfold convert_bundle, py_get, get_or.
  unfold mbind, M_bind, lift.
  destruct (bundle !! "objects") as [v|] eqn:Hv; simpl; [|done].
  destruct v as [| | | |objects|]; try done.
  destruct (returns_for objects (convert_object rc inc)) with (w := w)
    as [[] Hr]; [|done].
  eapply Forall_impl; [by apply Hwt|]. intros; by apply convert_object_returns.
Qed.

Lemma well_typed_bundle_returns_witness :
  (convert_bundle (λ _, EmptyString)
     (JDict {["objects" :=
                JList [JNum 5;
                       JDict {["type" := JStr "malware";
                               "id" := JStr "malware--1"]}]]})
     true (World (nx.MultiDiGraph ∅ ∅) [])).2 = Return tt.
Proof.
  apply well_typed_bundle_returns. intros objects H.
  rewrite lookup_singleton_eq in H. injection H as <-.
  apply Forall_cons. split; [exact I|].
  apply Forall_cons. split; [|by apply Forall_nil].
  split.
  { unfold plain, reserved.
    repeat (apply Forall_cons; split; [vm_compute; reflexivity|]).
    by apply Forall_nil. }
  split; [right; by exists "malware"|].
  split; [right; by exists "malware--1"|].
  split; [by left|]. split; [by left|]. split; [by left|].
  split; [by exists []|]. split; [by exists []|].
  intros emb K V H. vm_compute in H. discriminate.
Defined.

(** ** A declared type that is not a string *)

Lemma for_raises {S A} (pre post : list A) (x : A) (f : A → M S unit)
    w w1 w2 e :
  for_ pre f w = (w1, Return tt) → f x w1 = (w2, Raise e) →
  for_ (pre ++ x :: post) f w = (w2, Raise e).
Proof.
  intros Hpre Hx. rewrite for_app, Hpre, for_cons, Hx. done.
Qed.

Lemma odd_type_raises rc inc (obj : dict) v w :
  obj !! "type" = Some v → odd_type v → truthy (get obj "id") = true →
  convert_object rc inc (JDict obj) w =
    (w, Raise match v with
              | JList _ | JDict _ => TypeError
              | _ => AttributeError
              end).
Proof.
  intros Hty [Htr Hns] Hid. unfold convert_object.
  assert (get obj "type" = v) as -> by (unfold get; by rewrite Hty).
  rewrite Htr, Hid. simpl.
  unfold is_skippable, is_relationship, is_sighting, is_sdo, get_or, get.
  rewrite Hty. simpl.
  destruct v as [| | |s| |]; try done; by destruct (Hns s).
Qed.

(** X4: an object with an identifier whose declared type is there and is
    neither a string nor false makes the conversion of its bundle raise:
    [TypeError] for a list or a dict, [AttributeError] for a number or
    [True]; the objects before it have been converted, the object itself
    and the objects after it are not, and the graph and the log are left
    as they were after the objects before it. *)
Theorem odd_type_aborts_bundle rc inc (bundle : dict)
    (pre : list json) (obj : dict) (post : list json) v w w1 :
  bundle !! "objects" = Some (JList (pre ++ JDict obj :: post)) →
  obj !! "type" = Some v → odd_type v → truthy (get obj "id") = true →
  for_ pre (convert_object rc inc) w = (w1, Return tt) →
  convert_bundle rc (JDict bundle) inc w =
    (w1, Raise match v with
               | JList _ | JDict _ => TypeError
               | _ => AttributeError
               end).
Proof.
  intros Hb Hty Hodd Hid Hpre. unfold convert_bundle, py_get, get_or.
  rewrite Hb. simpl. unfold mbind, M_bind, lift.
  apply (for_raises pre post (JDict obj) _ w w1 w1); [done|].
  by apply odd_type_raises.
Qed.

Lemma odd_type_aborts_bundle_witness :
  let actor : dict :=
    {["type" := JStr "threat-actor"; "id" := JStr "threat-actor--1"]} in
  let odd : dict := {["type" := JNum 5; "id" := JStr "x--1"]} in
  let later : dict := {["type" := JStr "malware"; "id" := JStr "malware--1"]} in
  let w := World (nx.DiGraph ∅ ∅) [] in
  convert_bundle (λ _, EmptyString)
    (JDict {["objects" := JList ([JDict actor] ++ JDict odd :: [JDict later])]})
    true w =
  ((for_ [JDict actor] (convert_object (λ _, EmptyString) true) w).1,
   Raise AttributeError).
Proof.
  intros actor odd later w.
  apply (odd_type_aborts_bundle (λ _, EmptyString) true _ [JDict actor] odd
           [JDict later] (JNum 5) w).
  - apply lookup_singleton_eq.
  - vm_compute; reflexivity.
  - split; [reflexivity|discriminate].
  - vm_compute; reflexivity.
  - vm_compute; reflexivity.
Defined.

(** ** The endpoints of a relationship *)

Lemma add_edge_strings_nodes (s t : string) attr g :
  nx.nodes (nx.add_edge (JStr s) (JStr t) attr g).1 = nx.nodes g ∨
  nx.nodes (nx.add_edge (JStr s) (JStr t) attr g).1 =
    nx.touch (KStr t) (nx.touch (KStr s) (nx.nodes g)).
Proof.
  destruct g as [nd adj|nd adj]; unfold nx.add_edge.
  - destruct (nx.clashes _ _); [by left|]. simpl.
    destruct (get attr "key"); simpl; auto; destruct (key_of _); simpl; auto.
  - destruct (nx.clashes _ _); [by left|]. simpl. auto.
Qed.

Lemma add_edge_returns_nodes (s t : string) attr g :
  (nx.add_edge (JStr s) (JStr t) attr g).2 = Return tt →
  nx.nodes (nx.add_edge (JStr s) (JStr t) attr g).1 =
    nx.touch (KStr t) (nx.touch (KStr s) (nx.nodes g)).
Proof.
  destruct g as [nd adj|nd adj]; unfold nx.add_edge.
  - destruct (nx.clashes _ _); [done|]. simpl.
    destruct (get attr "key"); simpl; auto; destruct (key_of _); simpl; auto.
  - destruct (nx.clashes _ _); [done|]. simpl. auto.
Qed.

Lemma touch_lookup_eq k (nd : gmap pykey dict) :
  nx.touch k nd !! k = Some (default ∅ (nd !! k)).
Proof.
  unfold nx.touch. destruct (nd !! k) eqn:Hk; [by rewrite Hk|].
  by rewrite lookup_insert_eq.
Qed.

Lemma touch_lookup_ne k k' (nd : gmap pykey dict) :
  k ≠ k' → nx.touch k nd !! k' = nd !! k'.
Proof.
  intros Hne. unfold nx.touch. destruct (nd !! k); [done|].
  by rewrite lookup_insert_ne.
Qed.

(** X5: a relationship between two non-empty string references changes
    the attributes of no node; what it can add to the nodes are its two
    endpoints, each with no attributes when it was not a node before.
    When the call returns, both endpoints are nodes. *)
Theorem relationship_touches_only_endpoints (obj : dict) (s t : string) w :
  obj !! "source_ref" = Some (JStr s) → s ≠ EmptyString →
  obj !! "target_ref" = Some (JStr t) → t ≠ EmptyString →
  (∀ k a, nx.nodes (graph w) !! k = Some a →
     nx.nodes (graph (_add_relationship obj w).1) !! k = Some a) ∧
  (∀ k a, nx.nodes (graph (_add_relationship obj w).1) !! k = Some a →
     nx.nodes (graph w) !! k = Some a ∨
     (a = ∅ ∧ (k = KStr s ∨ k = KStr t))) ∧
  ((_add_relationship obj w).2 = Return tt →
     nx.nodes (graph (_add_relationship obj w).1) !! KStr s =
       Some (default ∅ (nx.nodes (graph w) !! KStr s)) ∧
     nx.nodes (graph (_add_relationship obj w).1) !! KStr t =
       Some (default ∅ (nx.nodes (graph w) !! KStr t))).
Proof.
  intros Hs Hs' Ht Ht'. rewrite (_add_relationship_run obj s t) by done.
  unfold on_graph.
  pose proof (add_edge_strings_nodes s t (edge_attrs obj) (graph w)) as Hn.
  pose proof (add_edge_returns_nodes s t (edge_attrs obj) (graph w)) as Hr.
  destruct (nx.add_edge (JStr s) (JStr t) (edge_attrs obj) (graph w))
    as [g' r]. simpl in *.
  split; [|split].
  - intros k a Ha. destruct Hn as [->| ->]; [done|].
    by apply touch_lookup_Some, touch_lookup_Some.
  - intros k a Ha. destruct Hn as [Hn|Hn]; rewrite Hn in Ha; [by left|].
    destruct (nx.nodes (graph w) !! k) as [a0|] eqn:Hk.
    + left. rewrite (touch_lookup_Some _ _ _ a0) in Ha; [done|].
      by apply touch_lookup_Some.
    + right. split.
      * apply lookup_touch in Ha as [Ha| ->]; [|done].
        apply lookup_touch in Ha as [Ha| ->]; [congruence|done].
      * destruct (decide (k = KStr s)); [by left|]. right.
        destruct (decide (k = KStr t)); [done|]. exfalso.
        rewrite !touch_lookup_ne in Ha by done. congruence.
  - intros Hret. rewrite (Hr Hret). split.
    + destruct (decide (KStr t = KStr s)) as [Heq|Hne].
      * rewrite Heq. rewrite touch_lookup_eq, touch_lookup_eq. done.
      * rewrite touch_lookup_ne by done. apply touch_lookup_eq.
    + rewrite touch_lookup_eq.
      destruct (decide (KStr s = KStr t)) as [Heq|Hne].
      * rewrite Heq. by rewrite touch_lookup_eq.
      * by rewrite touch_lookup_ne.
Qed.

Lemma relationship_touches_only_endpoints_witness :
  let obj : dict :=
    {["type" := JStr "relationship"; "id" := JStr "relationship--1";
      "source_ref" := JStr "a--1"; "target_ref" := JStr "b--1"]} in
  let w := World (nx.MultiDiGraph ∅ ∅) [] in
  (∀ k a, nx.nodes (graph w) !! k = Some a →
     nx.nodes (graph (_add_relationship obj w).1) !! k = Some a) ∧
  (∀ k a, nx.nodes (graph (_add_relationship obj w).1) !! k = Some a →
     nx.nodes (graph w) !! k = Some a ∨
     (a = ∅ ∧ (k = KStr "a--1" ∨ k = KStr "b--1"))) ∧
  ((_add_relationship obj w).2 = Return tt →
     nx.nodes (graph (_add_relationship obj w).1) !! KStr "a--1" =
       Some (default ∅ (nx.nodes (graph w) !! KStr "a--1")) ∧
     nx.nodes (graph (_add_relationship obj w).1) !! KStr "b--1" =
       Some (default ∅ (nx.nodes (graph w) !! KStr "b--1"))).
Proof.
  intros obj w.
  apply (relationship_touches_only_endpoints obj "a--1" "b--1" w);
    by vm_compute.
Defined.

(** ** Reference lists that are not lists *)






Lemma _add_sighting_after_node (obj : dict) (X : string) w :
  obj !! "id" = Some (JStr X) →
  nx.clashes ["self"; "node_for_adding"] obj = false →
  _add_sighting obj w =
    sighting_edges (JStr X) obj
      (World (nx.set_nodes (nx.update_at (KStr X) obj (nx.nodes (graph w)))
                (graph w)) (records w)).
Proof.
  intros Hid Hc. rewrite _add_sighting_split.
  unfold getitem. rewrite Hid, _obj_to_attrs_id.
  unfold mbind at 1, M_bind at 1, lift at 1.
  unfold mbind at 1, M_bind at 1, on_graph at 1.
  by rewrite (add_node_ok (JStr X) (KStr X)) by done.
Qed.

Lemma edge_call_returns (X : string) c w :
  ∃ w', edge_call (JStr X) c w = (w', Return tt).
Proof.
  destruct c as [t tag]. destruct w as [[nd adj|nd adj] log];
    unfold edge_call, on_graph; simpl graph; cbn [fst snd].
  - rewrite (add_edge_multi (JStr X) (JStr t) (KStr X) (KStr t)) by done.
    by eexists.
  - rewrite (add_edge_simple (JStr X) (JStr t) (KStr X) (KStr t)) by done.
    by eexists.
Qed.

(** X7: a [where_sighted_refs] that is [null], a boolean or a number makes
    [_add_sighting] raise [TypeError]; by then the node of the sighting
    has been written, so the graph is left with it, and nothing is
    logged. *)
Theorem where_sighted_not_iterable_raises (obj : dict) (X : string) v w :
  obj !! "id" = Some (JStr X) →
  nx.clashes ["self"; "node_for_adding"] obj = false →
  str_or_missing obj "sighting_of_ref" →
  obj !! "where_sighted_refs" = Some v → not_iterable v →
  (_add_sighting obj w).2 = Raise TypeError ∧
  nx.nodes (graph (_add_sighting obj w).1) !! KStr X =
    Some (obj ∪ default ∅ (nx.nodes (graph w) !! KStr X)) ∧
  records (_add_sighting obj w).1 = records w.
Proof.
  intros Hid Hc Hso Hws Hv. rewrite (_add_sighting_after_node obj X) by done.
  set (w1 := World _ _).
  assert (nx.nodes (graph w1) !! KStr X =
          Some (obj ∪ default ∅ (nx.nodes (graph w) !! KStr X))) as Hnode.
  { unfold w1. simpl. rewrite nodes_set_nodes. unfold nx.update_at.
    by rewrite lookup_insert_eq. }
  assert (iter (get_or obj "where_sighted_refs" (JList []))
          = Raise TypeError) as Hiter.
  { unfold get_or. rewrite Hws. by destruct v. }
  split; [|split].
  - unfold sighting_edges. rewrite Hiter.
    assert (get obj "sighting_of_ref" = JNull ∨
            ∃ t, get obj "sighting_of_ref" = JStr t) as [Hg|[t Hg]].
    { unfold get. destruct Hso as [H|[t H]]; rewrite H; simpl; eauto. }
    + by rewrite Hg.
    + rewrite Hg. destruct (truthy (JStr t)); [|done].
      unfold mbind at 1, M_bind at 1.
      destruct (edge_call_returns X (t, "sighting_of") w1) as [w2 Hw2].
      unfold edge_call in Hw2. cbn [fst snd] in Hw2. by rewrite Hw2.
  - apply (kept_lookup (KStr X) (graph w1)); [done| |].
    + apply sighting_edges_preserves; [apply _|].
      intros; apply add_edge_same_attrs.
    + apply sighting_edges_preserves; [apply _|].
      intros; apply add_edge_grows.
  - destruct (_add_sighting_appends obj w) as (l & Hl & Hlen).
    rewrite (_add_sighting_after_node obj X) in Hl by done.
    subst w1. rewrite Hl. destruct l; [by rewrite app_nil_r|simpl in Hlen; lia].
Qed.

Lemma where_sighted_not_iterable_raises_witness :
  let obj : dict :=
    {["type" := JStr "sighting"; "id" := JStr "sighting--1";
      "where_sighted_refs" := JNum 5]} in
  let run := _add_sighting obj (World (nx.DiGraph ∅ ∅) []) in
  run.2 = Raise TypeError ∧
  nx.nodes (graph run.1) !! KStr "sighting--1" =
    Some (obj ∪ default ∅ ((∅ : gmap pykey dict) !! KStr "sighting--1")) ∧
  records run.1 = [].
Proof.
  intros obj run.
  apply (where_sighted_not_iterable_raises obj "sighting--1" (JNum 5)
           (World (nx.DiGraph ∅ ∅) [])).
  - vm_compute; reflexivity.
  - vm_compute; reflexivity.
  - left. vm_compute; reflexivity.
  - vm_compute; reflexivity.
  - exact I.
Defined.

(** ** The predicates of utils.py on a declared type string *)

Local Ltac each_member H :=
  rewrite elem_of_list_to_set in H;
  repeat (apply elem_of_cons in H as [->|H]; [vm_compute; lia|]);
  by apply elem_of_nil in H.

Lemma type_flags_exclusive (s : string) :
  Nat.b2n (bool_decide (s ∈ SKIP_TYPES))
  + Nat.b2n (String.eqb s "relationship")
  + Nat.b2n (String.eqb s "sighting")
  + Nat.b2n (bool_decide (s ∈ SDO_TYPES) || String.prefix "x-mitre-" s)
  + Nat.b2n (bool_decide (s ∈ SCO_TYPES)) ≤ 1.
Proof.
  destruct (bool_decide (s ∈ SKIP_TYPES)) eqn:H1.
  { clear -H1. apply bool_decide_eq_true in H1. unfold SKIP_TYPES in H1.
    each_member H1. }
  destruct (String.eqb s "relationship") eqn:H2.
  { apply String.eqb_eq in H2 as ->. vm_compute; lia. }
  destruct (String.eqb s "sighting") eqn:H3.
  { apply String.eqb_eq in H3 as ->. vm_compute; lia. }
  destruct (bool_decide (s ∈ SDO_TYPES)) eqn:H4.
  { clear -H4. apply bool_decide_eq_true in H4. unfold SDO_TYPES in H4.
    each_member H4. }
  destruct (bool_decide (s ∈ SCO_TYPES)) eqn:H5.
  { clear -H5. apply bool_decide_eq_true in H5. unfold SCO_TYPES in H5.
    each_member H5. }
  simpl. destruct (String.prefix "x-mitre-" s); simpl; lia.
Qed.

Lemma type_flags_unknown (s : string) :
  Nat.b2n (bool_decide (s ∈ SKIP_TYPES))
  + Nat.b2n (String.eqb s "relationship")
  + Nat.b2n (String.eqb s "sighting")
  + Nat.b2n (bool_decide (s ∈ SDO_TYPES) || String.prefix "x-mitre-" s)
  + Nat.b2n (bool_decide (s ∈ SCO_TYPES)) = 0
  ↔ classify s = unknown.
Proof.
  unfold classify.
  destruct (bool_decide (s ∈ SKIP_TYPES)); [simpl; split; [lia|done]|].
  destruct (String.eqb s "relationship"); [simpl; split; [lia|done]|].
  destruct (String.eqb s "sighting"); [simpl; split; [lia|done]|].
  destruct (bool_decide (s ∈ SDO_TYPES) || String.prefix "x-mitre-" s);
    [simpl; split; [lia|done]|].
  destruct (bool_decide (s ∈ SCO_TYPES)); simpl; split; (lia || done).
Qed.

(** X8: on an object whose declared type is a string, the five predicates
    of utils.py all return, and at most one of them holds: the order in
    which the converter asks them does not matter.  None holds exactly for
    the types the converter treats as unknown. *)
Theorem type_predicates_exclusive (obj : dict) (s : string) :
  obj !! "type" = Some (JStr s) →
  ∃ skip sdo sco,
    is_skippable obj = Return skip ∧ is_sdo obj = Return sdo ∧
    is_sco obj = Return sco ∧
    Nat.b2n skip + Nat.b2n (is_relationship obj)
    + Nat.b2n (is_sighting obj) + Nat.b2n sdo + Nat.b2n sco ≤ 1 ∧
    (Nat.b2n skip + Nat.b2n (is_relationship obj)
     + Nat.b2n (is_sighting obj) + Nat.b2n sdo + Nat.b2n sco = 0
     ↔ classify s = unknown).
Proof.
  intros Hty. eexists _, _, _.
  split; [by apply is_skippable_str|].
  split; [by apply is_sdo_str|].
  split; [by apply is_sco_str|].
  unfold is_relationship, is_sighting. rewrite (get_type_str _ _ Hty).
  unfold eq_str.
  split; [apply type_flags_exclusive|apply type_flags_unknown].
Qed.

Lemma type_predicates_exclusive_witness :
  let obj : dict := {["type" := JStr "x-mitre-tactic"]} in
  ∃ skip sdo sco,
    is_skippable obj = Return skip ∧ is_sdo obj = Return sdo ∧
    is_sco obj = Return sco ∧
    Nat.b2n skip + Nat.b2n (is_relationship obj)
    + Nat.b2n (is_sighting obj) + Nat.b2n sdo + Nat.b2n sco ≤ 1 ∧
    (Nat.b2n skip + Nat.b2n (is_relationship obj)
     + Nat.b2n (is_sighting obj) + Nat.b2n sdo + Nat.b2n sco = 0
     ↔ classify "x-mitre-tactic" = unknown).
Proof.
  intros obj. apply (type_predicates_exclusive obj "x-mitre-tactic").
  vm_compute; reflexivity.
Defined.

(** ** The identifiers the extractor makes *)

Lemma embedded_sco_id rc parent_id K v (sco : dict) :
  embedded_sco rc parent_id (K, v) = Some sco →
  sco !! "id" = Some (JStr (str rc parent_id +:+ "--embedded-" +:+ K)).
Proof.
  intros (V & -> & _ & ->)%embedded_sco_Some. apply lookup_insert_eq.
Qed.

Lemma embedded_ids_NoDup rc parent_id (l : list (string * json)) :
  NoDup l.*1 →
  NoDup ((λ sco : dict, sco !! "id") <$> omap (embedded_sco rc parent_id) l).
Proof.
  induction l as [|[K v] l IH]; [intros _; apply NoDup_nil_2|].
  rewrite fmap_cons. intros [HK Hl]%NoDup_cons. specialize (IH Hl).
  cbn [omap list_omap].
  destruct (embedded_sco rc parent_id (K, v)) as [sco|] eqn:Hs;
    [|exact IH].
  rewrite fmap_cons. apply NoDup_cons. split; [|exact IH].
  rewrite (embedded_sco_id _ _ _ _ _ Hs).
  intros (sco' & Hid & Hin)%list_elem_of_fmap.
  apply list_elem_of_omap in Hin as ([K' v'] & Hin & Hs').
  rewrite (embedded_sco_id _ _ _ _ _ Hs') in Hid. injection Hid as Hid.
  apply (inj (String.app (str rc parent_id))),
        (inj (String.app "--embedded-")) in Hid.
  subst K'. apply HK, list_elem_of_fmap. by exists (K, v').
Qed.

Lemma omap_length_le {A B} (f : A → option B) (l : list A) :
  length (omap f l) ≤ length l.
Proof.
  induction l as [|x l IH]; [done|]. cbn [omap list_omap].
  fold (omap f l). destruct (f x); cbn [length]; lia.
Qed.

Lemma extracted_ids_NoDup rc (observed_data : dict) :
  NoDup ((λ sco : dict, sco !! "id")
           <$> extract_stix20_embedded_scos rc observed_data).
Proof.
  unfold extract_stix20_embedded_scos.
  destruct (get_or observed_data "objects" (JDict ∅)); try apply NoDup_nil_2.
  apply embedded_ids_NoDup, NoDup_fst_map_to_list.
Qed.

Lemma extracted_ids_strings rc (observed_data : dict) :
  Forall (λ sco : dict, ∃ i, sco !! "id" = Some (JStr i))
    (extract_stix20_embedded_scos rc observed_data).
Proof.
  unfold extract_stix20_embedded_scos.
  destruct (get_or observed_data "objects" (JDict ∅));
    try by apply Forall_nil.
  apply Forall_forall. intros sco ([K v] & _ & Hs)%list_elem_of_omap.
  rewrite (embedded_sco_id _ _ _ _ _ Hs). eauto.
Qed.

(** X9: the objects the extractor returns have pairwise distinct
    identifiers, each a string, whatever the observation is; there are at
    most as many as the observation has embedded entries; and when the
    observation has no [id] the identifiers start with
    [observed-data--unknown--embedded-]. *)
Theorem embedded_ids_distinct rc (observed_data : dict) :
  NoDup ((λ sco : dict, sco !! "id")
           <$> extract_stix20_embedded_scos rc observed_data) ∧
  Forall (λ sco : dict, ∃ i, sco !! "id" = Some (JStr i))
    (extract_stix20_embedded_scos rc observed_data) ∧
  length (extract_stix20_embedded_scos rc observed_data)
    ≤ match observed_data !! "objects" with
      | Some (JDict embedded) => size embedded
      | _ => 0
      end ∧
  (observed_data !! "id" = None →
   Forall (λ sco : dict, ∃ K,
             sco !! "id" =
               Some (JStr ("observed-data--unknown--embedded-" +:+ K)))
     (extract_stix20_embedded_scos rc observed_data)).
Proof.
  split; [apply extracted_ids_NoDup|].
  split; [apply extracted_ids_strings|].
  unfold extract_stix20_embedded_scos, get_or.
  destruct (observed_data !! "objects") as [[| | | | |embedded]|] eqn:Ho;
    simpl; try (split; [lia|intros _; by apply Forall_nil]).
  - split.
    + rewrite <- length_map_to_list. apply omap_length_le.
    + intros Hid. rewrite Hid. simpl. apply Forall_forall.
      intros sco ([K v] & _ & Hs)%list_elem_of_omap.
      rewrite (embedded_sco_id _ _ _ _ _ Hs). by exists K.
  - rewrite map_to_list_empty. simpl.
    split; [lia|intros _; by apply Forall_nil].
Qed.

Lemma embedded_ids_distinct_witness :
  let observed_data : dict :=
    {["type" := JStr "observed-data";
      "objects" := JDict {["0" := JDict {["type" := JStr "ipv4-addr"]}]}]} in
  Forall (λ sco : dict, ∃ K,
            sco !! "id" =
              Some (JStr ("observed-data--unknown--embedded-" +:+ K)))
    (extract_stix20_embedded_scos (λ _, EmptyString) observed_data).
Proof.
  intros observed_data.
  apply (embedded_ids_distinct (λ _, EmptyString) observed_data).
  vm_compute; reflexivity.
Defined.

(** ** The nodes of embedded observables *)

Lemma nodes_written (l : list dict) :
  NoDup ((λ sco : dict, sco !! "id") <$> l) →
  Forall (λ sco : dict,
            (∃ i, sco !! "id" = Some (JStr i)) ∧
            nx.clashes ["self"; "node_for_adding"] sco = false) l →
  ∀ w, ∃ w',
    for_ l _add_node w = (w', Return tt) ∧ records w' = records w ∧
    ∀ (sco : dict) i, sco ∈ l → sco !! "id" = Some (JStr i) →
      nx.nodes (graph w') !! KStr i =
        Some (sco ∪ default ∅ (nx.nodes (graph w) !! KStr i)).
Proof.
  induction l as [|sco0 l IH]; intros Hnd Hall w.
  { exists w. split; [done|]. split; [done|]. intros sco i Hin.
    by apply elem_of_nil in Hin. }
  rewrite fmap_cons in Hnd. apply NoDup_cons in Hnd as [Hfresh Hnd].
  apply Forall_cons in Hall as [[[i0 Hid0] Hc0] Hall].
  destruct (_add_node_lookup sco0 i0 w Hid0 Hc0) as (w1 & Hrun & Hlook).
  pose proof (_add_node_run sco0 (JStr i0) (KStr i0) w Hid0 eq_refl Hc0)
    as Hrun'.
  destruct (IH Hnd Hall w1) as (w' & Hfor & Hrec & Hnodes).
  assert (Forall (λ sco : dict, ∀ n, sco !! "id" = Some n → n ≠ JStr i0) l)
    as Hothers.
  { apply Forall_forall. intros sco Hin n Hn ->. apply Hfresh.
    apply list_elem_of_fmap. exists sco. by rewrite Hn, Hid0. }
  exists w'. split; [|split].
  - rewrite for_cons. unfold mbind, M_bind. by rewrite Hrun.
  - rewrite Hrec. rewrite Hrun' in Hrun. by injection Hrun as <-.
  - intros sco i [->|Hin]%elem_of_cons Hid.
    + rewrite Hid0 in Hid. injection Hid as <-.
      replace w' with (for_ l _add_node w1).1 by by rewrite Hfor.
      apply (kept_lookup (KStr i0) (graph w1)); [done| |].
      * apply (preserves_for (same_attrs (KStr i0))).
        eapply Forall_impl; [exact Hothers|]. intros sco Hsco.
        apply _add_node_preserves; [apply _|].
        intros n Hn. by apply add_node_same_attrs, Hsco.
      * apply (preserves_for grows), Forall_forall. intros sco _.
        apply _add_node_preserves; [apply _|]. intros; apply add_node_grows.
    + rewrite (Hnodes sco i Hin Hid). do 3 f_equal.
      rewrite Hrun' in Hrun. injection Hrun as <-. simpl.
      rewrite nodes_set_nodes. unfold nx.update_at.
      rewrite lookup_insert_ne; [done|]. intros [= Heq].
      rewrite Forall_forall in Hothers.
      apply (Hothers sco Hin (JStr i) Hid). by rewrite Heq.
Qed.

(** X10: when observables are included, an observation with a non-empty
    string identifier is converted without an exception and without a log
    record, and every object the extractor returns for it becomes a node
    keyed by its synthetic identifier, holding the fields of the embedded
    object laid over what that node held before.  When observables are
    left out the observation is added like any other domain object and
    nothing of what is embedded reaches the graph. *)
Theorem embedded_observables_become_nodes rc (obj : dict) (X : string) w :
  obj !! "type" = Some (JStr "observed-data") →
  obj !! "id" = Some (JStr X) → X ≠ EmptyString →
  nx.clashes ["self"; "node_for_adding"] obj = false →
  Forall (λ sco : dict, nx.clashes ["self"; "node_for_adding"] sco = false)
    (extract_stix20_embedded_scos rc obj) →
  (convert_object rc true (JDict obj) w).2 = Return tt ∧
  records (convert_object rc true (JDict obj) w).1 = records w ∧
  (∀ (sco : dict) i,
     sco ∈ extract_stix20_embedded_scos rc obj →
     sco !! "id" = Some (JStr i) →
     nx.nodes (graph (convert_object rc true (JDict obj) w).1) !! KStr i =
       Some (sco ∪ default ∅ (nx.nodes (graph w) !! KStr i))) ∧
  convert_object rc false (JDict obj) w = _add_node obj w.
Proof.
  intros Hty Hid HX Hc Hemb.
  assert (truthy (get obj "id") = true) as Htr.
  { unfold get. rewrite Hid. by apply truthy_str. }
  rewrite !(convert_object_classified rc _ obj "observed-data" Hty) by done.
  change (classify "observed-data") with domain_object.
  unfold materialize. rewrite (get_type_str _ _ Hty).
  change (eq_str (JStr "observed-data") "observed-data") with true.
  cbn [andb].
  pose proof (_add_node_run obj (JStr X) (KStr X) w Hid eq_refl Hc) as Hrun.
  set (w1 := World _ _) in Hrun.
  pose proof (extracted_ids_NoDup rc obj) as Hnd.
  pose proof (extracted_ids_strings rc obj) as Hstr.
  destruct (nodes_written (extract_stix20_embedded_scos rc obj) Hnd
              ltac:(apply Forall_forall; intros sco Hin;
                    rewrite Forall_forall in Hstr, Hemb; split; auto) w1)
    as (w' & Hfor & Hrec & Hnodes).
  unfold mbind, M_bind. rewrite Hrun, Hfor. simpl.
  split; [done|]. split; [by rewrite Hrec|]. split; [|done].
  intros sco i Hin Hi. rewrite (Hnodes sco i Hin Hi). do 3 f_equal.
  unfold w1. simpl. rewrite nodes_set_nodes. unfold nx.update_at.
  rewrite lookup_insert_ne; [done|]. intros [= Heq].
  pose proof (embedded_ids_differ rc obj X Hid) as Hd.
  rewrite Forall_forall in Hd. apply (Hd sco Hin (JStr i) Hi).
  by rewrite Heq.
Qed.

Lemma embedded_observables_become_nodes_witness :
  let ip : dict := {["type" := JStr "ipv4-addr"; "value" := JStr "1.2.3.4"]} in
  let obj : dict :=
    {["type" := JStr "observed-data"; "id" := JStr "observed-data--X";
      "objects" := JDict {["0" := JDict ip]}]} in
  let w := World (nx.DiGraph ∅ ∅) [] in
  (convert_object (λ _, EmptyString) true (JDict obj) w).2 = Return tt.
Proof.
  intros ip obj w.
  apply (embedded_observables_become_nodes (λ _, EmptyString) obj "observed-data--X" w).
  - vm_compute; reflexivity.
  - vm_compute; reflexivity.
  - done.
  - vm_compute; reflexivity.
  - apply Forall_cons; split; [vm_compute; reflexivity|by apply Forall_nil].
Defined.

(** ** What parsing can do *)

Section sources.

Variable loads : string → option json.
Variable load : string → option json.
Variables isdir isfile : string → bool.
Variable glob_json : string → list string.

Lemma _parse_file_cases p w :
  (∃ d, _parse_file load isfile p w = (w, Return (JDict d)) ∧
        load p = Some (JDict d) ∧ isfile p = true) ∨
  (_parse_file load isfile p w = (w, Raise FileNotFoundError) ∧ isfile p = false) ∨
  (_parse_file load isfile p w = (w, Raise ValueError) ∧ isfile p = true).
Proof.
  unfold _parse_file. destruct (isfile p); simpl; [|by right; left].
  destruct (load p) as [[| | | | |d]|]; try (by right; right).
  left. by exists d.
Qed.

Lemma parse_element_cases x w :
  (∃ s d, x = JStr s ∧ loads s = Some (JDict d) ∧
          parse_element loads x w = (w, Return (JDict d))) ∨
  (parse_element loads x w = (w, Raise ValueError) ∧
   ∀ s d, x = JStr s → loads s ≠ Some (JDict d)).
Proof.
  unfold parse_element. destruct x as [| | |s| |]; try by right.
  destruct (loads s) as [[| | | | |d]|] eqn:Hl;
    try (right; split; [done|]; intros s' d' [= <-]; by rewrite Hl).
  left. by exists s, d.
Qed.

Lemma for_each_cons {S A B} (x : A) (l : list A) (f : A → M S B) s :
  for_each (x :: l) f s =
    match f x s with
    | (s1, Return y) =>
        match for_each l f s1 with
        | (s2, Return ys) => (s2, Return (y :: ys))
        | (s2, Raise e) => (s2, Raise e)
        end
    | (s1, Raise e) => (s1, Raise e)
    end.
Proof.
  cbn [for_each]. unfold mbind, M_bind.
  destruct (f x s) as [s1 [y|e]]; [|done].
  by destruct (for_each l f s1) as [s2 [ys|e]].
Qed.

(** Each element of a list of files or of strings is read in turn: the
    result is the list of the dicts read, or the first failure. *)
Lemma for_each_files (files : list string) w :
  (∃ bundles,
     for_each files (_parse_file load isfile) w = (w, Return bundles) ∧
     Forall2 (λ p b, ∃ d, b = JDict d ∧ isfile p = true ∧
                          load p = Some (JDict d)) files bundles)
  ∨ (∃ e, for_each files (_parse_file load isfile) w = (w, Raise e) ∧
       (e = ValueError ∨ e = FileNotFoundError) ∧
       Exists (λ p, isfile p = true → ∀ d, load p ≠ Some (JDict d)) files).
Proof.
  induction files as [|p files IH].
  { left. exists []. split; [done|]. apply Forall2_nil_2. }
  rewrite for_each_cons.
  assert (_parse_file load isfile p w =
            (w, if isfile p
                then match load p with
                     | Some (JDict d) => Return (JDict d)
                     | _ => Raise ValueError
                     end
                else Raise FileNotFoundError)) as ->.
  { unfold _parse_file. destruct (isfile p); simpl; [|done].
    by destruct (load p) as [[]|]. }
  destruct (isfile p) eqn:Hfile.
  - destruct (load p) as [[| | | | |d]|] eqn:Hload;
      try (right; exists ValueError; split; [done|]; split; [by left|];
           apply Exists_cons_hd; intros _ d'; by rewrite Hload).
    destruct IH as [(bundles & -> & Hall)|(e & -> & He & Hex)].
    + left. exists (JDict d :: bundles). split; [done|].
      apply Forall2_cons; split; [by exists d|done].
    + right. exists e. split; [done|]. split; [done|].
      by apply Exists_cons_tl.
  - right. exists FileNotFoundError. split; [done|]. split; [by right|].
    apply Exists_cons_hd. congruence.
Qed.

Lemma for_each_strings (l : list json) w :
  (∃ bundles, for_each l (parse_element loads) w = (w, Return bundles) ∧
     Forall2 (λ x b, ∃ s d, x = JStr s ∧ loads s = Some (JDict d) ∧
                            b = JDict d) l bundles)
  ∨ (for_each l (parse_element loads) w = (w, Raise ValueError) ∧
     Exists (λ x, ∀ s d, x = JStr s → loads s ≠ Some (JDict d)) l).
Proof.
  induction l as [|x l IH].
  { left. exists []. split; [done|]. apply Forall2_nil_2. }
  rewrite for_each_cons.
  destruct (parse_element_cases x w) as [(s & d & -> & Hd & ->)|[-> Hx]].
  - destruct IH as [(bundles & -> & Hall)|(-> & Hex)].
    + left. exists (JDict d :: bundles). split; [done|].
      apply Forall2_cons; split; [by exists s, d|done].
    + right. split; [done|]. by apply Exists_cons_tl.
  - right. split; [done|]. by apply Exists_cons_hd.
Qed.

(** X11: whatever the source is, [parse_source] leaves the graph alone,
    raises nothing but [ValueError] and [FileNotFoundError], the second
    only for a source that is a string, and logs nothing, except one
    warning for a directory without [.json] files, for which it returns
    the empty list. *)
Theorem parse_source_effects (source : json) w :
  graph (parse_source loads load isdir isfile glob_json source w).1
    = graph w ∧
  (∀ e,
     (parse_source loads load isdir isfile glob_json source w).2 = Raise e →
     e = ValueError ∨ (e = FileNotFoundError ∧ ∃ p, source = JStr p)) ∧
  (records (parse_source loads load isdir isfile glob_json source w).1
     = records w ∨
   (records (parse_source loads load isdir isfile glob_json source w).1
      = records w ++ [(WARNING, NoJsonFiles)] ∧
    (parse_source loads load isdir isfile glob_json source w).2
      = Return [] ∧
    ∃ p, source = JStr p ∧ isdir p = true ∧ glob_json p = [])).
Proof.
  split.
  { symmetry. apply (parse_source_graph loads load isdir isfile glob_json). }
  assert (∀ (ws : world * outcome (list json)),
            ws = (w, Raise ValueError) →
            (∀ e, ws.2 = Raise e →
               e = ValueError ∨ (e = FileNotFoundError ∧ ∃ p, source = JStr p)) ∧
            (records ws.1 = records w ∨
             (records ws.1 = records w ++ [(WARNING, NoJsonFiles)] ∧
              ws.2 = Return [] ∧
              ∃ p, source = JStr p ∧ isdir p = true ∧ glob_json p = [])))
    as Hvalue.
  { intros ws ->. split; [|by left]. intros e [= <-]. by left. }
  assert (∀ (ws : world * outcome (list json)) bundles,
            ws = (w, Return bundles) →
            (∀ e, ws.2 = Raise e →
               e = ValueError ∨ (e = FileNotFoundError ∧ ∃ p, source = JStr p)) ∧
            (records ws.1 = records w ∨
             (records ws.1 = records w ++ [(WARNING, NoJsonFiles)] ∧
              ws.2 = Return [] ∧
              ∃ p, source = JStr p ∧ isdir p = true ∧ glob_json p = [])))
    as Hreturn.
  { intros ws bundles ->. split; [done|by left]. }
  destruct source as [| | |p|l|]; try by apply Hvalue.
  - unfold parse_source, _parse_string_source, _parse_directory.
    destruct (isdir p) eqn:Hdir.
    + destruct (glob_json p) as [|f files] eqn:Hg.
      * split; [done|]. right. split; [done|]. split; [done|]. by exists p.
      * destruct (for_each_files (f :: files) w)
          as [(bundles & Hrun & _)|(e & Hrun & He & _)].
        -- by apply (Hreturn _ bundles).
        -- destruct He as [-> | ->]; [by apply Hvalue|].
           rewrite Hrun. split; [|by left]. intros e' [= <-].
           right. split; [done|]. by exists p.
    + destruct (endswith p ".json" || isfile p); [|by apply Hvalue].
      unfold mbind, M_bind.
      destruct (_parse_file_cases p w) as [(d & -> & _)|[[-> _]|[-> _]]].
      * by apply (Hreturn _ [JDict d]).
      * split; [|by left]. intros e [= <-]. right. split; [done|]. by exists p.
      * by apply Hvalue.
  - unfold parse_source, _parse_list_source.
    destruct l as [|first l]; [by apply (Hreturn _ [])|].
    destruct first as [| | |s| |d]; try by apply Hvalue.
    + destruct (for_each_strings (JStr s :: l) w)
        as [(bundles & Hrun & _)|(Hrun & _)].
      * by apply (Hreturn _ bundles).
      * by apply Hvalue.
    + by apply (Hreturn _ (JDict d :: l)).
Qed.

(** X12: a list that starts with a string is a list of JSON texts: it is
    parsed to the list of the objects its elements stand for, one for
    each and in their order, exactly when every element is a string whose
    text is a JSON object; otherwise [ValueError] is raised.  Either way
    neither the graph nor the log is touched. *)
Theorem parse_source_json_strings (s0 : string) (rest : list json) w :
  (∀ bundles,
     parse_source loads load isdir isfile glob_json
       (JList (JStr s0 :: rest)) w = (w, Return bundles) ↔
     Forall2 (λ x b, ∃ s d, x = JStr s ∧ loads s = Some (JDict d) ∧
                            b = JDict d) (JStr s0 :: rest) bundles) ∧
  (parse_source loads load isdir isfile glob_json
     (JList (JStr s0 :: rest)) w = (w, Raise ValueError) ↔
   Exists (λ x, ∀ s d, x = JStr s → loads s ≠ Some (JDict d))
     (JStr s0 :: rest)) ∧
  ((∃ bundles,
      parse_source loads load isdir isfile glob_json
        (JList (JStr s0 :: rest)) w = (w, Return bundles))
   ∨ parse_source loads load isdir isfile glob_json
       (JList (JStr s0 :: rest)) w = (w, Raise ValueError)).
Proof.
  change (parse_source loads load isdir isfile glob_json
            (JList (JStr s0 :: rest)) w)
    with (for_each (JStr s0 :: rest) (parse_element loads) w).
  set (R := λ (x b : json), ∃ s d, x = JStr s ∧ loads s = Some (JDict d) ∧
                                   b = JDict d).
  assert (∀ l b1 b2, Forall2 R l b1 → Forall2 R l b2 → b1 = b2) as Hfun.
  { induction l as [|x l IH]; intros b1 b2 H1 H2.
    - apply Forall2_nil_inv_l in H1, H2. by subst.
    - apply Forall2_cons_inv_l in H1 as (y1 & l1 & Hy1 & Hl1 & ->).
      apply Forall2_cons_inv_l in H2 as (y2 & l2 & Hy2 & Hl2 & ->).
      destruct Hy1 as (s1 & d1 & -> & Hd1 & ->).
      destruct Hy2 as (s2 & d2 & [= <-] & Hd2 & ->).
      rewrite Hd1 in Hd2. injection Hd2 as <-. f_equal. by apply IH. }
  assert (∀ l bs, Forall2 R l bs →
            ¬ Exists (λ x, ∀ s d, x = JStr s → loads s ≠ Some (JDict d)) l)
    as Hexcl.
  { intros l bs Hall Hex. apply Exists_exists in Hex as (x & Hx & Hbad).
    apply list_elem_of_lookup in Hx as [i Hi].
    destruct (Forall2_lookup_l _ _ _ _ _ Hall Hi) as (b & _ & s & d & -> & Hd & _).
    by apply (Hbad s d). }
  destruct (for_each_strings (JStr s0 :: rest) w)
    as [(bundles & Hrun & Hall)|(Hrun & Hex)]; rewrite Hrun.
  - split; [|split].
    + intros bs. split.
      * by intros [= <-].
      * intros Hbs. by rewrite (Hfun _ _ _ Hall Hbs).
    + split; [done|]. intros Hex. by destruct (Hexcl _ _ Hall Hex).
    + left. by exists bundles.
  - split; [|split].
    + intros bs. split; [done|]. intros Hbs. by destruct (Hexcl _ _ Hbs Hex).
    + done.
    + by right.
Qed.

(** X13: for a path that is no directory, a file that is not there is
    reported by [FileNotFoundError] only when the path ends in [.json];
    any other path that is not there is a [ValueError].  A file that is
    there gives the one object in it, or [ValueError] when it does not
    hold a JSON object.  Nothing is logged. *)
Theorem parse_source_path (p : string) w :
  isdir p = false →
  parse_source loads load isdir isfile glob_json (JStr p) w =
    (w, if isfile p
        then match load p with
             | Some (JDict d) => Return [JDict d]
             | _ => Raise ValueError
             end
        else if endswith p ".json" then Raise FileNotFoundError
             else Raise ValueError).
Proof.
  intros Hdir. unfold parse_source, _parse_string_source.
  rewrite Hdir. unfold _parse_file, mbind, M_bind.
  destruct (isfile p); simpl.
  - rewrite orb_true_r. simpl.
    by destruct (load p) as [[| | | | |d]|].
  - rewrite orb_false_r. by destruct (endswith p ".json").
Qed.

(** X14: a directory without [.json] files gives the empty list and one
    warning.  A directory with such files is read file by file in the
    order of the sorted glob: the call returns, with one object for each
    file and nothing logged, exactly when every one of them is a file
    holding a JSON object; otherwise it raises. *)
Theorem parse_source_directory (p : string) w :
  isdir p = true →
  (glob_json p = [] →
   parse_source loads load isdir isfile glob_json (JStr p) w =
     (World (graph w) (records w ++ [(WARNING, NoJsonFiles)]), Return [])) ∧
  (glob_json p ≠ [] →
   (∀ bundles,
      parse_source loads load isdir isfile glob_json (JStr p) w
        = (w, Return bundles) ↔
      Forall2 (λ f b, ∃ d, b = JDict d ∧ isfile f = true ∧
                           load f = Some (JDict d))
        (glob_json p) bundles) ∧
   ((∃ bundles,
       parse_source loads load isdir isfile glob_json (JStr p) w
         = (w, Return bundles))
    ∨ ∃ e, parse_source loads load isdir isfile glob_json (JStr p) w
             = (w, Raise e))).
Proof.
  intros Hdir. unfold parse_source, _parse_string_source, _parse_directory.
  rewrite Hdir. split.
  { by intros ->. }
  intros Hne. destruct (glob_json p) as [|f files]; [done|]. clear Hne.
  set (R := λ (f : string) (b : json),
              ∃ d, b = JDict d ∧ isfile f = true ∧ load f = Some (JDict d)).
  assert (∀ l b1 b2, Forall2 R l b1 → Forall2 R l b2 → b1 = b2) as Hfun.
  { induction l as [|x l IH]; intros b1 b2 H1 H2.
    - apply Forall2_nil_inv_l in H1, H2. by subst.
    - apply Forall2_cons_inv_l in H1 as (y1 & l1 & Hy1 & Hl1 & ->).
      apply Forall2_cons_inv_l in H2 as (y2 & l2 & Hy2 & Hl2 & ->).
      destruct Hy1 as (d1 & -> & _ & Hd1).
      destruct Hy2 as (d2 & -> & _ & Hd2).
      rewrite Hd1 in Hd2. injection Hd2 as <-. f_equal. by apply IH. }
  destruct (for_each_files (f :: files) w)
    as [(bundles & Hrun & Hall)|(e & Hrun & _ & Hex)]; rewrite Hrun.
  - split; [|left; by exists bundles]. intros bs. split.
    + by intros [= <-].
    + intros Hbs. by rewrite (Hfun _ _ _ Hall Hbs).
  - split; [|right; by exists e]. intros bs. split; [done|]. intros Hbs.
    exfalso. apply Exists_exists in Hex as (x & Hx & Hbad).
    apply list_elem_of_lookup in Hx as [i Hi].
    destruct (Forall2_lookup_l _ _ _ _ _ Hbs Hi) as (b & _ & d & _ & Hf & Hd).
    by apply (Hbad Hf d).
Qed.

End sources.

Lemma parse_source_path_witness :
  parse_source (λ _, None) (λ _, None) (λ _, false) (λ _, false) (λ _, [])
    (JStr "bundle.json") (World (nx.DiGraph ∅ ∅) []) =
  (World (nx.DiGraph ∅ ∅) [], Raise FileNotFoundError).
Proof.
  apply (parse_source_path (λ _, None) (λ _, None) (λ _, false) (λ _, false)
           (λ _, []) "bundle.json" (World (nx.DiGraph ∅ ∅) [])).
  reflexivity.
Defined.

Lemma parse_source_directory_witness :
  parse_source (λ _, None) (λ _, None) (λ _, true) (λ _, false) (λ _, [])
    (JStr "bundles") (World (nx.DiGraph ∅ ∅) []) =
  (World (nx.DiGraph ∅ ∅) [(WARNING, NoJsonFiles)], Return []).
Proof.
  apply (parse_source_directory (λ _, None) (λ _, None) (λ _, true)
           (λ _, false) (λ _, []) "bundles" (World (nx.DiGraph ∅ ∅) []));
    reflexivity.
Defined.

(** ** Edges come from relationships and sightings only *)

Global Instance same_edges_preorder : PreOrder same_edges.
Proof.
  split.
  - by intros [].
  - intros [] [] []; simpl; try done; congruence.
Qed.

Lemma add_node_same_edges n attr : preserves_g same_edges (nx.add_node n attr).
Proof.
  intros g. destruct (add_node_shape n attr g) as [->|(k & _ & ->)]; [done|].
  by destruct g.
Qed.

Lemma _add_node_same_edges obj : preserves same_edges (_add_node obj).
Proof.
  apply _add_node_preserves; [apply _|]. intros; apply add_node_same_edges.
Qed.

Ltac quiet :=
  first [apply preserves_logger | apply preserves_ret | apply preserves_lift];
  apply _.

Lemma convert_object_same_edges rc inc o :
  links_nothing o → preserves same_edges (convert_object rc inc o).
Proof.
  destruct o as [| | | | |obj]; try (intros _; quiet).
  intros [Hr Hs]. unfold convert_object. rewrite Hr, Hs.
  apply preserves_if; [quiet|].
  apply preserves_if.
  { apply preserves_bind; [apply _|quiet|intros sk].
    apply preserves_if; quiet. }
  apply preserves_bind; [apply _|quiet|intros sk].
  apply preserves_if; [quiet|].
  apply preserves_bind; [apply _|quiet|intros sdo].
  apply preserves_if.
  { apply preserves_bind; [apply _|apply _add_node_same_edges|intros _].
    apply preserves_if; [|quiet].
    apply preserves_for; [apply _|]. apply Forall_forall.
    intros; apply _add_node_same_edges. }
  apply preserves_bind; [apply _|quiet|intros sco].
  apply preserves_if.
  { apply preserves_if; [apply _add_node_same_edges|quiet]. }
  apply preserves_bind; [apply _|quiet|intros _].
  apply _add_node_same_edges.
Qed.

(** X15: a bundle none of whose objects is a relationship or a sighting
    leaves the edges of the graph exactly as they were, attributes
    included, whether it is converted to the end or raises: no other kind
    of object adds, changes or removes an edge. *)
Theorem edges_only_from_links rc inc (bundle : json) w :
  Forall links_nothing (objects_of bundle) →
  same_edges (graph w) (graph (convert_bundle rc bundle inc w).1).
Proof.
  intros Hall. revert w. fold (preserves same_edges (convert_bundle rc bundle inc)).
  unfold convert_bundle.
  apply preserves_lift_bind; [apply _|]. intros objects Hobj.
  destruct bundle as [| | | | |b]; try done. simpl in Hobj, Hall.
  injection Hobj as <-.
  destruct (get_or b "objects" (JList [])); try quiet.
  apply preserves_for; [apply _|].
  eapply Forall_impl; [exact Hall|]. intros o Ho.
  by apply convert_object_same_edges.
Qed.

Lemma edges_only_from_links_witness :
  let bundle :=
    JDict {["objects" := JList [JDict {["type" := JStr "malware";
                                        "id" := JStr "malware--1"]}]]} in
  let w := World (nx.DiGraph ∅ ∅) [] in
  same_edges (graph w) (graph (convert_bundle (λ _, EmptyString) bundle true w).1).
Proof.
  intros bundle w. apply (edges_only_from_links (λ _, EmptyString) true bundle w).
  apply Forall_cons; split; [by vm_compute|by apply Forall_nil].
Defined.

(** ** Nodes come from the identifiers the objects name *)

Global Instance within_preorder K : PreOrder (within K).
Proof.
  split.
  - intros g. unfold within. apply union_subseteq_l.
  - intros g1 g2 g3 H12 H23. unfold within in *. etrans; [exact H23|].
    apply union_least; [exact H12|apply union_subseteq_r].
Qed.

Lemma keys_of_named (vs : list json) (K : gset pykey) v k :
  keys_of vs ⊆ K → v ∈ vs → key_of v = Some k → k ∈ K.
Proof.
  intros HK Hv Hk. apply HK. unfold keys_of. apply elem_of_list_to_set.
  apply list_elem_of_omap. by exists v.
Qed.

Lemma add_node_within K n attr :
  (∀ k, key_of n = Some k → k ∈ K) →
  preserves_g (within K) (nx.add_node n attr).
Proof.
  intros Hn g. destruct (add_node_shape n attr g) as [->|(k & Hk & ->)];
    [reflexivity|].
  unfold within. rewrite nodes_set_nodes. unfold nx.update_at.
  rewrite dom_insert. apply as_node_key_of, Hn in Hk.
  apply union_least; [|apply union_subseteq_l].
  apply singleton_subseteq_l, elem_of_union. by right.
Qed.

Lemma add_edge_touched u v attr g :
  ∃ ks, nx.nodes (nx.add_edge u v attr g).1 = foldr nx.touch (nx.nodes g) ks ∧
    ∀ k, k ∈ ks → key_of u = Some k ∨ key_of v = Some k.
Proof.
  assert (∀ k : pykey, k ∈ @nil pykey → key_of u = Some k ∨ key_of v = Some k)
    as Hnil by (intros k Hk; by apply elem_of_nil in Hk).
  destruct g as [nd adj|nd adj]; unfold nx.add_edge.
  - destruct (nx.clashes _ _); [by exists []|].
    destruct (nx.as_node u) as [ku|] eqn:Hu; [|by exists []].
    apply as_node_key_of in Hu.
    destruct (nx.as_node v) as [kv|] eqn:Hv.
    + apply as_node_key_of in Hv. exists [kv; ku]. split.
      * destruct (get attr "key"); simpl; auto; destruct (key_of _); done.
      * intros k [->|Hk]%elem_of_cons; [by right|].
        apply list_elem_of_singleton in Hk as ->. by left.
    + exists [ku]. split; [done|].
      intros k ->%list_elem_of_singleton. by left.
  - destruct (nx.clashes _ _); [by exists []|].
    destruct (nx.as_node u) as [ku|] eqn:Hu; [|by exists []].
    apply as_node_key_of in Hu.
    destruct (nx.as_node v) as [kv|] eqn:Hv.
    + apply as_node_key_of in Hv. exists [kv; ku]. split; [done|].
      intros k [->|Hk]%elem_of_cons; [by right|].
      apply list_elem_of_singleton in Hk as ->. by left.
    + exists [ku]. split; [done|].
      intros k ->%list_elem_of_singleton. by left.
Qed.

Lemma dom_touches_within ks (nd : gmap pykey dict) :
  dom (foldr nx.touch nd ks) ⊆ dom nd ∪ list_to_set ks.
Proof.
  induction ks as [|k ks IH]; simpl; [apply union_subseteq_l|].
  assert (dom nd ∪ list_to_set ks ⊆ dom nd ∪ ({[k]} ∪ list_to_set ks))
    as Hmono by apply union_mono_l, union_subseteq_r.
  unfold nx.touch at 1. destruct (foldr nx.touch nd ks !! k).
  - by etrans.
  - rewrite dom_insert. apply union_least; [|by etrans].
    apply singleton_subseteq_l, elem_of_union. right.
    apply elem_of_union. left. by apply elem_of_singleton.
Qed.

Lemma add_edge_within K u v attr :
  (∀ k, key_of u = Some k → k ∈ K) → (∀ k, key_of v = Some k → k ∈ K) →
  preserves_g (within K) (nx.add_edge u v attr).
Proof.
  intros Hu Hv g. unfold within.
  destruct (add_edge_touched u v attr g) as (ks & -> & Hks).
  etrans; [apply dom_touches_within|].
  apply union_mono_l. intros k Hk%elem_of_list_to_set.
  destruct (Hks k Hk); auto.
Qed.

Lemma _add_relationship_within K (obj : dict) :
  (∀ k, key_of (get obj "source_ref") = Some k → k ∈ K) →
  (∀ k, key_of (get obj "target_ref") = Some k → k ∈ K) →
  preserves (within K) (_add_relationship obj).
Proof.
  intros Hs Ht. unfold _add_relationship.
  apply preserves_if; [quiet|].
  by apply preserves_on_graph, add_edge_within.
Qed.

Lemma _add_sighting_within K (obj : dict) :
  (∀ v, v ∈ [get obj "id"; get obj "sighting_of_ref"]
            ++ iterated (get_or obj "where_sighted_refs" (JList []))
            ++ iterated (get_or obj "observed_data_refs" (JList [])) →
        ∀ k, key_of v = Some k → k ∈ K) →
  preserves (within K) (_add_sighting obj).
Proof.
  intros HK. unfold _add_sighting.
  apply preserves_lift_bind; [apply _|]. intros n Hn.
  assert (n = get obj "id") as ->.
  { unfold getitem in Hn. unfold get. by destruct (obj !! "id"); simplify_eq. }
  assert (∀ k, key_of (get obj "id") = Some k → k ∈ K) as Hid.
  { apply HK. apply elem_of_app. left. apply list_elem_of_In. simpl. tauto. }
  apply preserves_bind; [apply _| |intros _].
  { by apply preserves_on_graph, add_node_within. }
  apply preserves_bind; [apply _| |intros _].
  { apply preserves_if; [|quiet].
    apply preserves_on_graph, add_edge_within; [done|].
    apply HK. apply elem_of_app. left. apply list_elem_of_In. simpl. tauto. }
  apply preserves_lift_bind; [apply _|]. intros ws Hws.
  apply preserves_bind; [apply _| |intros _].
  { apply preserves_for; [apply _|]. apply Forall_forall. intros ref Href.
    apply preserves_on_graph, add_edge_within; [done|].
    apply HK. apply elem_of_app. right. apply elem_of_app. left.
    unfold iterated. by rewrite Hws. }
  apply preserves_lift_bind; [apply _|]. intros os Hos.
  apply preserves_for; [apply _|]. apply Forall_forall. intros ref Href.
  apply preserves_on_graph, add_edge_within; [done|].
  apply HK. apply elem_of_app. right. apply elem_of_app. right.
  unfold iterated. by rewrite Hos.
Qed.

Lemma _add_node_within K (obj : dict) :
  (∀ k, key_of (get obj "id") = Some k → k ∈ K) →
  preserves (within K) (_add_node obj).
Proof.
  intros Hid. apply _add_node_preserves; [apply _|]. intros n Hn.
  apply add_node_within. unfold get in Hid. by rewrite Hn in Hid.
Qed.

Lemma convert_object_within rc inc o K :
  keys_of (mentions rc o) ⊆ K → preserves (within K) (convert_object rc inc o).
Proof.
  intros HK. apply convert_object_preserves; [apply _|]. intros obj ->.
  pose proof (λ v k, keys_of_named _ _ v k HK) as Hnamed. simpl in Hnamed.
  split; [|split; [|split]].
  - apply _add_node_within. intros k. apply Hnamed.
    apply list_elem_of_In. simpl. tauto.
  - apply _add_relationship_within; intros k; apply Hnamed;
      apply list_elem_of_In; simpl; tauto.
  - apply _add_sighting_within. intros v Hv k. apply Hnamed.
    apply elem_of_app in Hv as [Hv|Hv].
    + apply list_elem_of_In in Hv. apply list_elem_of_In. simpl in *. tauto.
    + do 4 (apply elem_of_cons; right).
      apply elem_of_app in Hv as [Hv|Hv]; apply elem_of_app; [by left|right].
      apply elem_of_app. by left.
  - apply Forall_forall. intros sco Hsco. apply _add_node_within.
    intros k. apply Hnamed. do 4 (apply elem_of_cons; right).
    apply elem_of_app. right. apply elem_of_app. right.
    apply list_elem_of_fmap. by exists sco.
Qed.

(** X16: whatever a bundle holds, and whether its conversion ends or
    raises, every node of the graph afterwards was a node before or is
    keyed by a value one of the bundle's objects names: its [id], one of
    its references, or the identifier made for an observable embedded in
    it.  The converter makes up no other node. *)
Theorem nodes_only_from_mentions rc inc (bundle : json) w :
  dom (nx.nodes (graph (convert_bundle rc bundle inc w).1))
    ⊆ dom (nx.nodes (graph w))
      ∪ keys_of (objects_of bundle ≫= mentions rc).
Proof.
  revert w.
  change (preserves (within (keys_of (objects_of bundle ≫= mentions rc)))
            (convert_bundle rc bundle inc)).
  unfold convert_bundle.
  apply preserves_lift_bind; [apply _|]. intros objects Hobj.
  destruct bundle as [| | | | |b]; try done. simpl in Hobj.
  injection Hobj as <-. unfold objects_of.
  destruct (get_or b "objects" (JList [])) as [| | | |objects|]; try quiet.
  apply preserves_for; [apply _|]. apply Forall_forall. intros o Ho.
  apply convert_object_within. unfold keys_of.
  intros k (v & Hv & Hk)%elem_of_list_to_set%list_elem_of_omap.
  apply elem_of_list_to_set, list_elem_of_omap. exists v. split; [|done].
  apply list_elem_of_bind. by exists o.
Qed.

(** ** The entry point *)

Lemma for_raises_at {S A} (l : list A) (f : A → M S unit) (x : A) :
  x ∈ l → (∀ s, ∃ e, (f x s).2 = Raise e) →
  ∀ s, ∃ e, (for_ l f s).2 = Raise e.
Proof.
  intros Hx Hf. induction l as [|y l IH]; intros s.
  { by apply elem_of_nil in Hx. }
  rewrite for_cons.
  destruct (f y s) as [s1 [[]|e]] eqn:Hy; [|by exists e].
  apply elem_of_cons in Hx as [->|Hx]; [|by apply IH].
  destruct (Hf s) as [e He]. by rewrite Hy in He.
Qed.

Section entry.

Variable loads : string → option json.
Variable load : string → option json.
Variables isdir isfile : string → bool.
Variable glob_json : string → list string.
Variable repr_container : json → string.

(** X17: [stix_to_graph] with a [graph_type] other than the two it knows
    raises [ValueError] before it looks at the source and logs nothing;
    when it returns a graph, the graph is of the kind asked for, a
    multigraph for [multidigraph] and a simple graph for [digraph]; and
    from the empty list it returns the empty graph. *)
Theorem stix_to_graph_kind (source : json) (graph_type : string) inc log :
  (graph_type ≠ "multidigraph" → graph_type ≠ "digraph" →
   stix_to_graph loads load isdir isfile glob_json repr_container source
     graph_type inc log = (log, Raise ValueError)) ∧
  (∀ log' g,
     stix_to_graph loads load isdir isfile glob_json repr_container source
       graph_type inc log = (log', Return g) →
     (graph_type = "multidigraph" ∧ ∃ nd adj, g = nx.MultiDiGraph nd adj) ∨
     (graph_type = "digraph" ∧ ∃ nd adj, g = nx.DiGraph nd adj)) ∧
  (source = JList [] →
   stix_to_graph loads load isdir isfile glob_json repr_container source
     graph_type inc log =
   (log, if String.eqb graph_type "multidigraph"
         then Return (nx.MultiDiGraph ∅ ∅)
         else if String.eqb graph_type "digraph"
              then Return (nx.DiGraph ∅ ∅)
              else Raise ValueError)).
Proof.
  split; [|split].
  - intros H1%String.eqb_neq H2%String.eqb_neq. unfold stix_to_graph.
    by rewrite H1, H2.
  - intros log' g. unfold stix_to_graph.
    assert (∀ g0,
      (let '(w, r) :=
         (parse_source loads load isdir isfile glob_json source
            ≫= λ bundles, convert_bundles repr_container inc bundles)
           (World g0 log) in
       (records w,
        match r with Return _ => Return (graph w) | Raise e => Raise e end))
      = (log', Return g) → grows g0 g) as Hrun.
    { intros g0. unfold mbind, M_bind.
      pose proof (parse_source_graph loads load isdir isfile glob_json source
                    (World g0 log)) as Hp.
      destruct (parse_source _ _ _ _ _ _ _) as [w1 [bundles|e]];
        simpl in Hp; [|done].
      pose proof (convert_bundles_preserves grows repr_container inc bundles
                    ltac:(intros; apply convert_bundle_grows) w1) as Hc.
      destruct (convert_bundles repr_container inc bundles w1)
        as [w2 [[]|e]]; [|done].
      intros [= _ <-]. by rewrite Hp. }
    destruct (String.eqb graph_type "multidigraph") eqn:H1.
    { intros Hg%Hrun. left. split; [by apply String.eqb_eq|].
      destruct g; [eauto|done]. }
    destruct (String.eqb graph_type "digraph") eqn:H2; [|done].
    intros Hg%Hrun. right. split; [by apply String.eqb_eq|].
    destruct g; [done|eauto].
  - intros ->. unfold stix_to_graph.
    destruct (String.eqb graph_type "multidigraph"); [done|].
    by destruct (String.eqb graph_type "digraph").
Qed.

(** X18: the elements of a list that starts with a dict are not checked
    when the list is parsed, and one that is not a dict is caught only
    when its turn to be converted comes: [stix_to_graph] then never
    returns a graph.  It raises [AttributeError], unless the graph type
    was refused or a bundle before that element raised first, and what the
    bundles before it added to the graph stays added. *)
Theorem unchecked_element_raises (d : dict) (pre post : list json) (x : json)
    (graph_type : string) inc log :
  (∀ b, x ≠ JDict b) →
  (∃ e,
     (stix_to_graph loads load isdir isfile glob_json repr_container
        (JList (JDict d :: pre ++ x :: post)) graph_type inc log).2
     = Raise e) ∧
  (∀ w w1,
     convert_bundles repr_container inc (JDict d :: pre) w = (w1, Return tt) →
     convert_bundles repr_container inc (JDict d :: pre ++ x :: post) w
       = (w1, Raise AttributeError)).
Proof.
  intros Hx.
  assert (∀ w, convert_bundle repr_container x inc w = (w, Raise AttributeError))
    as Hraise.
  { intros w. destruct x; try done. by destruct (Hx d0). }
  split.
  - unfold stix_to_graph.
    assert (∀ g0, ∃ e,
      (let '(w, r) :=
         (parse_source loads load isdir isfile glob_json
            (JList (JDict d :: pre ++ x :: post))
            ≫= λ bundles, convert_bundles repr_container inc bundles)
           (World g0 log) in
       (records w,
        match r with Return _ => Return (graph w) | Raise e => Raise e end)).2
      = Raise e) as Hrun.
    { intros g0. unfold mbind, M_bind. cbn [parse_source _parse_list_source].
      unfold mret, M_ret.
      destruct (for_raises_at (JDict d :: pre ++ x :: post)
                  (λ bundle, convert_bundle repr_container bundle inc) x)
        with (s := World g0 log) as [e He].
      { apply elem_of_cons. right. apply elem_of_app. right.
        apply elem_of_cons. by left. }
      { intros s. exists AttributeError. by rewrite Hraise. }
      unfold convert_bundles.
      destruct (for_ _ _ _) as [w2 r]. simpl in He. subst r. by exists e. }
    destruct (String.eqb graph_type "multidigraph"); [apply Hrun|].
    destruct (String.eqb graph_type "digraph"); [apply Hrun|].
    by exists ValueError.
  - intros w w1 Hpre. unfold convert_bundles in *.
    change (JDict d :: pre ++ x :: post)
      with ((JDict d :: pre) ++ x :: post).
    by apply (for_raises (JDict d :: pre) post x _ w w1 w1 AttributeError).
Qed.

End entry.

Lemma unchecked_element_raises_witness :
  ∃ e,
    (stix_to_graph (λ _, None) (λ _, None) (λ _, false) (λ _, false)
       (λ _, []) (λ _, EmptyString) (JList (JDict ∅ :: [] ++ JNum 5 :: []))
       "digraph" true []).2 = Raise e.
Proof.
  apply (unchecked_element_raises (λ _, None) (λ _, None) (λ _, false)
           (λ _, false) (λ _, []) (λ _, EmptyString) ∅ [] [] (JNum 5) "digraph" true []).
  done.
Defined.

Lemma stix_to_graph_kind_witness :
  stix_to_graph (λ _, None) (λ _, None) (λ _, false) (λ _, false)
    (λ _, []) (λ _, EmptyString) (JList []) "graph" true [] = ([], Raise ValueError).
Proof.
  apply (stix_to_graph_kind (λ _, None) (λ _, None) (λ _, false) (λ _, false)
           (λ _, []) (λ _, EmptyString) (JList []) "graph" true []); done.
Defined.

(** ** Leaving the observables out *)

Global Instance adds_nodes_only_preorder : PreOrder adds_nodes_only.
Proof.
  split.
  - by intros [].
  - intros [] [] []; simpl; try done; intros [? ->] [? ->];
      (split; [by etrans|done]).
Qed.

Lemma dom_touch_eq k (nd : gmap pykey dict) :
  dom (nx.touch k nd) = {[k]} ∪ dom nd.
Proof.
  unfold nx.touch. destruct (nd !! k) eqn:Hk; [|by rewrite dom_insert_L].
  apply leibniz_equiv. apply (anti_symm (⊆)); [apply union_subseteq_r|].
  apply union_least; [|done]. apply singleton_subseteq_l, elem_of_dom. eauto.
Qed.

Lemma dom_touch_mono k (nd nd' : gmap pykey dict) :
  dom nd ⊆ dom nd' → dom (nx.touch k nd) ⊆ dom (nx.touch k nd').
Proof. intros H. rewrite !dom_touch_eq. by apply union_mono_l. Qed.

Lemma dom_update_at_mono k attr (nd nd' : gmap pykey dict) :
  dom nd ⊆ dom nd' →
  dom (nx.update_at k attr nd) ⊆ dom (nx.update_at k attr nd').
Proof.
  intros H. unfold nx.update_at. rewrite !dom_insert_L. by apply union_mono_l.
Qed.

Lemma add_node_follows n attr :
  follows_g (nx.add_node n attr) (nx.add_node n attr).
Proof.
  intros g g' Hs g1' a. unfold nx.add_node.
  destruct (nx.clashes _ _); [done|].
  destruct (nx.as_node n) as [k|]; [|done]. intros [= <- <-].
  eexists. split; [done|].
  destruct g as [nd adj|nd adj], g' as [nd' adj'|nd' adj']; try done;
    destruct Hs as [Hd <-]; (split; [by apply dom_update_at_mono|done]).
Qed.

Lemma add_edge_follows u v attr :
  follows_g (nx.add_edge u v attr) (nx.add_edge u v attr).
Proof.
  intros g g' Hs g1' a.
  destruct g as [nd adj|nd adj], g' as [nd' adj'|nd' adj']; try done;
    destruct Hs as [Hd <-]; unfold nx.add_edge;
    (destruct (nx.clashes _ _); [done|]);
    (destruct (nx.as_node u) as [ku|]; [|done]);
    (destruct (nx.as_node v) as [kv|]; [|done]).
  - destruct (get attr "key"); simpl;
      try (destruct (key_of _); [|done]);
      intros [= <- <-]; (eexists; split; [done|]);
      (split; [by do 2 apply dom_touch_mono|done]).
  - intros [= <- <-]. eexists. split; [done|].
    split; [by do 2 apply dom_touch_mono|done].
Qed.

Lemma follows_ret {A} (a : A) : follows (mret a) (mret a).
Proof. intros w w' Hw w1' a' [= <- <-]. by exists w. Qed.

Lemma follows_lift {A} (o : outcome A) : follows (lift o) (lift o).
Proof. intros w w' Hw w1' a' [= <- ->]. by exists w. Qed.

Lemma follows_logger l m : follows (logger l m) (logger l m).
Proof.
  intros w w' [Hg Hr] w1' a' [= <- <-]. eexists. split; [done|].
  split; [done|]. simpl. by rewrite Hr.
Qed.

Lemma follows_on_graph {A} (c : M nx.graph A) :
  follows_g c c → follows (on_graph c) (on_graph c).
Proof.
  intros Hc w w' [Hg Hr] w1' a. unfold on_graph.
  destruct (c (graph w')) as [g1' r'] eqn:Hrun'. intros [= <- ->].
  destruct (Hc _ _ Hg _ _ Hrun') as (g1 & -> & Hg1).
  eexists. split; [done|]. by split.
Qed.

Lemma follows_bind {A B} (m m' : M world A) (f f' : A → M world B) :
  follows m m' → (∀ a, follows (f a) (f' a)) → follows (m ≫= f) (m' ≫= f').
Proof.
  intros Hm Hf w w' Hw w2' b. unfold mbind, M_bind.
  destruct (m' w') as [w1' [a|e]] eqn:Hrun'; [|done]. intros Hrun2'.
  destruct (Hm _ _ Hw _ _ Hrun') as (w1 & -> & Hw1).
  by apply (Hf a w1 w1').
Qed.

Lemma follows_for {A} (l : list A) (f f' : A → M world unit) :
  (∀ x, follows (f x) (f' x)) → follows (for_ l f) (for_ l f').
Proof.
  intros Hf. induction l as [|x l IH]; simpl.
  - apply follows_ret.
  - apply follows_bind; [apply Hf|]. by intros [].
Qed.

Lemma follows_if {A} (b : bool) (m1 m1' m2 m2' : M world A) :
  follows m1 m1' → follows m2 m2' →
  follows (if b then m1 else m2) (if b then m1' else m2').
Proof. by destruct b. Qed.

(** What only the second run does: it may add nodes and must not log. *)
Lemma follows_skip (m' : M world unit) :
  preserves adds_nodes_only m' → appends 0 m' → follows (mret tt) m'.
Proof.
  intros Hp Ha w w' [Hg Hr] w1' [] Hrun'. exists w. split; [done|].
  specialize (Hp w'). destruct (Ha w') as (l & Hl & Hlen).
  rewrite Hrun' in Hp, Hl. simpl in Hp, Hl.
  destruct l; [|simpl in Hlen; lia]. rewrite app_nil_r in Hl.
  split; [by etrans|congruence].
Qed.

Lemma follows_then_skip (m m' rest' : M world unit) :
  follows m m' → preserves adds_nodes_only rest' → appends 0 rest' →
  follows m (m';; rest').
Proof.
  intros Hm Hp Ha w w' Hw w2' [] Hrun'. unfold mbind, M_bind in Hrun'.
  destruct (m' w') as [w1' [[]|e]] eqn:Hm'; [|done].
  destruct (Hm _ _ Hw _ _ Hm') as (w1 & Hrun & Hw1).
  destruct (follows_skip rest' Hp Ha w1 w1' Hw1 w2' tt Hrun')
    as (w1_ & [= <-] & Hw2).
  by exists w1.
Qed.

Lemma add_node_adds_nodes_only n attr :
  preserves_g adds_nodes_only (nx.add_node n attr).
Proof.
  intros g. destruct (add_node_shape n attr g) as [->|(k & _ & ->)];
    [reflexivity|].
  destruct g; (split; [apply dom_update_at|done]).
Qed.

Lemma _add_node_adds_nodes_only obj :
  preserves adds_nodes_only (_add_node obj).
Proof.
  apply _add_node_preserves; [apply _|].
  intros; apply add_node_adds_nodes_only.
Qed.

Lemma _add_node_follows obj : follows (_add_node obj) (_add_node obj).
Proof.
  unfold _add_node. apply follows_bind; [apply follows_lift|]. intros n.
  apply follows_on_graph, add_node_follows.
Qed.

Lemma _add_relationship_follows obj :
  follows (_add_relationship obj) (_add_relationship obj).
Proof.
  unfold _add_relationship. apply follows_if; [apply follows_logger|].
  apply follows_on_graph, add_edge_follows.
Qed.

Lemma _add_sighting_follows obj :
  follows (_add_sighting obj) (_add_sighting obj).
Proof.
  unfold _add_sighting. apply follows_bind; [apply follows_lift|]. intros n.
  apply follows_bind; [apply follows_on_graph, add_node_follows|]. intros _.
  apply follows_bind.
  { apply follows_if; [apply follows_on_graph, add_edge_follows|
                       apply follows_ret]. }
  intros _. apply follows_bind; [apply follows_lift|]. intros ws.
  apply follows_bind.
  { apply follows_for. intros; apply follows_on_graph, add_edge_follows. }
  intros _. apply follows_bind; [apply follows_lift|]. intros os.
  apply follows_for. intros; apply follows_on_graph, add_edge_follows.
Qed.

Lemma convert_object_follows rc o :
  follows (convert_object rc false o) (convert_object rc true o).
Proof.
  destruct o as [| | | | |obj]; try apply follows_logger.
  unfold convert_object.
  apply follows_if; [apply follows_logger|].
  apply follows_if.
  { apply follows_bind; [apply follows_lift|]. intros sk.
    apply follows_if; [apply follows_logger|apply follows_ret]. }
  apply follows_bind; [apply follows_lift|]. intros sk.
  apply follows_if; [apply follows_ret|].
  apply follows_if; [apply _add_relationship_follows|].
  apply follows_if; [apply _add_sighting_follows|].
  apply follows_bind; [apply follows_lift|]. intros sdo.
  apply follows_if.
  { rewrite andb_false_r.
    destruct (eq_str (get obj "type") "observed-data" && true).
    - apply follows_bind; [apply _add_node_follows|]. intros [].
      apply follows_skip.
      + apply preserves_for; [apply _|]. apply Forall_forall.
        intros; apply _add_node_adds_nodes_only.
      + eapply appends_weaken;
          [|apply (appends_for 0); intros; apply _add_node_appends]. lia.
    - apply follows_bind; [apply _add_node_follows|]. intros [].
      apply follows_ret. }
  apply follows_bind; [apply follows_lift|]. intros sco.
  apply follows_if.
  { apply follows_skip;
      [apply _add_node_adds_nodes_only|apply _add_node_appends]. }
  apply follows_bind; [apply follows_logger|]. intros _.
  apply _add_node_follows.
Qed.

(** X19: leaving the observables out only leaves nodes out.  Whenever
    the conversion of a bundle with [include_scos] true returns, the
    conversion of the same bundle from the same state with [include_scos]
    false returns as well and logs the same records, and its graph has
    exactly the same edges, with the same keys and attributes, and no node
    the other graph has not. *)
Theorem observables_only_add_nodes rc (bundle : json) w w1 :
  convert_bundle rc bundle true w = (w1, Return tt) →
  ∃ w0,
    convert_bundle rc bundle false w = (w0, Return tt) ∧
    records w0 = records w1 ∧
    adds_nodes_only (graph w0) (graph w1).
Proof.
  intros Hrun.
  assert (follows (convert_bundle rc bundle false)
            (convert_bundle rc bundle true)) as Hf.
  { unfold convert_bundle. apply follows_bind; [apply follows_lift|].
    intros objects. destruct objects; try apply follows_logger.
    apply follows_for. intros; apply convert_object_follows. }
  destruct (Hf w w (conj (reflexivity _) eq_refl) w1 tt Hrun)
    as (w0 & Hrun0 & Hg & Hr).
  by exists w0.
Qed.

Lemma observables_only_add_nodes_witness :
  let bundle :=
    JDict {["objects" := JList [JDict {["type" := JStr "ipv4-addr";
                                        "id" := JStr "ipv4-addr--1"]}]]} in
  let w := World (nx.DiGraph ∅ ∅) [] in
  ∃ w0,
    convert_bundle (λ _, EmptyString) bundle false w = (w0, Return tt) ∧
    records w0 = records (convert_bundle (λ _, EmptyString) bundle true w).1 ∧
    adds_nodes_only (graph w0)
      (graph (convert_bundle (λ _, EmptyString) bundle true w).1).
Proof.
  intros bundle w.
  apply (observables_only_add_nodes (λ _, EmptyString) bundle w
           (convert_bundle (λ _, EmptyString) bundle true w).1).
  vm_compute; reflexivity.
Defined.

(** ** Bundle boundaries *)

Lemma convert_bundle_objects rc inc (bundle : json) w :
  has_object_list bundle →
  convert_bundle rc bundle inc w =
    for_ (objects_of bundle) (convert_object rc inc) w.
Proof.
  destruct bundle as [| | | | |b]; try done. unfold has_object_list.
  unfold convert_bundle, objects_of, py_get, get_or.
  destruct (b !! "objects") as [[| | | |l|]|]; try done.
Qed.

(** X20: bundle boundaries do not matter.  Converting a list of bundles,
    each a dict whose [objects] is a list or is not there, does exactly what
    converting the one bundle with all their objects in order does: the
    same graph, the same log and the same outcome, an exception
    included. *)
Theorem bundles_are_concatenated rc inc (bundles : list json) w :
  Forall has_object_list bundles →
  convert_bundles rc inc bundles w =
    convert_bundle rc
      (JDict {["objects" := JList (bundles ≫= objects_of)]}) inc w.
Proof.
  intros Hall.
  rewrite (convert_bundle_objects rc inc (JDict _) w)
    by (unfold has_object_list; by rewrite lookup_singleton_eq).
  unfold objects_of at 1, get_or. rewrite lookup_singleton_eq. simpl default.
  unfold convert_bundles. revert w.
  induction Hall as [|bundle bundles Hb _ IH]; intros w; [done|].
  rewrite for_cons, bind_cons, for_app, convert_bundle_objects by done.
  destruct (for_ (objects_of bundle) _ w) as [w1 [[]|e]]; [apply IH|done].
Qed.

Lemma bundles_are_concatenated_witness :
  let a : json := JDict {["type" := JStr "malware"; "id" := JStr "malware--1"]} in
  let b : json := JDict {["type" := JStr "tool"; "id" := JStr "tool--1"]} in
  let w := World (nx.MultiDiGraph ∅ ∅) [] in
  convert_bundles (λ _, EmptyString) true
    [JDict {["objects" := JList [a]]}; JDict ∅; JDict {["objects" := JList [b]]}]
    w =
  convert_bundle (λ _, EmptyString)
    (JDict {["objects" :=
               JList ([JDict {["objects" := JList [a]]}; JDict ∅;
                       JDict {["objects" := JList [b]]}] ≫= objects_of)]})
    true w.
Proof.
  intros a b w. apply bundles_are_concatenated.
  repeat (apply Forall_cons; split; [by vm_compute|]). by apply Forall_nil.
Defined.

(** ** Converting a bundle again *)

Section laid_over.

Context `{Countable K}.
Implicit Types N m : gmap K dict.

Lemma lookup_laid_over N m k :
  laid_over N m !! k =
    match N !! k with
    | Some A => Some (A ∪ default ∅ (m !! k))
    | None => m !! k
    end.
Proof.
  unfold laid_over. rewrite lookup_merge.
  destruct (N !! k), (m !! k); done.
Qed.

Lemma laid_over_empty m : laid_over ∅ m = m.
Proof. apply map_eq. intros k. by rewrite lookup_laid_over, lookup_empty. Qed.

Lemma laid_over_update k attr m :
  laid_over {[k := attr]} m = nx.update_at k attr m.
Proof.
  apply map_eq. intros k'. rewrite lookup_laid_over. unfold nx.update_at.
  destruct (decide (k = k')) as [->|Hne].
  - by rewrite lookup_singleton_eq, lookup_insert_eq.
  - by rewrite lookup_singleton_ne, lookup_insert_ne.
Qed.

Lemma laid_over_compose N2 N1 m :
  laid_over N2 (laid_over N1 m) =
    laid_over (union_with (λ a2 a1, Some (a2 ∪ a1)) N2 N1) m.
Proof.
  apply map_eq. intros k. rewrite !lookup_laid_over, lookup_union_with.
  destruct (N2 !! k) as [a2|], (N1 !! k) as [a1|]; simpl; try done.
  by rewrite (assoc_L (∪)).
Qed.

Lemma laid_over_idemp N m : laid_over N (laid_over N m) = laid_over N m.
Proof.
  apply map_eq. intros k. rewrite !lookup_laid_over.
  destruct (N !! k) as [a|]; [|done]. simpl.
  by rewrite (assoc_L (∪)), (idemp_L (∪)).
Qed.

End laid_over.

Lemma laid_over_touch k (nd : gmap pykey dict) :
  laid_over {[k := ∅]} nd = nx.touch k nd.
Proof.
  apply map_eq. intros k'. rewrite lookup_laid_over. unfold nx.touch.
  destruct (decide (k = k')) as [->|Hne].
  - rewrite lookup_singleton_eq, (left_id_L ∅ (∪)).
    destruct (nd !! k') eqn:Hk; [by rewrite Hk|by rewrite lookup_insert_eq].
  - rewrite lookup_singleton_ne by done.
    destruct (nd !! k); [done|by rewrite lookup_insert_ne].
Qed.

Lemma uniform_pure {A} (m : M world A) l r :
  (∀ w, m w = (World (graph w) (records w ++ l), r)) → uniform m.
Proof.
  intros Hm. exists ∅, ∅, l, r. intros nd adj log.
  by rewrite Hm, !laid_over_empty.
Qed.

Lemma uniform_ret {A} (a : A) : uniform (mret a).
Proof.
  apply (uniform_pure _ [] (Return a)). intros [g log]. simpl.
  by rewrite app_nil_r.
Qed.

Lemma uniform_lift {A} (o : outcome A) : uniform (lift o).
Proof.
  apply (uniform_pure _ [] o). intros [g log]. simpl. by rewrite app_nil_r.
Qed.

Lemma uniform_logger lv x : uniform (logger lv x).
Proof. by apply (uniform_pure _ [(lv, x)] (Return tt)). Qed.

Lemma uniform_bind {A B} (m : M world A) (f : A → M world B) :
  uniform m → (∀ a, uniform (f a)) → uniform (m ≫= f).
Proof.
  intros (N1 & E1 & l1 & r1 & Hm) Hf. destruct r1 as [a|e].
  - destruct (Hf a) as (N2 & E2 & l2 & r2 & Hfa).
    exists (union_with (λ a2 a1, Some (a2 ∪ a1)) N2 N1),
           (union_with (λ a2 a1, Some (a2 ∪ a1)) E2 E1), (l1 ++ l2), r2.
    intros nd adj log. unfold mbind, M_bind.
    by rewrite Hm, Hfa, !laid_over_compose, (assoc_L (++)).
  - exists N1, E1, l1, (Raise e). intros nd adj log. unfold mbind, M_bind.
    by rewrite Hm.
Qed.

Lemma uniform_if {A} (b : bool) (m1 m2 : M world A) :
  uniform m1 → uniform m2 → uniform (if b then m1 else m2).
Proof. by destruct b. Qed.

Lemma uniform_for {A} (l : list A) (body : A → M world unit) :
  (∀ x, uniform (body x)) → uniform (for_ l body).
Proof.
  intros Hb. induction l as [|x l IH]; simpl.
  - apply uniform_ret.
  - apply uniform_bind; [apply Hb|done].
Qed.

Lemma uniform_on_graph {A} (c : M nx.graph A) N E r :
  (∀ nd adj,
     c (nx.DiGraph nd adj) =
       (nx.DiGraph (laid_over N nd) (laid_over E adj), r)) →
  uniform (on_graph c).
Proof.
  intros Hc. exists N, E, [], r. intros nd adj log. unfold on_graph. simpl.
  by rewrite Hc, app_nil_r.
Qed.

Lemma add_node_uniform n attr : uniform (on_graph (nx.add_node n attr)).
Proof.
  unfold nx.add_node. destruct (nx.clashes _ _).
  { apply (uniform_on_graph _ ∅ ∅ (Raise TypeError)). intros nd adj.
    by rewrite !laid_over_empty. }
  destruct (nx.as_node n) as [k|e].
  - apply (uniform_on_graph _ {[k := attr]} ∅ (Return tt)). intros nd adj.
    simpl. by rewrite laid_over_update, laid_over_empty.
  - apply (uniform_on_graph _ ∅ ∅ (Raise e)). intros nd adj.
    by rewrite !laid_over_empty.
Qed.

Lemma add_edge_uniform u v attr : uniform (on_graph (nx.add_edge u v attr)).
Proof.
  destruct (nx.clashes ["self"; "u_of_edge"; "v_of_edge"] attr) eqn:Hc.
  { apply (uniform_on_graph _ ∅ ∅ (Raise TypeError)). intros nd adj.
    unfold nx.add_edge. by rewrite Hc, !laid_over_empty. }
  destruct (nx.as_node u) as [ku|e] eqn:Hu.
  - destruct (nx.as_node v) as [kv|e] eqn:Hv.
    + apply (uniform_on_graph _
               (union_with (λ a2 a1, Some (a2 ∪ a1)) {[kv := ∅]} {[ku := ∅]})
               {[(ku, kv) := attr]} (Return tt)).
      intros nd adj. unfold nx.add_edge. rewrite Hc, Hu, Hv.
      by rewrite <- laid_over_compose, !laid_over_touch, laid_over_update.
    + apply (uniform_on_graph _ {[ku := ∅]} ∅ (Raise e)).
      intros nd adj. unfold nx.add_edge. rewrite Hc, Hu, Hv.
      by rewrite laid_over_touch, laid_over_empty.
  - apply (uniform_on_graph _ ∅ ∅ (Raise e)). intros nd adj.
    unfold nx.add_edge. by rewrite Hc, Hu, !laid_over_empty.
Qed.

Lemma _add_node_uniform obj : uniform (_add_node obj).
Proof.
  unfold _add_node. apply uniform_bind; [apply uniform_lift|].
  intros; apply add_node_uniform.
Qed.

Lemma _add_relationship_uniform obj : uniform (_add_relationship obj).
Proof.
  unfold _add_relationship.
  apply uniform_if; [apply uniform_logger|apply add_edge_uniform].
Qed.

Lemma _add_sighting_uniform obj : uniform (_add_sighting obj).
Proof.
  unfold _add_sighting. apply uniform_bind; [apply uniform_lift|]. intros n.
  apply uniform_bind; [apply add_node_uniform|]. intros _.
  apply uniform_bind.
  { apply uniform_if; [apply add_edge_uniform|apply uniform_ret]. }
  intros _. apply uniform_bind; [apply uniform_lift|]. intros ws.
  apply uniform_bind.
  { apply uniform_for. intros; apply add_edge_uniform. }
  intros _. apply uniform_bind; [apply uniform_lift|]. intros os.
  apply uniform_for. intros; apply add_edge_uniform.
Qed.

Lemma convert_object_uniform rc inc o : uniform (convert_object rc inc o).
Proof.
  destruct o as [| | | | |obj]; try apply uniform_logger.
  unfold convert_object.
  apply uniform_if; [apply uniform_logger|].
  apply uniform_if.
  { apply uniform_bind; [apply uniform_lift|]. intros sk.
    apply uniform_if; [apply uniform_logger|apply uniform_ret]. }
  apply uniform_bind; [apply uniform_lift|]. intros sk.
  apply uniform_if; [apply uniform_ret|].
  apply uniform_if; [apply _add_relationship_uniform|].
  apply uniform_if; [apply _add_sighting_uniform|].
  apply uniform_bind; [apply uniform_lift|]. intros sdo.
  apply uniform_if.
  { apply uniform_bind; [apply _add_node_uniform|]. intros _.
    apply uniform_if; [|apply uniform_ret].
    apply uniform_for. intros; apply _add_node_uniform. }
  apply uniform_bind; [apply uniform_lift|]. intros sco.
  apply uniform_if.
  { apply uniform_if; [apply _add_node_uniform|apply uniform_ret]. }
  apply uniform_bind; [apply uniform_logger|]. intros _.
  apply _add_node_uniform.
Qed.

Lemma convert_bundle_uniform rc inc bundle :
  uniform (convert_bundle rc bundle inc).
Proof.
  unfold convert_bundle. apply uniform_bind; [apply uniform_lift|].
  intros objects. destruct objects; try apply uniform_logger.
  apply uniform_for. intros; apply convert_object_uniform.
Qed.

(** X21: in a simple graph converting is idempotent.  Converting a list
    of bundles into a [DiGraph] and then converting the same list again
    into the result leaves the graph exactly as the first conversion left
    it, nodes, edges and attributes, and ends the same way, returning or
    raising the same exception; only the log gets the same records a
    second time.  What the conversion does to the graph and how it ends
    do not depend on what is in the graph. *)
Theorem simple_graph_reconversion rc inc (bundles : list json) nd adj log :
  graph (convert_bundles rc inc bundles
           (convert_bundles rc inc bundles
              (World (nx.DiGraph nd adj) log)).1).1
    = graph (convert_bundles rc inc bundles
               (World (nx.DiGraph nd adj) log)).1 ∧
  (convert_bundles rc inc bundles
     (convert_bundles rc inc bundles (World (nx.DiGraph nd adj) log)).1).2
    = (convert_bundles rc inc bundles (World (nx.DiGraph nd adj) log)).2 ∧
  (∀ nd' adj' log',
     (convert_bundles rc inc bundles (World (nx.DiGraph nd' adj') log')).2
       = (convert_bundles rc inc bundles (World (nx.DiGraph nd adj) log)).2).
Proof.
  assert (uniform (convert_bundles rc inc bundles))
    as (N & E & l & r & Hrun).
  { apply uniform_for. intros; apply convert_bundle_uniform. }
  rewrite (Hrun nd adj log). simpl. rewrite Hrun. simpl.
  rewrite !laid_over_idemp. split; [done|]. split; [done|].
  intros nd' adj' log'. by rewrite Hrun.
Qed.

(** ** Attributes are never taken away *)

Section fields_kept_in.

Context `{Countable K}.
Implicit Types m : gmap K dict.

Lemma fields_kept_in_refl m : fields_kept_in m m.
Proof. intros k a Ha. by exists a. Qed.

Lemma fields_kept_in_trans m1 m2 m3 :
  fields_kept_in m1 m2 → fields_kept_in m2 m3 → fields_kept_in m1 m3.
Proof.
  intros H12 H23 k a Ha. destruct (H12 k a Ha) as (a2 & Ha2 & Hd2).
  destruct (H23 k a2 Ha2) as (a3 & Ha3 & Hd3). exists a3.
  split; [done|by etrans].
Qed.

Lemma fields_kept_in_update k attr m :
  fields_kept_in m (nx.update_at k attr m).
Proof.
  intros k' a Ha. unfold nx.update_at.
  destruct (decide (k = k')) as [->|Hne].
  - rewrite lookup_insert_eq, Ha. eexists. split; [done|]. simpl.
    rewrite dom_union. apply union_subseteq_r.
  - rewrite lookup_insert_ne by done. by exists a.
Qed.

End fields_kept_in.

Global Instance fields_kept_preorder : PreOrder fields_kept.
Proof.
  split.
  - intros []; split; apply fields_kept_in_refl.
  - intros [] [] []; simpl; try done; intros [] []; split;
      by eapply fields_kept_in_trans.
Qed.

Lemma fields_kept_in_touches ks (nd : gmap pykey dict) :
  fields_kept_in nd (foldr nx.touch nd ks).
Proof.
  intros k a Ha. exists a. split; [|done].
  induction ks as [|k' ks IH]; simpl; [done|]. by apply touch_lookup_Some.
Qed.

Lemma add_node_fields_kept n attr :
  preserves_g fields_kept (nx.add_node n attr).
Proof.
  intros g. destruct (add_node_shape n attr g) as [->|(k & _ & ->)];
    [reflexivity|].
  destruct g; (split; [apply fields_kept_in_update|apply fields_kept_in_refl]).
Qed.

Lemma add_edge_fields_kept u v attr :
  preserves_g fields_kept (nx.add_edge u v attr).
Proof.
  intros g. destruct (add_edge_shape u v attr g) as [ks Hk].
  destruct g; destruct Hk as [->|(e & a & ->)]; split;
    auto using fields_kept_in_touches, fields_kept_in_update,
               fields_kept_in_refl.
Qed.

Lemma convert_bundle_fields_kept rc inc bundle :
  preserves fields_kept (convert_bundle rc bundle inc).
Proof.
  apply convert_bundle_preserves; [apply _|]. intros o.
  apply convert_object_preserves; [apply _|]. intros obj _.
  repeat split.
  - apply _add_node_preserves; [apply _|].
    intros; apply add_node_fields_kept.
  - apply _add_relationship_preserves; [apply _|].
    intros; apply add_edge_fields_kept.
  - apply _add_sighting_preserves; [apply _| |]; intros;
      [apply add_node_fields_kept|apply add_edge_fields_kept].
  - apply Forall_forall. intros sco _.
    apply _add_node_preserves; [apply _|].
    intros; apply add_node_fields_kept.
Qed.

(** X22: converting never takes an attribute away.  For every list of
    bundles, graph and log, and whether the conversion ends or raises,
    every node and every edge the graph had is still there afterwards and
    still has every attribute it had; the value of an attribute can have
    been replaced by a later object, the attribute itself never goes. *)
Theorem attributes_never_removed rc inc (bundles : list json) w :
  fields_kept (graph w) (graph (convert_bundles rc inc bundles w).1).
Proof.
  apply (convert_bundles_preserves fields_kept).
  intros; apply convert_bundle_fields_kept.
Qed.

(** ** The edges of a multigraph *)

Global Instance edges_kept_preorder : PreOrder edges_kept.
Proof.
  split.
  - intros [nd adj|nd adj]; simpl; [|done]. exists []. apply inserted_nil.
  - intros [] [] []; simpl; try done. intros [new1 H1] [new2 H2].
    exists (new1 ++ new2). by eapply inserted_app.
Qed.









